(** * imageEdit: raster image editing operations over Pillow

    A shallow embedding of [lib/imageEdit.py].  The library is a set of
    small functions over Pillow image objects; Pillow itself is not part
    of the repository, so the part of it the library calls is modelled
    first (module [PIL] below), following Pillow 6.x, the release line
    the source was written against ([Image.ANTIALIAS] is gone from
    Pillow 10 on).  Images are Python objects: they live in an object
    store and are passed around by reference, [paste], [thumbnail],
    [ImageDraw] and pixel access write into the object they are called
    on, every other call hands back a fresh object. *)

From Stdlib Require Import ZArith List String Ascii Lia Bool QArith Qround Permutation Sorted.
From Stdlib.Strings Require Import Byte.
From stdpp Require Import base list.
Import ListNotations.
Open Scope Z_scope.

(** ** Bytes: one band of one pixel (UINT8) *)

Definition b2z (b : byte) : Z := Z.of_N (Byte.to_N b).

Definition z2b (z : Z) : byte :=
  match Byte.of_N (Z.to_N (z mod 256)) with
  | Some b => b
  | None => x00
  end.

(** CLIP8 of the C sources: saturate an integer into a byte. *)
Definition clip8 (z : Z) : byte :=
  if z <? 0 then x00 else if 255 <? z then xff else z2b z.

(** MULDIV255 of ImagingUtils.h: [a * b / 255], rounded, in integers. *)
Definition muldiv255 (a b : Z) : Z :=
  let tmp := a * b + 128 in
  Z.shiftr (Z.shiftr tmp 8 + tmp) 8.

(** BLEND8 of Paste.c: the destination band [in1] and the source band
    [in2] mixed by the mask value. *)
Definition blend8 (mask in1 in2 : byte) : byte :=
  z2b (muldiv255 (b2z in1) (255 - b2z mask) + muldiv255 (b2z in2) (b2z mask)).

(** ** Modes and pixels *)

(** The single-band modes "1" and "L" and the multi-band modes "RGB" and
    "RGBA"; the library itself creates "RGBA", "L" and "1" images. *)
Inductive Mode := M1 | ML | MRGB | MRGBA.

(** A pixel of an image of mode [m]: its bands. *)
Definition Pixel (m : Mode) : Type :=
  match m with
  | M1 | ML => byte
  | MRGB => (byte * byte * byte)%type
  | MRGBA => (byte * byte * byte * byte)%type
  end.

(** What Python sees of a pixel: an int for a single band, a tuple of
    ints otherwise. *)
Inductive PyVal :=
| PInt (n : Z)
| PTuple (t : list Z).

Definition pixel_value (m : Mode) : Pixel m -> PyVal :=
  match m with
  | M1 | ML => fun v => PInt (b2z v)
  | MRGB => fun '(r, g, b) => PTuple [b2z r; b2z g; b2z b]
  | MRGBA => fun '(r, g, b, a) => PTuple [b2z r; b2z g; b2z b; b2z a]
  end.

(** A Python value stored into an image of mode [m] (pixel access
    assignment); the wrong shape is a TypeError. *)
Definition pixel_of_value (m : Mode) (v : PyVal) : option (Pixel m) :=
  match m, v with
  | M1, PInt n => Some (clip8 n)
  | ML, PInt n => Some (clip8 n)
  | MRGB, PInt n => Some (z2b n, z2b (Z.shiftr n 8), z2b (Z.shiftr n 16))
  | MRGBA, PInt n => Some (z2b n, z2b (Z.shiftr n 8), z2b (Z.shiftr n 16), z2b (Z.shiftr n 24))
  | MRGB, PTuple [r; g; b] => Some (clip8 r, clip8 g, clip8 b)
  | MRGB, PTuple [r; g; b; _] => Some (clip8 r, clip8 g, clip8 b)
  | MRGBA, PTuple [r; g; b] => Some (clip8 r, clip8 g, clip8 b, xff)
  | MRGBA, PTuple [r; g; b; a] => Some (clip8 r, clip8 g, clip8 b, clip8 a)
  | _, _ => None
  end.

Definition zero_px (m : Mode) : Pixel m :=
  match m with
  | M1 | ML => x00
  | MRGB => (x00, x00, x00)
  | MRGBA => (x00, x00, x00, x00)
  end.

(** A band-wise combination of two pixels of the same mode. *)
Definition px_map2 (m : Mode) (f : byte -> byte -> byte) : Pixel m -> Pixel m -> Pixel m :=
  match m with
  | M1 | ML => fun a b => f a b
  | MRGB => fun '(r1, g1, b1) '(r2, g2, b2) => (f r1 r2, f g1 g2, f b1 b2)
  | MRGBA => fun '(r1, g1, b1, a1) '(r2, g2, b2, a2) => (f r1 r2, f g1 g2, f b1 b2, f a1 a2)
  end.

(** ** Images *)

(** An image object: mode, size and the pixel grid.  Only the pixels
    inside [0, width) x [0, height) are part of the image. *)
Record Image := mkImage {
  mode : Mode;
  width : nat;
  height : nat;
  px : Z -> Z -> Pixel mode
}.

Definition im_w (im : Image) : Z := Z.of_nat (width im).
Definition im_h (im : Image) : Z := Z.of_nat (height im).

Definition in_bounds (im : Image) (x y : Z) : bool :=
  (0 <=? x) && (x <? im_w im) && (0 <=? y) && (y <? im_h im).

(** The pixel at (x, y), zero outside the image. *)
Definition pixel_at (im : Image) (x y : Z) : Pixel (mode im) :=
  if in_bounds im x y then px im x y else zero_px (mode im).

(** All pixels as Python values, row by row. *)
Definition getdata (im : Image) : list PyVal :=
  flat_map (fun y => map (fun x => pixel_value (mode im) (px im (Z.of_nat x) (Z.of_nat y)))
                         (seq 0 (width im)))
           (seq 0 (height im)).

(** Resampling filters of [Image.resize]. *)
Inductive Filter := NEAREST | BILINEAR | BICUBIC | ANTIALIAS.

(** The colour planes of Pillow that are numeric kernels or tables: they
    are taken as an interface, and nothing proved below depends on what
    they compute. *)
Class Kernels := {
  (** the resampled pixel (x, y) of [im] stretched to w x h *)
  resample : Filter -> forall im : Image, nat -> nat -> Z -> Z -> Pixel (mode im);
  (** pixel (x, y) of [im] after the 5x5 [ImageFilter.BLUR] convolution *)
  blur_kernel : forall im : Image, Z -> Z -> Pixel (mode im);
  (** whether [ImageDraw.ellipse] on bounding box (x0, y0, x1, y1) fills (x, y) *)
  ellipse_cover : Z * Z * Z * Z -> Z -> Z -> bool;
  (** the "L" value of an RGB triple *)
  luma : byte -> byte -> byte -> byte;
  (** pixel (x, y) of the dithered "1" conversion of [im] *)
  dither : Image -> Z -> Z -> byte;
  (** colour names and functional notations of [ImageColor.getrgb] *)
  other_colour : string -> option (Z * Z * Z * option Z);
  (** the slot order of the hash table [Image.getcolors] fills *)
  table_order : list (Z * PyVal) -> list (Z * PyVal);
  table_order_perm : forall l, Permutation (table_order l) l
}.

(** ** Colours: [ImageColor.getrgb] and [ImageColor.getcolor] *)

Definition lower_ascii (c : ascii) : ascii :=
  let n := nat_of_ascii c in
  if ((65 <=? n) && (n <=? 90))%nat then ascii_of_nat (n + 32) else c.

Fixpoint lower (s : string) : string :=
  match s with
  | EmptyString => EmptyString
  | String c s' => String (lower_ascii c) (lower s')
  end.

(** One character of the class [[a-f0-9]]. *)
Definition hex_digit (c : ascii) : option Z :=
  let n := Z.of_nat (nat_of_ascii c) in
  if (48 <=? n) && (n <=? 57) then Some (n - 48)
  else if (97 <=? n) && (n <=? 102) then Some (n - 87)
  else None.

Definition hex2 (hi lo : ascii) : option Z :=
  match hex_digit hi, hex_digit lo with
  | Some h, Some l => Some (16 * h + l)
  | _, _ => None
  end.

(** The four "#" forms of [getrgb]: #rgb, #rgba, #rrggbb, #rrggbbaa. *)
Definition hex_colour (s : string) : option (Z * Z * Z * option Z) :=
  match list_ascii_of_string s with
  | ["#"%char; r; g; b] =>
      match hex2 r r, hex2 g g, hex2 b b with
      | Some r, Some g, Some b => Some (r, g, b, None)
      | _, _, _ => None
      end
  | ["#"%char; r; g; b; a] =>
      match hex2 r r, hex2 g g, hex2 b b, hex2 a a with
      | Some r, Some g, Some b, Some a => Some (r, g, b, Some a)
      | _, _, _, _ => None
      end
  | ["#"%char; r1; r2; g1; g2; b1; b2] =>
      match hex2 r1 r2, hex2 g1 g2, hex2 b1 b2 with
      | Some r, Some g, Some b => Some (r, g, b, None)
      | _, _, _ => None
      end
  | ["#"%char; r1; r2; g1; g2; b1; b2; a1; a2] =>
      match hex2 r1 r2, hex2 g1 g2, hex2 b1 b2, hex2 a1 a2 with
      | Some r, Some g, Some b, Some a => Some (r, g, b, Some a)
      | _, _, _, _ => None
      end
  | _ => None
  end.

(** ** The object store

    Python hands images around by reference.  The store is the list of
    the image objects allocated so far, a reference is a position in it;
    a computation threads the store and may raise. *)

Inductive exn :=
| ValueError
| IndexError
| TypeError
| UnboundLocalError
| Dangling.   (* a reference to no object: no Python program reaches it *)

Abbreviation ref := nat.
Abbreviation Heap := (list Image).

Definition M (A : Type) : Type := Heap -> exn + (A * Heap).

#[global] Instance M_ret : MRet M := fun A a h => inr (a, h).
#[global] Instance M_bind : MBind M := fun A B f m h =>
  match m h with
  | inl e => inl e
  | inr (a, h') => f a h'
  end.

Definition raise {A} (e : exn) : M A := fun _ => inl e.

(** A failed Pillow call raises [e]. *)
Definition lift {A} (e : exn) (o : option A) : M A :=
  match o with
  | Some a => mret a
  | None => raise e
  end.

Definition alloc (im : Image) : M ref := fun h => inr (length h, h ++ [im]).

Definition deref (r : ref) : M Image := fun h =>
  match h !! r with
  | Some im => inr (im, h)
  | None => inl Dangling
  end.

Definition assign (r : ref) (im : Image) : M unit := fun h => inr (tt, <[r := im]> h).

(** [range(n)]. *)
Definition range (n : Z) : list Z := map Z.of_nat (seq 0 (Z.to_nat n)).

(** [for x in l: body]. *)
Fixpoint for_each {A} (l : list A) (body : A -> M unit) : M unit :=
  match l with
  | [] => mret tt
  | x :: l' => body x ;; for_each l' body
  end.

(** [for x in l: s = body(x, s)], a loop that rebinds one name. *)
Fixpoint for_fold {A S} (l : list A) (s : S) (body : A -> S -> M S) : M S :=
  match l with
  | [] => mret s
  | x :: l' => s' ← body x s; for_fold l' s' body
  end.

(** [[f(i) for i in l]] for a callable that may raise. *)
Fixpoint map_call (f : Z -> exn + Z) (l : list Z) : exn + list Z :=
  match l with
  | [] => inr []
  | i :: l' =>
      match f i with
      | inl e => inl e
      | inr v =>
          match map_call f l' with
          | inl e => inl e
          | inr vs => inr (v :: vs)
          end
      end
  end.

(** * Pillow *)

Module PIL.
Section Pillow.
Context `{K : Kernels}.

(** [ImageColor.getrgb]: (r, g, b) or (r, g, b, a); [None] stands for
    the ValueError of an unknown colour specifier. *)
Definition getrgb (color : string) : option (Z * Z * Z * option Z) :=
  let color := lower color in
  match hex_colour color with
  | Some c => Some c
  | None => other_colour color
  end.

(** [ImageColor.getcolor]: the colour in the shape the mode stores. *)
Definition getcolor (color : string) (m : Mode) : option PyVal :=
  match getrgb color with
  | None => None
  | Some (r, g, b, a) =>
      let alpha := match a with Some a => a | None => 255 end in
      Some match m with
           | M1 | ML => PInt ((r * 299 + g * 587 + b * 114) / 1000)
           | MRGB => PTuple [r; g; b]
           | MRGBA => PTuple [r; g; b; alpha]
           end
  end.

(** ** Image values: what each Pillow call computes *)

Definition filled (m : Mode) (w h : nat) (ink : Pixel m) : Image :=
  mkImage m w h (fun _ _ => ink).

Definition to_RGBA (m : Mode) : Pixel m -> Pixel MRGBA :=
  match m with
  | M1 => fun v => if Byte.eqb v x00 then (x00, x00, x00, xff) else (xff, xff, xff, xff)
  | ML => fun v => (v, v, v, xff)
  | MRGB => fun '(r, g, b) => (r, g, b, xff)
  | MRGBA => fun p => p
  end.

Definition to_RGB (m : Mode) : Pixel m -> Pixel MRGB :=
  match m with
  | M1 => fun v => if Byte.eqb v x00 then (x00, x00, x00) else (xff, xff, xff)
  | ML => fun v => (v, v, v)
  | MRGB => fun p => p
  | MRGBA => fun '(r, g, b, _) => (r, g, b)
  end.

Definition to_L (m : Mode) : Pixel m -> Pixel ML :=
  match m with
  | M1 => fun v => if Byte.eqb v x00 then x00 else xff
  | ML => fun v => v
  | MRGB => fun '(r, g, b) => luma r g b
  | MRGBA => fun '(r, g, b, _) => luma r g b
  end.

(** [Image.convert(mode)]; an image already in that mode is copied. *)
Definition convert_image (im : Image) (m : Mode) : Image :=
  mkImage m (width im) (height im)
    match m return Z -> Z -> Pixel m with
    | M1 =>
        match mode im as m0 return (Z -> Z -> Pixel m0) -> Z -> Z -> byte with
        | M1 => fun p => p
        | _ => fun _ => dither im
        end (px im)
    | ML => fun x y => to_L (mode im) (px im x y)
    | MRGB => fun x y => to_RGB (mode im) (px im x y)
    | MRGBA => fun x y => to_RGBA (mode im) (px im x y)
    end.

(** [Image.crop((x0, y0, x1, y1))]: a negative extent is an empty image,
    what lies outside the source is zero. *)
Definition crop_image (im : Image) (box : Z * Z * Z * Z) : Image :=
  let '(x0, y0, x1, y1) := box in
  mkImage (mode im) (Z.to_nat (x1 - x0)) (Z.to_nat (y1 - y0))
          (fun x y => pixel_at im (x + x0) (y + y0)).

(** The weight a paste mask gives at (x, y): the value of a "1" or "L"
    mask, the alpha band of an "RGBA" mask; no other mode is a mask. *)
Definition mask_value (mk : Image) : option (Z -> Z -> byte) :=
  match mode mk as m return (Z -> Z -> Pixel m) -> option (Z -> Z -> byte) with
  | M1 => fun p => Some (fun x y => if Byte.eqb (p x y) x00 then x00 else xff)
  | ML => fun p => Some p
  | MRGB => fun _ => None
  | MRGBA => fun p => Some (fun x y => let '(_, _, _, a) := p x y in a)
  end (px mk).

Definition in_box (pos : Z * Z) (im : Image) (x y : Z) : bool :=
  let '(x0, y0) := pos in
  (x0 <=? x) && (x <? x0 + im_w im) && (y0 <=? y) && (y <? y0 + im_h im).

(** The part of the box of [src] at [pos] that lies on [dst] is empty. *)
Definition clipped_away (dst src : Image) (pos : Z * Z) : bool :=
  let '(x0, y0) := pos in
  (Z.min (x0 + im_w src) (im_w dst) - Z.max x0 0 <=? 0)
  || (Z.min (y0 + im_h src) (im_h dst) - Z.max y0 0 <=? 0).

Definition same_size (a b : Image) : bool :=
  (im_w a =? im_w b) && (im_h a =? im_h b).

(** [Image.paste(src, pos)] on image values, without a mask.  The
    source is brought to the mode of the destination; a box that misses
    the destination changes nothing; otherwise every destination pixel
    under the box is replaced by the source pixel. *)
Definition paste_plain (dst src : Image) (pos : Z * Z) : Image :=
  let src' := convert_image src (mode dst) in
  if clipped_away dst src pos then dst
  else mkImage (mode dst) (width dst) (height dst)
         (fun x y => if in_box pos src x y
                     then px src' (x - fst pos) (y - snd pos)
                     else px dst x y).

(** The same through a mask whose weights are [weight]: every
    destination pixel under the box is blended with the source pixel. *)
Definition paste_blend (dst src : Image) (pos : Z * Z) (weight : Z -> Z -> byte) : Image :=
  let src' := convert_image src (mode dst) in
  if clipped_away dst src pos then dst
  else mkImage (mode dst) (width dst) (height dst)
         (fun x y => if in_box pos src x y
                     then px_map2 (mode dst)
                            (blend8 (weight (x - fst pos) (y - snd pos)))
                            (px dst x y)
                            (px src' (x - fst pos) (y - snd pos))
                     else px dst x y).

(** [Image.paste(src, pos, mask)]: a mask of another size than the
    source is refused ("images do not match"), and so is, when the box
    meets the destination, a mask of a mode that carries no weights
    ("bad transparency mask"). *)
Definition paste_image (dst src : Image) (pos : Z * Z) (mask : option Image)
  : option Image :=
  match mask with
  | None => Some (paste_plain dst src pos)
  | Some mk =>
      if negb (same_size mk src) then None
      else if clipped_away dst src pos then Some dst
      else match mask_value mk with
           | None => None
           | Some weight => Some (paste_blend dst src pos weight)
           end
  end.

(** [ImageDraw.Draw(im).ellipse(bbox, fill)]: the covered pixels take the ink. *)
Definition ellipse_image (im : Image) (bbox : Z * Z * Z * Z) (ink : Pixel (mode im)) : Image :=
  mkImage (mode im) (width im) (height im)
          (fun x y => if ellipse_cover bbox x y then ink else px im x y).

(** [Image.filter(ImageFilter.BLUR)]. *)
Definition blur_image (im : Image) : Image :=
  mkImage (mode im) (width im) (height im) (blur_kernel im).

(** The image the C resampler builds for a target size. *)
Definition resize_image (flt : Filter) (im : Image) (w h : nat) : Image :=
  mkImage (mode im) w h (resample flt im w h).

(** The size [Image.thumbnail(size)] settles on: the aspect ratio is
    kept and no side drops below one pixel. *)
Definition thumbnail_size (im : Image) (size : Z * Z) : Z * Z :=
  let x := im_w im in
  let y := im_h im in
  let '(x, y) := if fst size <? x then (fst size, Z.max (y * fst size / x) 1) else (x, y) in
  let '(x, y) := if snd size <? y then (Z.max (x * snd size / y) 1, snd size) else (x, y) in
  (x, y).

(** The 256-entry table [Image.point] builds from a callable, applied to one band. *)
Definition apply_lut (lut : list Z) (v : byte) : byte :=
  clip8 (nth (Z.to_nat (b2z v)) lut 0).

(** [Image.point(lut, mode)]: a single-band image may change to the
    other single-band mode, a multi-band image keeps its mode. *)
Definition point_image (im : Image) (lut : list Z) (m : option Mode) : option Image :=
  let target := match m with Some m => m | None => mode im end in
  match
    match mode im as m0, target as m1
          return (Z -> Z -> Pixel m0) -> option (Z -> Z -> Pixel m1) with
    | M1, M1 | M1, ML | ML, M1 | ML, ML => fun p => Some (fun x y => apply_lut lut (p x y))
    | MRGB, MRGB =>
        fun p => Some (fun x y => let '(r, g, b) := p x y in
                                  (apply_lut lut r, apply_lut lut g, apply_lut lut b))
    | MRGBA, MRGBA =>
        fun p => Some (fun x y => let '(r, g, b, a) := p x y in
                                  (apply_lut lut r, apply_lut lut g, apply_lut lut b,
                                   apply_lut lut a))
    | _, _ => fun _ => None
    end (px im)
  with
  | Some p => Some (mkImage target (width im) (height im) p)
  | None => None
  end.

(** [pixels[x, y] = v] on image values: one pixel replaced. *)
Definition set_pixel (im : Image) (p : Z * Z) (v : Pixel (mode im)) : Image :=
  mkImage (mode im) (width im) (height im)
          (fun x y => if (x =? fst p) && (y =? snd p) then v else px im x y).

(** ** Colour counts *)

Definition PyVal_eq_dec (a b : PyVal) : {a = b} + {a <> b}.
Proof. repeat decide equality. Defined.

(** Every distinct value of [data] with the number of times it occurs. *)
Definition histogram (data : list PyVal) : list (Z * PyVal) :=
  map (fun c => (Z.of_nat (count_occ PyVal_eq_dec data c), c)) (nodup PyVal_eq_dec data).

(** The number of distinct colours of an image. *)
Definition distinct_colours (im : Image) : nat :=
  length (nodup PyVal_eq_dec (getdata im)).

(** [Image.getcolors(maxcolors)]: a list of (count, colour), or [None]
    when the image has more than [maxcolors] colours.  Single-band
    images are listed by value, the others in hash-table order. *)
Definition getcolors_image (im : Image) (maxcolors : Z) : option (list (Z * PyVal)) :=
  let out :=
    match mode im with
    | M1 | ML =>
        filter (fun e => negb (fst e =? 0))
               (map (fun i => (Z.of_nat (count_occ PyVal_eq_dec (getdata im) (PInt (Z.of_nat i))),
                               PInt (Z.of_nat i)))
                    (seq 0 256))
    | MRGB | MRGBA => table_order (histogram (getdata im))
    end in
  if maxcolors <? Z.of_nat (length out) then None else Some out.

(** ** The calls, on the object store *)

(** [Image.new(mode, size, color)]. *)
Definition new (m : Mode) (size : Z * Z) (color : string) : M ref :=
  if (fst size <? 0) || (snd size <? 0) then raise ValueError
  else
    ink ← lift ValueError (getcolor color m ≫= pixel_of_value m);
    alloc (filled m (Z.to_nat (fst size)) (Z.to_nat (snd size)) ink).

(** [image.size], [image.width], [image.height]. *)
Definition size (image : ref) : M (Z * Z) :=
  im ← deref image; mret (im_w im, im_h im).

Definition get_width (image : ref) : M Z := im ← deref image; mret (im_w im).
Definition get_height (image : ref) : M Z := im ← deref image; mret (im_h im).

(** [image.convert(mode)]: a new object. *)
Definition convert (image : ref) (m : Mode) : M ref :=
  im ← deref image; alloc (convert_image im m).

(** [image.crop(box)]: a new object. *)
Definition crop (image : ref) (box : Z * Z * Z * Z) : M ref :=
  im ← deref image; alloc (crop_image im box).

(** [image.paste(im, box, mask)] writes into [image]. *)
Definition paste (image : ref) (im : ref) (box : Z * Z) (mask : option ref) : M unit :=
  dst ← deref image;
  src ← deref im;
  mk ← match mask with
       | Some r => mk ← deref r; mret (Some mk)
       | None => mret None
       end;
  dst' ← lift ValueError (paste_image dst src box mk);
  assign image dst'.

(** [ImageDraw.Draw(im)]: a drawing handle on the image object itself. *)
Definition Draw (im : ref) : M ref := mret im.

(** [draw.ellipse(xy, fill)] writes into the image of the handle. *)
Definition ellipse (draw : ref) (xy : Z * Z * Z * Z) (fill : string) : M unit :=
  im ← deref draw;
  ink ← lift ValueError (getcolor fill (mode im) ≫= pixel_of_value (mode im));
  assign draw (ellipse_image im xy ink).

(** [image.filter(ImageFilter.BLUR)]: a new object. *)
Definition filter_BLUR (image : ref) : M ref :=
  im ← deref image; alloc (blur_image im).

(** What [Image.resize] returns for an image: a copy when the size is
    the size it has, a ValueError ("height and width must be > 0") for a
    target side below one pixel, the resampled image otherwise. *)
Definition resize_value (im : Image) (size : Z * Z) (flt : Filter) : option Image :=
  if (im_w im =? fst size) && (im_h im =? snd size) then Some im
  else if (fst size <? 1) || (snd size <? 1) then None
  else Some (resize_image flt im (Z.to_nat (fst size)) (Z.to_nat (snd size))).

(** [image.resize(size, resample)]: a new object. *)
Definition resize (image : ref) (size : Z * Z) (flt : Filter) : M ref :=
  im ← deref image;
  im' ← lift ValueError (resize_value im size flt);
  alloc im'.

(** [image.thumbnail(size)] shrinks [image] itself (bicubic). *)
Definition thumbnail (image : ref) (size : Z * Z) : M unit :=
  im ← deref image;
  let size' := thumbnail_size im size in
  if (fst size' =? im_w im) && (snd size' =? im_h im) then mret tt
  else
    im' ← lift ValueError (resize_value im size' BICUBIC);
    assign image im'.

(** Pixel lookup shared by [getpixel] and pixel access: a negative
    index counts from the far edge, an index off the image is an
    IndexError. *)
Definition locate (im : Image) (xy : Z * Z) : option (Z * Z) :=
  let x := if fst xy <? 0 then im_w im + fst xy else fst xy in
  let y := if snd xy <? 0 then im_h im + snd xy else snd xy in
  if in_bounds im x y then Some (x, y) else None.

(** [image.getpixel(xy)]. *)
Definition getpixel (image : ref) (xy : Z * Z) : M PyVal :=
  im ← deref image;
  p ← lift IndexError (locate im xy);
  mret (pixel_value (mode im) (px im (fst p) (snd p))).

(** [image.getcolors()] with its default of 256 colours. *)
Definition getcolors (image : ref) : M (option (list (Z * PyVal))) :=
  im ← deref image; mret (getcolors_image im 256).

(** [image.point(lut, mode)] for a callable [lut]: the table is built by
    calling it on 0..255, then applied; a new object. *)
Definition point (image : ref) (lut : Z -> exn + Z) (m : option Mode) : M ref :=
  im ← deref image;
  match map_call lut (range 256) with
  | inl e => raise e
  | inr table =>
      im' ← lift ValueError (point_image im table m);
      alloc im'
  end.

(** [image.load()]: the pixel access object of the image. *)
Definition load (image : ref) : M ref := mret image.

(** [pixels[x, y]]. *)
Definition getitem (pixels : ref) (xy : Z * Z) : M PyVal := getpixel pixels xy.

(** [pixels[x, y] = value] writes one pixel of the image. *)
Definition setitem (pixels : ref) (xy : Z * Z) (value : PyVal) : M unit :=
  im ← deref pixels;
  p ← lift IndexError (locate im xy);
  v ← lift TypeError (pixel_of_value (mode im) value);
  assign pixels (set_pixel im p v).

End Pillow.
End PIL.

(** * lib/imageEdit.py *)

(** ** Python built-ins the library uses *)

(** [max(iterable)]; an empty argument is a ValueError. *)
Definition py_max (l : list Z) : M Z :=
  match l with
  | [] => raise ValueError
  | x :: l' => mret (fold_left Z.max l' x)
  end.

(** [l[i]]. *)
Definition index {A} (l : list A) (i : nat) : M A := lift IndexError (l !! i).

(** [int(x)]: truncation towards zero.  A factor is taken as the exact
    rational it denotes; for an int, and for a float that is a dyadic
    rational whose product with a pixel count stays below 2^53 (2 and
    0.5 are), the float product is this exact product. *)
Definition py_int (q : Q) : Z := Z.quot (Qnum q) (Z.pos (Qden q)).

(** [a < b] on ints and tuples; an int against a tuple is a TypeError. *)
Fixpoint tuple_lt (a b : list Z) : bool :=
  match a, b with
  | _, [] => false
  | [], _ :: _ => true
  | x :: a', y :: b' => if x =? y then tuple_lt a' b' else x <? y
  end.

Definition py_lt (a b : PyVal) : exn + bool :=
  match a, b with
  | PInt x, PInt y => inr (x <? y)
  | PTuple x, PTuple y => inr (tuple_lt x y)
  | _, _ => inl TypeError
  end.

(** [sorted(l, key=key, reverse=True)]: descending, equal keys keep
    their order. *)
Fixpoint insert_desc {A} (key : A -> Z) (x : A) (l : list A) : list A :=
  match l with
  | [] => [x]
  | y :: l' => if key x <? key y then y :: insert_desc key x l' else x :: y :: l'
  end.

Definition sorted_reverse {A} (key : A -> Z) (l : list A) : list A :=
  fold_right (insert_desc key) [] l.

Section ImageEdit.
Context `{K : Kernels}.

(** ** Corner rounding *)

Definition roundCorners (image : ref) (radius : Z) : M ref :=
  circle ← PIL.new MRGBA (radius * 2, radius * 2) "#00000000";
  draw ← PIL.Draw circle;
  PIL.ellipse draw (0, 0, radius * 2, radius * 2) "#ffffffff";;
  size ← PIL.size image;
  alpha ← PIL.new MRGBA size "#ffffffff";
  size ← PIL.size image;
  background ← PIL.new MRGBA size "#00000000";
  '(w, h) ← PIL.size image;
  c ← PIL.crop circle (0, 0, radius, radius);
  PIL.paste alpha c (0, 0) None;;
  c ← PIL.crop circle (0, radius, radius, radius * 2);
  PIL.paste alpha c (0, h - radius) None;;
  c ← PIL.crop circle (radius, 0, radius * 2, radius);
  PIL.paste alpha c (w - radius, 0) None;;
  c ← PIL.crop circle (radius, radius, radius * 2, radius * 2);
  PIL.paste alpha c (w - radius, h - radius) None;;
  mask ← PIL.convert alpha MRGBA;
  PIL.paste background image (0, 0) (Some mask);;
  mret background.

Definition roundCornersPercent (image : ref) (radius : Z) : M ref :=
  '(w, h) ← PIL.size image;
  let size := Z.min w h in
  let rad := py_int (inject_Z (size * radius) / 100) in
  roundCorners image rad.

(** ** Resizing *)

Definition resizeImageAbs (image : ref) (width height : Z) : M ref :=
  PIL.resize image (width, height) ANTIALIAS.

Definition resizeImageSquare (image : ref) (size : Z) : M ref :=
  resizeImageAbs image size size.

Definition resizeImage (image : ref) (factor : Q) : M ref :=
  w ← PIL.get_width image;
  h ← PIL.get_height image;
  resizeImageAbs image (py_int (inject_Z w * factor)) (py_int (inject_Z h * factor)).

Definition roundCornersAntiAlias (image : ref) (radius : Z) : M ref :=
  let FACTOR := 2 in
  imageTemp ← resizeImage image (inject_Z FACTOR);
  imageTemp ← roundCorners imageTemp (radius * FACTOR);
  resizeImage imageTemp (1 / inject_Z FACTOR).

Definition roundCornersPercentAntiAlias (image : ref) (radius : Z) : M ref :=
  let FACTOR := 2 in
  imageTemp ← resizeImage image (inject_Z FACTOR);
  imageTemp ← roundCornersPercent imageTemp radius;
  resizeImage imageTemp (1 / inject_Z FACTOR).

(** ** Drop shadows *)

Definition addDropShadowComplex (image : ref) (iterations border : Z) (offset : list Z)
    (backgroundColour shadowColour : string) : M ref :=
  originalSize ← PIL.size image;
  (* Calculate the size of the intermediate image *)
  size ← PIL.size image;
  o0 ← index offset 0;
  let fullWidth := fst size + Z.abs o0 + 2 * border in
  size ← PIL.size image;
  o1 ← index offset 1;
  let fullHeight := snd size + Z.abs o1 + 2 * border in
  (* Create the shadow's image. Match the parent image's mode. *)
  background ← PIL.new MRGBA (fullWidth, fullHeight) backgroundColour;
  shadow ← PIL.new MRGBA (fst originalSize, snd originalSize) shadowColour;
  (* Place the shadow, with the required offset *)
  o0 ← index offset 0;
  let shadowLeft := border + Z.max o0 0 in
  o1 ← index offset 1;
  let shadowTop := border + Z.max o1 0 in
  (* Paste in the constant colour *)
  src ← PIL.convert shadow MRGBA;
  mask ← PIL.convert image MRGBA;
  PIL.paste background src (shadowLeft, shadowTop) (Some mask);;
  (* Apply the BLUR filter repeatedly *)
  background ← for_fold (range iterations) background
                 (fun _ background => PIL.filter_BLUR background);
  (* Paste the original image on top of the shadow *)
  o0 ← index offset 0;
  let imgLeft := border - Z.min o0 0 in
  o1 ← index offset 1;
  let imgTop := border - Z.min o1 0 in
  src ← PIL.convert image MRGBA;
  mask ← PIL.convert image MRGBA;
  PIL.paste background src (imgLeft, imgTop) (Some mask);;
  resizeImageAbs background (fst originalSize) (snd originalSize).

Definition addDropShadowSimple (image : ref) (offset : list Z) : M ref :=
  border ← py_max (map Z.abs offset);
  addDropShadowComplex image 11 border offset "#ffffff00" "#00000055".

(** ** Padding *)

Definition removeImagePadding (image : ref) (padding : Z) : M ref :=
  w ← PIL.get_width image;
  h ← PIL.get_height image;
  PIL.crop image (padding, padding, w - padding, h - padding).

Definition getImageDesc (image : ref) : M (option string) :=
  w ← PIL.get_width image;
  h ← PIL.get_height image;
  if (w =? 640) && (h =? 640) then mret (Some "mask"%string)
  else
    w ← PIL.get_width image;
    h ← PIL.get_height image;
    if (w =? 512) && (h =? 512) then mret (Some "icon"%string)
    else mret None.

(** ** Directories *)

Definition slash : ascii := ascii_of_nat 47.
Definition backslash : ascii := ascii_of_nat 92.

(** What the pattern of [createDirsIfRequired] matches: a slash or a
    backslash. *)
Definition is_separator (c : ascii) : bool := (c =? slash)%char || (c =? backslash)%char.

(** [re.split] on that pattern: the pieces between the separators, the
    empty ones included; there always is one piece. *)
Fixpoint re_split (s : string) : list string :=
  match s with
  | EmptyString => [EmptyString]
  | String c s' =>
      if is_separator c then EmptyString :: re_split s'
      else match re_split s' with
           | tok :: toks => String c tok :: toks
           | [] => [String c EmptyString]
           end
  end.

(** [createDirsIfRequired] up to its last line: the path it builds and
    hands to [os.makedirs]. *)
Definition createDirsIfRequired (filepath : string) : string :=
  let tok := re_split filepath in
  fold_left (fun checkfile x => (checkfile ++ (x ++ String backslash EmptyString))%string)
    (removelast tok) EmptyString.

(** ** Black and white *)

(** The nested [getKey] of [convertBlackAndWhite]. *)
Definition getKey (item : Z * PyVal) : Z := fst item.

(** [len(t)] and [t[i]] on a pixel value; an int has neither. *)
Definition py_len (t : PyVal) : exn + nat :=
  match t with
  | PTuple l => inr (length l)
  | PInt _ => inl TypeError
  end.

Definition py_item (t : PyVal) (i : nat) : exn + Z :=
  match t with
  | PTuple l => match l !! i with Some v => inr v | None => inl IndexError end
  | PInt _ => inl TypeError
  end.

(** The loop of the nested [cmpTup] over the indices still to visit. *)
Fixpoint cmpTup_loop (tupleA tupleB : PyVal) (indices : list nat) : exn + bool :=
  match indices with
  | [] => inr true
  | index :: rest =>
      match py_item tupleA index, py_item tupleB index with
      | inl e, _ => inl e
      | _, inl e => inl e
      | inr a, inr b =>
          if (b + 10 <? a) || (a <? b - 10) then inr false
          else cmpTup_loop tupleA tupleB rest
      end
  end.

(** The nested [cmpTup]: every band of [tupleA] within 10 of [tupleB]'s. *)
Definition cmpTup (tupleA tupleB : PyVal) : exn + bool :=
  match py_len tupleA with
  | inl e => inl e
  | inr n => cmpTup_loop tupleA tupleB (seq 0 n)
  end.

(** A raising pure call inside the store monad. *)
Definition call {A} (r : exn + A) : M A :=
  match r with
  | inl e => raise e
  | inr a => mret a
  end.

Definition white : PyVal := PTuple [255; 255; 255; 255].
Definition black : PyVal := PTuple [0; 0; 0; 255].

Definition convertBlackAndWhite (image : ref) (mode : string) : M ref :=
  filterColour ←
    (if (mode =? "background")%string || (mode =? "foreground")%string then
       rgbaImage ← PIL.convert image MRGBA;
       colors ← PIL.getcolors rgbaImage;
       filterColour ←
         (if (mode =? "background")%string then
            colors ← lift TypeError colors;
            item ← index (sorted_reverse getKey colors) 0;
            mret (Some (snd item))
          else mret None);
       (if (mode =? "foreground")%string then
          colors ← lift TypeError colors;
          item ← index (sorted_reverse getKey colors) 1;
          mret (Some (snd item))
        else mret filterColour)
     else mret None);
  im ← PIL.convert image ML;
  PIL.thumbnail im (1, 1);;
  averageColour ← PIL.getpixel im (0, 0);
  let threshold : option (Z -> exn + Z) := None in
  let threshold :=
    if (mode =? "filter-darker")%string
    then Some (fun pixel => match py_lt (PInt pixel) averageColour with
                            | inl e => inl e
                            | inr c => inr (if c then 0 else 255)
                            end)
    else threshold in
  let threshold :=
    if (mode =? "filter-lighter")%string
    then Some (fun pixel => match py_lt averageColour (PInt pixel) with
                            | inl e => inl e
                            | inr c => inr (if c then 0 else 255)
                            end)
    else threshold in
  converted ←
    (if (mode =? "background")%string || (mode =? "foreground")%string then
       converted ← PIL.convert image MRGBA;
       pixels ← PIL.load converted;
       size ← PIL.size image;
       for_each (range (fst size)) (fun i =>
         size ← PIL.size image;
         for_each (range (snd size)) (fun j =>
           if (mode =? "background")%string then
             filterColour ← lift UnboundLocalError filterColour;
             p ← PIL.getitem pixels (i, j);
             c ← call (cmpTup p filterColour);
             if c : bool then PIL.setitem pixels (i, j) white
             else PIL.setitem pixels (i, j) black
           else
             filterColour ← lift UnboundLocalError filterColour;
             p ← PIL.getitem pixels (i, j);
             c ← call (cmpTup p filterColour);
             if negb c then PIL.setitem pixels (i, j) white
             else PIL.setitem pixels (i, j) black));;
       mret converted
     else
       grey ← PIL.convert image ML;
       threshold ← lift UnboundLocalError threshold;
       PIL.point grey threshold (Some M1));
  PIL.convert converted MRGBA.

(** ** The images [roundCorners] builds, as values *)

Definition clear : Pixel MRGBA := (x00, x00, x00, x00).      (* "#00000000" *)
Definition opaque : Pixel MRGBA := (xff, xff, xff, xff).     (* "#ffffffff" *)

(** [circle] once the ellipse is drawn. *)
Definition corner_circle (radius : Z) : Image :=
  PIL.ellipse_image
    (PIL.filled MRGBA (Z.to_nat (radius * 2)) (Z.to_nat (radius * 2)) clear)
    (0, 0, radius * 2, radius * 2) opaque.

(** The four quadrants cut out of [circle], in the order of the source. *)
Definition corner_crops (radius : Z) : list Image :=
  [ PIL.crop_image (corner_circle radius) (0, 0, radius, radius);
    PIL.crop_image (corner_circle radius) (0, radius, radius, radius * 2);
    PIL.crop_image (corner_circle radius) (radius, 0, radius * 2, radius);
    PIL.crop_image (corner_circle radius) (radius, radius, radius * 2, radius * 2) ].

(** [alpha] once the four quadrants are pasted into its corners. *)
Definition corner_alpha (im : Image) (radius : Z) : Image :=
  let w := im_w im in
  let h := im_h im in
  let alpha := PIL.filled MRGBA (Z.to_nat w) (Z.to_nat h) opaque in
  let alpha := PIL.paste_plain alpha
                 (PIL.crop_image (corner_circle radius) (0, 0, radius, radius)) (0, 0) in
  let alpha := PIL.paste_plain alpha
                 (PIL.crop_image (corner_circle radius) (0, radius, radius, radius * 2))
                 (0, h - radius) in
  let alpha := PIL.paste_plain alpha
                 (PIL.crop_image (corner_circle radius) (radius, 0, radius * 2, radius))
                 (w - radius, 0) in
  PIL.paste_plain alpha
    (PIL.crop_image (corner_circle radius) (radius, radius, radius * 2, radius * 2))
    (w - radius, h - radius).

(** The paste mask: [alpha.convert("RGBA")]. *)
Definition corner_mask (im : Image) (radius : Z) : Image :=
  PIL.convert_image (corner_alpha im radius) MRGBA.

(** The alpha band of an image, the weights it gives as a paste mask. *)
Definition alpha_band (mk : Image) (x y : Z) : byte :=
  let '(_, _, _, a) := PIL.to_RGBA (mode mk) (px mk x y) in a.

(** [background] once the image is pasted through the mask. *)
Definition rounded (im : Image) (radius : Z) : Image :=
  PIL.paste_blend
    (PIL.filled MRGBA (Z.to_nat (im_w im)) (Z.to_nat (im_h im)) clear)
    im (0, 0) (alpha_band (corner_alpha im radius)).

(** ** The canvas of the drop shadow, as the specification words it

    An intermediate canvas of width w + |ox| + 2*b and height
    h + |oy| + 2*b filled with the background colour; a flat silhouette
    in the shadow colour pasted at (b + max(ox, 0), b + max(oy, 0))
    with the alpha of the image as the paste mask; the whole canvas
    blurred n times, one blur after the other; the image pasted at
    (b - min(ox, 0), b - min(oy, 0)), again masked by its own alpha. *)
Definition shadow_canvas (im : Image) (n : nat) (b ox oy : Z)
    (backgroundColour shadowColour : Pixel MRGBA) : Image :=
  let w := im_w im in
  let h := im_h im in
  let canvas :=
    PIL.filled MRGBA (Z.to_nat (w + Z.abs ox + 2 * b)) (Z.to_nat (h + Z.abs oy + 2 * b))
      backgroundColour in
  let silhouette := PIL.filled MRGBA (width im) (height im) shadowColour in
  let canvas :=
    PIL.paste_blend canvas silhouette (b + Z.max ox 0, b + Z.max oy 0) (alpha_band im) in
  let canvas := Nat.iter n PIL.blur_image canvas in
  PIL.paste_blend canvas im (b - Z.min ox 0, b - Z.min oy 0) (alpha_band im).

(** ** The average of [convertBlackAndWhite], as a value

    [image.convert('L')] shrunk by [thumbnail((1, 1))] and read at
    (0, 0): the grey pixel itself when the image already is 1 x 1, the
    one pixel of the bicubic resampling otherwise. *)
Definition average_luminance (im : Image) : byte :=
  let grey := PIL.convert_image im ML in
  if (im_w im =? 1) && (im_h im =? 1) then px grey 0 0
  else resample BICUBIC grey 1 1 0 0.

(** The two thresholds, as the table [point] reads them. *)
Definition darker_than (avg : Z) (pixel : Z) : Z := if pixel <? avg then 0 else 255.
Definition lighter_than (avg : Z) (pixel : Z) : Z := if avg <? pixel then 0 else 255.

(** The thresholded image of the filter modes. *)
Definition thresholded (im : Image) (g : Z -> Z) : Image :=
  PIL.convert_image
    (mkImage M1 (width im) (height im)
       (fun x y => PIL.apply_lut (map g (range 256)) (PIL.to_L (mode im) (px im x y))))
    MRGBA.


(** ** The recolouring of the background and foreground modes, as values *)

Definition black_px : Pixel MRGBA := (x00, x00, x00, xff).

(** One band of [cmpTup]: within 10 of the other. *)
Definition near (a b : byte) : bool :=
  negb ((b2z b + 10 <? b2z a) || (b2z a <? b2z b - 10)).

(** [cmpTup] on two "RGBA" pixels. *)
Definition close (p q : Pixel MRGBA) : bool :=
  let '(r1, g1, b1, a1) := p in
  let '(r2, g2, b2, a2) := q in
  near r1 r2 && near g1 g2 && near b1 b2 && near a1 a2.

(** What a pixel [p] becomes for the filter colour [q]: in background
    mode white when it is close to [q] and black otherwise, in
    foreground mode black when it is close to [q] and white otherwise. *)
Definition recoloured (background : bool) (q p : Pixel MRGBA) : Pixel MRGBA :=
  if background then (if close p q then opaque else black_px)
  else (if negb (close p q) then opaque else black_px).

(** The pixel grid after the loop body has run at [c]. *)
Definition paint_one (background : bool) (q : Pixel MRGBA) (f : Z -> Z -> Pixel MRGBA)
    (c : Z * Z) : Z -> Z -> Pixel MRGBA :=
  fun x y => if (x =? fst c) && (y =? snd c)
             then recoloured background q (f (fst c) (snd c))
             else f x y.

(** The pixel grid after the inner loop has run over column [i], rows [js]. *)
Definition paint_column (background : bool) (q : Pixel MRGBA) (f : Z -> Z -> Pixel MRGBA)
    (i : Z) (js : list Z) : Z -> Z -> Pixel MRGBA :=
  fold_left (fun f j => paint_one background q f (i, j)) js f.

(** The pixel grid after the outer loop has run over the columns [cols], each over the rows [rows]. *)
Definition paint_columns (background : bool) (q : Pixel MRGBA) (f : Z -> Z -> Pixel MRGBA)
    (cols rows : list Z) : Z -> Z -> Pixel MRGBA :=
  fold_left (fun f i => paint_column background q f i rows) cols f.

(** What [convert("RGBA")] makes of a pixel, on the values Python sees. *)
Definition rgba_value (m : Mode) (v : PyVal) : PyVal :=
  match m, v with
  | M1, PInt n => if n =? 0 then PTuple [0; 0; 0; 255] else PTuple [255; 255; 255; 255]
  | ML, PInt n => PTuple [n; n; n; 255]
  | MRGB, PTuple [r; g; b] => PTuple [r; g; b; 255]
  | _, v => v
  end.

(** ** The corner a pixel lies in

    Along one axis of length [side], the coordinate of [circle] that is
    pasted over coordinate [c] of [alpha]: [c] itself in the leading
    corner, [c - side + 2 * radius] in the trailing one. *)
Definition circle_coordinate (side radius c : Z) : Z :=
  if c <? radius then c else c - side + 2 * radius.

End ImageEdit.

(** * A concrete set of kernels and some images, for the examples *)

(** Nearest-neighbour resampling, a blur that leaves the image as it is,
    the ellipse of the bounding box by its equation, the ITU-R 601-2
    luma, a threshold for the "1" conversion, no colour names. *)
#[local] Instance reference_kernels : Kernels := {|
  resample := fun _ im w h x y =>
    px im (x * im_w im / Z.of_nat w) (y * im_h im / Z.of_nat h);
  blur_kernel := px;
  ellipse_cover := fun '(x0, y0, x1, y1) x y =>
    let a := x1 - x0 in
    let b := y1 - y0 in
    let dx := 2 * x + 1 - (x0 + x1) in
    let dy := 2 * y + 1 - (y0 + y1) in
    dx * dx * (b * b) + dy * dy * (a * a) <=? a * a * (b * b);
  luma := fun r g b => z2b ((b2z r * 299 + b2z g * 587 + b2z b * 114) / 1000);
  dither := fun im x y =>
    match mode im as m return Pixel m -> byte with
    | M1 | ML => fun v => if b2z v <? 128 then x00 else xff
    | MRGB => fun '(r, _, _) => if b2z r <? 128 then x00 else xff
    | MRGBA => fun '(r, _, _, _) => if b2z r <? 128 then x00 else xff
    end (px im x y);
  other_colour := fun _ => None;
  table_order := fun l => l;
  table_order_perm := fun l => Permutation_refl l
|}.

(** A w x h "RGBA" image of one colour. *)
Definition plain (w h : nat) (c : byte * byte * byte * byte) : Image :=
  mkImage MRGBA w h (fun _ _ => c).

(** A 257 x 1 "RGBA" image whose pixels all differ. *)
Definition rainbow : Image :=
  mkImage MRGBA 257 1 (fun x _ => (z2b x, z2b (x / 256), x00, xff)).

Definition red : Pixel MRGBA := (xff, x00, x00, xff).

(** A 2 x 2 "RGBA" image, white but for the black pixel at (1, 1). *)
Definition three_white_one_black : Image :=
  mkImage MRGBA 2 2
    (fun x y => if (x =? 1) && (y =? 1) then (x00, x00, x00, xff) else (xff, xff, xff, xff)).

(** * Running the calls

    A computation is followed on a store [hp ++ l]: [hp] is the store
    the caller hands over, [l] the objects allocated since, so that a
    reference is either one of the caller's or [length hp + k]. *)

Lemma run_bind {A B} (m : M A) (f : A -> M B) (h h' : Heap) (a : A) (r : exn + B * Heap) :
  m h = inr (a, h') -> f a h' = r -> (m ≫= f) h = r.
Proof. intros Hm Hf. unfold mbind, M_bind. now rewrite Hm. Qed.

Lemma run_bind_raise {A B} (m : M A) (f : A -> M B) (h : Heap) (e : exn) :
  m h = inl e -> (m ≫= f) h = inl e.
Proof. intros Hm. unfold mbind, M_bind. now rewrite Hm. Qed.

Lemma run_lift {A} (e : exn) (o : option A) (a : A) (h : Heap) :
  o = Some a -> lift e o h = inr (a, h).
Proof. now intros ->. Qed.

Lemma lookup_tail (hp l : Heap) (k : nat) (im : Image) :
  l !! k = Some im -> (hp ++ l) !! (length hp + k)%nat = Some im.
Proof.
  intros H. rewrite lookup_app_r by lia.
  now replace (length hp + k - length hp)%nat with k by lia.
Qed.

Lemma run_deref (h : Heap) (r : ref) (im : Image) :
  h !! r = Some im -> deref r h = inr (im, h).
Proof. intros H. unfold deref. now rewrite H. Qed.

Lemma run_alloc (hp l : Heap) (im : Image) :
  alloc im (hp ++ l) = inr ((length hp + length l)%nat, hp ++ (l ++ [im])).
Proof. unfold alloc. now rewrite length_app, app_assoc. Qed.

Lemma run_assign (hp l : Heap) (k : nat) (im : Image) :
  assign (length hp + k)%nat im (hp ++ l) = inr (tt, hp ++ <[k := im]> l).
Proof. unfold assign. now rewrite insert_app_r. Qed.

(** Closes [(hp ++ l) !! r = Some im] for a caller's reference or an
    explicit position in [l]. *)
Ltac points :=
  first [ apply lookup_tail; reflexivity
        | apply lookup_app_l_Some; eassumption ].

(** Brings the store back to the form [hp ++ [...]]. *)
Ltac tidy := cbn [app length insert list_insert fst snd].

Section Calls.
Context `{K : Kernels}.

Lemma run_size (h : Heap) (r : ref) (im : Image) :
  h !! r = Some im -> PIL.size r h = inr ((im_w im, im_h im), h).
Proof. intros H. unfold PIL.size. eapply run_bind; [apply run_deref; eassumption|reflexivity]. Qed.

Lemma run_get_width (h : Heap) (r : ref) (im : Image) :
  h !! r = Some im -> PIL.get_width r h = inr (im_w im, h).
Proof. intros H. unfold PIL.get_width. eapply run_bind; [apply run_deref; eassumption|reflexivity]. Qed.

Lemma run_get_height (h : Heap) (r : ref) (im : Image) :
  h !! r = Some im -> PIL.get_height r h = inr (im_h im, h).
Proof. intros H. unfold PIL.get_height. eapply run_bind; [apply run_deref; eassumption|reflexivity]. Qed.

Lemma run_new (hp l : Heap) (m : Mode) (w h : Z) (c : string) (ink : Pixel m) :
  0 <= w -> 0 <= h -> PIL.getcolor c m ≫= pixel_of_value m = Some ink ->
  PIL.new m (w, h) c (hp ++ l)
  = inr ((length hp + length l)%nat,
         hp ++ (l ++ [PIL.filled m (Z.to_nat w) (Z.to_nat h) ink])).
Proof.
  intros Hw Hh Hc. unfold PIL.new. cbn [fst snd].
  destruct (Z.ltb_spec w 0); [lia|]. destruct (Z.ltb_spec h 0); [lia|].
  cbn [orb]. eapply run_bind; [apply run_lift, Hc|apply run_alloc].
Qed.

Lemma run_convert (hp l : Heap) (r : ref) (im : Image) (m : Mode) :
  (hp ++ l) !! r = Some im ->
  PIL.convert r m (hp ++ l)
  = inr ((length hp + length l)%nat, hp ++ (l ++ [PIL.convert_image im m])).
Proof.
  intros H. unfold PIL.convert.
  eapply run_bind; [apply run_deref; eassumption|apply run_alloc].
Qed.

Lemma run_crop (hp l : Heap) (r : ref) (im : Image) (box : Z * Z * Z * Z) :
  (hp ++ l) !! r = Some im ->
  PIL.crop r box (hp ++ l)
  = inr ((length hp + length l)%nat, hp ++ (l ++ [PIL.crop_image im box])).
Proof.
  intros H. unfold PIL.crop.
  eapply run_bind; [apply run_deref; eassumption|apply run_alloc].
Qed.

Lemma run_filter_BLUR (hp l : Heap) (r : ref) (im : Image) :
  (hp ++ l) !! r = Some im ->
  PIL.filter_BLUR r (hp ++ l)
  = inr ((length hp + length l)%nat, hp ++ (l ++ [PIL.blur_image im])).
Proof.
  intros H. unfold PIL.filter_BLUR.
  eapply run_bind; [apply run_deref; eassumption|apply run_alloc].
Qed.

Lemma run_resize (hp l : Heap) (r : ref) (im im' : Image) (size : Z * Z) (flt : Filter) :
  (hp ++ l) !! r = Some im -> PIL.resize_value im size flt = Some im' ->
  PIL.resize r size flt (hp ++ l)
  = inr ((length hp + length l)%nat, hp ++ (l ++ [im'])).
Proof.
  intros H Hv. unfold PIL.resize.
  eapply run_bind; [apply run_deref; eassumption|].
  eapply run_bind; [apply run_lift, Hv|apply run_alloc].
Qed.

Lemma run_paste (hp l : Heap) (k : nat) (src : ref) (d s d' : Image) (pos : Z * Z) :
  l !! k = Some d -> (hp ++ l) !! src = Some s ->
  PIL.paste_image d s pos None = Some d' ->
  PIL.paste (length hp + k)%nat src pos None (hp ++ l) = inr (tt, hp ++ <[k := d']> l).
Proof.
  intros Hd Hs Hp. unfold PIL.paste.
  eapply run_bind; [apply run_deref, lookup_tail, Hd|].
  eapply run_bind; [apply run_deref, Hs|].
  eapply run_bind; [reflexivity|].
  eapply run_bind; [apply run_lift, Hp|apply run_assign].
Qed.

Lemma run_paste_mask (hp l : Heap) (k : nat) (src mask : ref) (d s mk d' : Image)
    (pos : Z * Z) :
  l !! k = Some d -> (hp ++ l) !! src = Some s -> (hp ++ l) !! mask = Some mk ->
  PIL.paste_image d s pos (Some mk) = Some d' ->
  PIL.paste (length hp + k)%nat src pos (Some mask) (hp ++ l)
  = inr (tt, hp ++ <[k := d']> l).
Proof.
  intros Hd Hs Hm Hp. unfold PIL.paste.
  eapply run_bind; [apply run_deref, lookup_tail, Hd|].
  eapply run_bind; [apply run_deref, Hs|].
  eapply run_bind; [eapply run_bind; [apply run_deref, Hm|reflexivity]|].
  eapply run_bind; [apply run_lift, Hp|apply run_assign].
Qed.

Lemma run_ellipse (hp l : Heap) (k : nat) (im : Image) (xy : Z * Z * Z * Z) (fill : string)
    (ink : Pixel (mode im)) :
  l !! k = Some im ->
  PIL.getcolor fill (mode im) ≫= pixel_of_value (mode im) = Some ink ->
  PIL.ellipse (length hp + k)%nat xy fill (hp ++ l)
  = inr (tt, hp ++ <[k := PIL.ellipse_image im xy ink]> l).
Proof.
  intros Hd Hc. unfold PIL.ellipse.
  eapply run_bind; [apply run_deref, lookup_tail, Hd|].
  eapply run_bind; [apply run_lift, Hc|apply run_assign].
Qed.

(** ** Bytes *)

Lemma b2z_range (b : byte) : 0 <= b2z b <= 255.
Proof. unfold b2z. pose proof (Byte.to_N_bounded b). lia. Qed.

Lemma z2b_b2z (b : byte) : z2b (b2z b) = b.
Proof.
  unfold z2b. pose proof (b2z_range b).
  rewrite Z.mod_small by lia. unfold b2z. rewrite N2Z.id.
  now rewrite Byte.of_to_N.
Qed.

Lemma muldiv255_full (b : byte) : muldiv255 (b2z b) 255 = b2z b.
Proof. destruct b; reflexivity. Qed.

Lemma muldiv255_none (a : Z) : muldiv255 a 0 = 0.
Proof. unfold muldiv255. now rewrite Z.mul_0_r. Qed.

(** A weight of 255 takes the source band as it is. *)
Lemma blend8_opaque (a b : byte) : blend8 xff a b = b.
Proof.
  unfold blend8. change (b2z xff) with 255. change (255 - 255) with 0.
  rewrite muldiv255_none, muldiv255_full. apply z2b_b2z.
Qed.

Lemma px_map2_blend_opaque (m : Mode) (a b : Pixel m) : px_map2 m (blend8 xff) a b = b.
Proof.
  destruct m; cbn in *;
    repeat match goal with p : (_ * _)%type |- _ => destruct p end;
    cbn; now rewrite ?blend8_opaque.
Qed.

(** ** Padding removal *)

Lemma run_removeImagePadding (hp l : Heap) (image : ref) (im : Image) (padding : Z) :
  (hp ++ l) !! image = Some im ->
  removeImagePadding image padding (hp ++ l)
  = inr ((length hp + length l)%nat,
         hp ++ (l ++ [PIL.crop_image im
                        (padding, padding, im_w im - padding, im_h im - padding)])).
Proof.
  intros H. unfold removeImagePadding.
  eapply run_bind; [apply run_get_width, H|].
  eapply run_bind; [apply run_get_height, H|].
  now apply run_crop.
Qed.

(** ** Resizing *)

Lemma run_resizeImageAbs (hp l : Heap) (image : ref) (im im' : Image) (w h : Z) :
  (hp ++ l) !! image = Some im -> PIL.resize_value im (w, h) ANTIALIAS = Some im' ->
  resizeImageAbs image w h (hp ++ l)
  = inr ((length hp + length l)%nat, hp ++ (l ++ [im'])).
Proof. intros H Hv. unfold resizeImageAbs. eapply run_resize; eassumption. Qed.

Lemma py_int_double (n : Z) : py_int (inject_Z n * 2) = 2 * n.
Proof.
  unfold py_int, Qmult, inject_Z. cbn [Qnum Qden].
  change (Z.pos (1 * 1)) with 1. rewrite Z.quot_1_r. lia.
Qed.

Lemma py_int_half (n : Z) : py_int (inject_Z (2 * n) * (1 # 2)) = n.
Proof.
  unfold py_int, Qmult, inject_Z. cbn [Qnum Qden].
  change (Z.pos (1 * 2)) with 2.
  replace (2 * n * 1) with (n * 2) by lia.
  apply Z.quot_mul. lia.
Qed.

Lemma resize_value_size (im im' : Image) (size : Z * Z) (flt : Filter) :
  PIL.resize_value im size flt = Some im' ->
  im_w im' = fst size /\ im_h im' = snd size /\ mode im' = mode im.
Proof.
  unfold PIL.resize_value. intros H.
  destruct ((im_w im =? fst size) && (im_h im =? snd size)) eqn:E.
  - injection H as <-. apply andb_true_iff in E as [Hw Hh].
    apply Z.eqb_eq in Hw, Hh. auto.
  - destruct (Z.ltb_spec (fst size) 1), (Z.ltb_spec (snd size) 1); cbn in H;
      try discriminate.
    injection H as <-. unfold im_w, im_h. cbn. repeat split; lia.
Qed.

Lemma resize_value_defined (im : Image) (size : Z * Z) (flt : Filter) :
  1 <= fst size -> 1 <= snd size -> exists im', PIL.resize_value im size flt = Some im'.
Proof.
  intros Hw Hh. unfold PIL.resize_value.
  destruct (_ && _); [eauto|].
  destruct (Z.ltb_spec (fst size) 1), (Z.ltb_spec (snd size) 1); try lia.
  cbn. eauto.
Qed.

(** C10: for an image of width w and height h and a padding p with
    0 <= 2*p <= min(w, h), [removeImagePadding] returns a new object of
    size (w - 2*p, h - 2*p) whose pixel (x, y) is pixel (x + p, y + p)
    of the input, a centre crop; the input object is left as it was. *)
Theorem removeImagePadding_centre_crop (h : Heap) (image : ref) (im : Image) (padding : Z) :
  h !! image = Some im ->
  0 <= 2 * padding <= Z.min (im_w im) (im_h im) ->
  exists (out : ref) (cropped : Image) (h' : Heap),
    removeImagePadding image padding h = inr (out, h') /\
    out <> image /\
    h' !! image = Some im /\
    h' !! out = Some cropped /\
    im_w cropped = im_w im - 2 * padding /\
    im_h cropped = im_h im - 2 * padding /\
    forall x y, 0 <= x < im_w cropped -> 0 <= y < im_h cropped ->
      pixel_value (mode cropped) (px cropped x y)
      = pixel_value (mode im) (px im (x + padding) (y + padding)).
Proof.
  intros Him Hp.
  pose proof (lookup_lt_Some _ _ _ Him) as Hlt.
  eexists _, _, _. split.
  { rewrite <- (app_nil_r h) at 1. apply run_removeImagePadding.
    rewrite app_nil_r. exact Him. }
  cbn [length app]. rewrite Nat.add_0_r.
  split; [lia|]. split; [now apply lookup_app_l_Some|].
  split; [apply list_lookup_middle; reflexivity|].
  unfold im_w, im_h in *. cbn [PIL.crop_image width height mode px].
  split; [lia|]. split; [lia|].
  intros x y Hx Hy. unfold pixel_at, in_bounds, im_w, im_h.
  destruct (Z.leb_spec 0 (x + padding)); [|lia].
  destruct (Z.ltb_spec (x + padding) (Z.of_nat (width im))); [|lia].
  destruct (Z.leb_spec 0 (y + padding)); [|lia].
  destruct (Z.ltb_spec (y + padding) (Z.of_nat (height im))); [|lia].
  reflexivity.
Qed.

(** C6: [addDropShadowSimple(image, offset)] for an offset (ox, oy) is
    [addDropShadowComplex] with 11 iterations, border max(|ox|, |oy|),
    the same offset, the background "#ffffff00", which is white with
    alpha 0, and the shadow "#00000055", which is black with alpha 85. *)
Theorem addDropShadowSimple_is_complex (h : Heap) (image : ref) (ox oy : Z) :
  addDropShadowSimple image [ox; oy] h
  = addDropShadowComplex image 11 (Z.max (Z.abs ox) (Z.abs oy)) [ox; oy]
      "#ffffff00" "#00000055" h
  /\ PIL.getcolor "#ffffff00" MRGBA = Some (PTuple [255; 255; 255; 0])
  /\ PIL.getcolor "#00000055" MRGBA = Some (PTuple [0; 0; 0; 85]).
Proof. repeat split. Qed.

(** C8, as amended: for an image that does not have exactly one side of
    0 pixels, [resizeImage] by 2 followed by [resizeImage] by 0.5
    returns an image whose width and height both are the original ones,
    hence within 1 pixel of them. *)
Theorem resizeImage_double_then_half (h : Heap) (image : ref) (im : Image) :
  h !! image = Some im ->
  (im_w im = 0 <-> im_h im = 0) ->
  exists (big small : ref) (h1 h2 : Heap) (im2 : Image),
    resizeImage image 2 h = inr (big, h1) /\
    resizeImage big (1 # 2) h1 = inr (small, h2) /\
    h2 !! small = Some im2 /\
    im_w im2 = im_w im /\ im_h im2 = im_h im /\
    Z.abs (im_w im2 - im_w im) <= 1 /\ Z.abs (im_h im2 - im_h im) <= 1.
Proof.
  intros Him Hz.
  assert (Hnn : 0 <= im_w im /\ 0 <= im_h im) by (unfold im_w, im_h; lia).
  assert (exists im1, PIL.resize_value im (2 * im_w im, 2 * im_h im) ANTIALIAS = Some im1)
    as [im1 H1].
  { destruct (Z.eq_dec (im_w im) 0) as [E|E].
    - exists im. pose proof (proj1 Hz E) as E'.
      unfold PIL.resize_value. cbn [fst snd]. rewrite E, E'. reflexivity.
    - apply resize_value_defined; cbn [fst snd]; lia. }
  destruct (resize_value_size _ _ _ _ H1) as (Hw1 & Hh1 & _). cbn [fst snd] in Hw1, Hh1.
  assert (exists im2, PIL.resize_value im1 (im_w im, im_h im) ANTIALIAS = Some im2)
    as [im2 H2].
  { destruct (Z.eq_dec (im_w im) 0) as [E|E].
    - exists im1. pose proof (proj1 Hz E) as E'.
      unfold PIL.resize_value. cbn [fst snd]. rewrite Hw1, Hh1, E, E'. reflexivity.
    - apply resize_value_defined; cbn [fst snd]; lia. }
  destruct (resize_value_size _ _ _ _ H2) as (Hw2 & Hh2 & _). cbn [fst snd] in Hw2, Hh2.
  exists (length h + 0)%nat, (length h + 1)%nat, (h ++ [im1]), (h ++ [im1; im2]), im2.
  split.
  { rewrite <- (app_nil_r h) at 1. unfold resizeImage.
    eapply run_bind; [apply run_get_width; rewrite app_nil_r; exact Him|].
    eapply run_bind; [apply run_get_height; rewrite app_nil_r; exact Him|].
    rewrite !py_int_double.
    apply (run_resizeImageAbs h [] image im); [rewrite app_nil_r; exact Him|exact H1]. }
  split.
  { unfold resizeImage.
    eapply run_bind; [apply run_get_width; points|].
    eapply run_bind; [apply run_get_height; points|].
    rewrite Hw1, Hh1, !py_int_half.
    apply (run_resizeImageAbs h [im1] _ im1); [points|exact H2]. }
  split; [apply (lookup_tail h [im1; im2] 1); reflexivity|].
  rewrite Hw2, Hh2. repeat split; lia.
Qed.

(** ** Corner rounding *)

Lemma getcolor_clear :
  PIL.getcolor "#00000000" MRGBA ≫= pixel_of_value MRGBA = Some clear.
Proof. reflexivity. Qed.

Lemma getcolor_opaque :
  PIL.getcolor "#ffffffff" MRGBA ≫= pixel_of_value MRGBA = Some opaque.
Proof. reflexivity. Qed.

Lemma width_paste_plain (d s : Image) (pos : Z * Z) :
  width (PIL.paste_plain d s pos) = width d
  /\ height (PIL.paste_plain d s pos) = height d
  /\ mode (PIL.paste_plain d s pos) = mode d.
Proof. unfold PIL.paste_plain. now destruct (PIL.clipped_away d s pos). Qed.

Lemma width_paste_blend (d s : Image) (pos : Z * Z) (weight : Z -> Z -> byte) :
  width (PIL.paste_blend d s pos weight) = width d
  /\ height (PIL.paste_blend d s pos weight) = height d
  /\ mode (PIL.paste_blend d s pos weight) = mode d.
Proof. unfold PIL.paste_blend. now destruct (PIL.clipped_away d s pos). Qed.

Lemma size_corner_alpha (im : Image) (radius : Z) :
  width (corner_alpha im radius) = width im
  /\ height (corner_alpha im radius) = height im.
Proof.
  unfold corner_alpha. cbv zeta.
  repeat match goal with
         | |- context [PIL.paste_plain ?d ?s ?p] =>
             destruct (width_paste_plain d s p) as (-> & -> & _)
         end.
  cbn [PIL.filled width height]. unfold im_w, im_h. split; apply Nat2Z.id.
Qed.

(** Pasting through a mask of the right size that carries weights. *)
Lemma paste_image_mask (d s mk : Image) (pos : Z * Z) (weight : Z -> Z -> byte) :
  PIL.same_size mk s = true -> PIL.mask_value mk = Some weight ->
  PIL.paste_image d s pos (Some mk) = Some (PIL.paste_blend d s pos weight).
Proof.
  intros Hs Hm. unfold PIL.paste_image, PIL.paste_blend. rewrite Hs, Hm. cbn [negb].
  now destruct (PIL.clipped_away d s pos).
Qed.

Lemma run_roundCorners (h : Heap) (image : ref) (im : Image) (radius : Z) :
  h !! image = Some im -> 0 <= radius ->
  roundCorners image radius h
  = inr ((length h + 2)%nat,
         h ++ [corner_circle radius; corner_alpha im radius; rounded im radius]
           ++ corner_crops radius ++ [corner_mask im radius]).
Proof.
  intros Him Hr. rewrite <- (app_nil_r h) at 1. unfold roundCorners.
  assert (Hw : 0 <= im_w im) by (unfold im_w; lia).
  assert (Hh : 0 <= im_h im) by (unfold im_h; lia).
  eapply run_bind; [apply run_new; [lia|lia|apply getcolor_clear]|]; tidy.
  eapply run_bind; [reflexivity|].
  eapply run_bind; [eapply (run_ellipse h _ 0); [reflexivity|apply getcolor_opaque]|]; tidy.
  eapply run_bind; [apply run_size; points|].
  eapply run_bind; [apply run_new; [assumption|assumption|apply getcolor_opaque]|]; tidy.
  eapply run_bind; [apply run_size; points|].
  eapply run_bind; [apply run_new; [assumption|assumption|apply getcolor_clear]|]; tidy.
  eapply run_bind; [apply run_size; points|].
  eapply run_bind; [apply run_crop; points|]; tidy.
  eapply run_bind; [eapply (run_paste h _ 1); [reflexivity|points|reflexivity]|]; tidy.
  eapply run_bind; [apply run_crop; points|]; tidy.
  eapply run_bind; [eapply (run_paste h _ 1); [reflexivity|points|reflexivity]|]; tidy.
  eapply run_bind; [apply run_crop; points|]; tidy.
  eapply run_bind; [eapply (run_paste h _ 1); [reflexivity|points|reflexivity]|]; tidy.
  eapply run_bind; [apply run_crop; points|]; tidy.
  eapply run_bind; [eapply (run_paste h _ 1); [reflexivity|points|reflexivity]|]; tidy.
  eapply run_bind; [apply run_convert; points|]; tidy.
  eapply run_bind.
  { eapply (run_paste_mask h _ 2); [reflexivity|points|points|].
    apply paste_image_mask; [|reflexivity].
    assert (E : PIL.same_size (corner_mask im radius) im = true).
    { unfold PIL.same_size, im_w, im_h, corner_mask.
      cbn [PIL.convert_image width height].
      destruct (size_corner_alpha im radius) as [-> ->].
      now rewrite !Z.eqb_refl. }
    exact E. }
  tidy. reflexivity.
Qed.

Lemma paste_plain_empty (d s : Image) (pos : Z * Z) :
  width s = 0%nat \/ height s = 0%nat -> PIL.paste_plain d s pos = d.
Proof.
  intros Hs. unfold PIL.paste_plain.
  replace (PIL.clipped_away d s pos) with true; [reflexivity|].
  symmetry. unfold PIL.clipped_away, im_w, im_h. destruct pos as [x0 y0].
  apply orb_true_iff. destruct Hs as [-> | ->]; [left|right]; apply Z.leb_le; lia.
Qed.

(** With radius 0 nothing is pasted into [alpha]: it stays opaque white. *)
Lemma corner_alpha_0 (im : Image) :
  corner_alpha im 0
  = PIL.filled MRGBA (Z.to_nat (im_w im)) (Z.to_nat (im_h im)) opaque.
Proof.
  unfold corner_alpha. cbv zeta.
  rewrite !paste_plain_empty; [reflexivity| | | |]; left; reflexivity.
Qed.

(** [roundCorners] builds a new [background] object and returns it; the
    object passed in is not written. *)
Lemma roundCorners_fresh (h : Heap) (image : ref) (im : Image) (radius : Z) :
  h !! image = Some im -> 0 <= radius ->
  exists (out : ref) (h' : Heap),
    roundCorners image radius h = inr (out, h') /\
    out <> image /\ h' !! image = Some im /\
    h' !! out = Some (rounded im radius).
Proof.
  intros Him Hr. eexists _, _. split; [apply run_roundCorners; eassumption|].
  pose proof (lookup_lt_Some _ _ _ Him).
  split; [lia|]. split; [now apply lookup_app_l_Some|].
  apply lookup_tail. reflexivity.
Qed.

(** C1 at a 2 x 2 red image with radius 1: the call returns reference 3,
    not the reference 0 it was given, and object 0 still is the red
    image afterwards, whereas the claim (and the docstring, "it modifies
    the image param") has the argument modified and returned. *)
Theorem roundCorners_leaves_argument :
  let image := plain 2 2 red in
  exists (h' : Heap),
    roundCorners 0%nat 1 [image] = inr (3%nat, h') /\
    h' !! 0%nat = Some image /\
    h' !! 3%nat = Some (rounded image 1).
Proof.
  intros image. eexists.
  split; [apply (run_roundCorners [image] 0%nat image 1); [reflexivity|lia]|].
  split; reflexivity.
Qed.

(** C7: [roundCorners(image, 0)] pastes the image onto a transparent
    background of its size through a mask of which every pixel is
    (255, 255, 255, 255); the result has the size of the image, and
    each of its pixels is the pixel of the image (as "RGBA"). *)
Theorem roundCorners_radius_0 (h : Heap) (image : ref) (im : Image) :
  h !! image = Some im ->
  exists (out : ref) (h' : Heap) (result mask : Image),
    roundCorners image 0 h = inr (out, h') /\
    h' !! out = Some result /\
    PIL.paste_image (PIL.filled MRGBA (width im) (height im) clear) im (0, 0) (Some mask)
    = Some result /\
    width mask = width im /\ height mask = height im /\
    (forall x y, pixel_value (mode mask) (px mask x y) = PTuple [255; 255; 255; 255]) /\
    mode result = MRGBA /\ width result = width im /\ height result = height im /\
    (forall x y, 0 <= x < im_w im -> 0 <= y < im_h im ->
       pixel_value (mode result) (px result x y)
       = pixel_value MRGBA (PIL.to_RGBA (mode im) (px im x y))).
Proof.
  intros Him.
  destruct (roundCorners_fresh h image im 0 Him ltac:(lia)) as (out & h' & Hrun & _ & _ & Hout).
  exists out, h', (rounded im 0), (corner_mask im 0).
  split; [exact Hrun|]. split; [exact Hout|].
  assert (Hmask : forall x y, px (corner_mask im 0) x y = opaque).
  { intros x y. unfold corner_mask. rewrite corner_alpha_0. reflexivity. }
  split.
  { unfold rounded. unfold im_w, im_h. rewrite !Nat2Z.id.
    apply paste_image_mask; [|reflexivity].
    unfold PIL.same_size, corner_mask, im_w, im_h. cbn [PIL.convert_image width height].
    destruct (size_corner_alpha im 0) as [-> ->]. now rewrite !Z.eqb_refl. }
  unfold corner_mask at 1 2. cbn [PIL.convert_image width height].
  destruct (size_corner_alpha im 0) as [-> ->].
  split; [reflexivity|]. split; [reflexivity|].
  split; [intros x y; cbn [mode corner_mask PIL.convert_image]; now rewrite Hmask|].
  unfold rounded.
  destruct (width_paste_blend
              (PIL.filled MRGBA (Z.to_nat (im_w im)) (Z.to_nat (im_h im)) clear) im (0, 0)
              (alpha_band (corner_alpha im 0))) as (Ew & Eh & Em).
  split; [exact Em|].
  split; [rewrite Ew; cbn; unfold im_w; apply Nat2Z.id|].
  split; [rewrite Eh; cbn; unfold im_h; apply Nat2Z.id|].
  intros x y Hx Hy. clear Ew Eh Em.
  unfold PIL.paste_blend.
  destruct (PIL.clipped_away _ im (0, 0)) eqn:Hclip.
  { exfalso. unfold PIL.clipped_away, im_w, im_h in Hclip. cbn [PIL.filled width height] in Hclip.
    unfold im_w, im_h in *. rewrite !Nat2Z.id in Hclip.
    apply orb_true_iff in Hclip. rewrite !Z.leb_le in Hclip. lia. }
  cbn [mode px PIL.filled fst snd].
  replace (PIL.in_box (0, 0) im x y) with true
    by (symmetry; unfold PIL.in_box; rewrite !andb_true_iff, !Z.leb_le, !Z.ltb_lt; lia).
  rewrite !Z.sub_0_r.
  replace (alpha_band (corner_alpha im 0) x y) with xff
    by (rewrite corner_alpha_0; reflexivity).
  now rewrite (px_map2_blend_opaque MRGBA).
Qed.

(** ** Drop shadows *)

Lemma mode_blurred (n : nat) (im : Image) : mode (Nat.iter n PIL.blur_image im) = mode im.
Proof. induction n as [|n IH]; [reflexivity|]. cbn. exact IH. Qed.

Lemma size_blurred (n : nat) (im : Image) :
  width (Nat.iter n PIL.blur_image im) = width im
  /\ height (Nat.iter n PIL.blur_image im) = height im.
Proof. induction n as [|n IH]; [now split|]. cbn. exact IH. Qed.

(** The loop [for _ in range(iterations): background = background.filter(BLUR)]:
    each round allocates the blurred copy of the canvas of the round before. *)
Lemma run_blur_loop {A} (xs : list A) (hp : Heap) :
  forall (l : Heap) (k : nat) (c : Image),
    l !! k = Some c ->
    exists (k' : nat) (l' : Heap),
      for_fold xs (length hp + k)%nat (fun _ background => PIL.filter_BLUR background)
        (hp ++ l)
      = inr ((length hp + k')%nat, hp ++ (l ++ l'))
      /\ (l ++ l') !! k' = Some (Nat.iter (length xs) PIL.blur_image c).
Proof.
  induction xs as [|x xs IH]; intros l k c Hk.
  - exists k, []. rewrite app_nil_r. split; [reflexivity|exact Hk].
  - destruct (IH (l ++ [PIL.blur_image c]) (length l) (PIL.blur_image c))
      as (k' & l' & Hrun & Hk').
    { apply list_lookup_middle. reflexivity. }
    exists k', (PIL.blur_image c :: l'). split.
    + cbn [for_fold]. eapply run_bind.
      * apply run_filter_BLUR. apply lookup_tail. exact Hk.
      * rewrite Hrun. now rewrite <- app_assoc.
    + rewrite <- app_assoc in Hk'. cbn [app] in Hk'. rewrite Hk'.
      cbn [length]. now rewrite Nat.iter_succ_r.
Qed.

(** Pillow brings the source of a paste to the mode of the destination:
    on an "RGBA" canvas the image and its "RGBA" conversion paste alike. *)
Lemma paste_blend_convert (d s : Image) (pos : Z * Z) (weight : Z -> Z -> byte) :
  mode d = MRGBA ->
  PIL.paste_blend d (PIL.convert_image s MRGBA) pos weight = PIL.paste_blend d s pos weight.
Proof. destruct d as [m w h p]. cbn. intros ->. reflexivity. Qed.

Lemma same_size_convert (im : Image) (m1 m2 : Mode) :
  PIL.same_size (PIL.convert_image im m1) (PIL.convert_image im m2) = true.
Proof. unfold PIL.same_size, im_w, im_h. cbn. now rewrite !Z.eqb_refl. Qed.

Lemma range_length (n : Z) : length (range n) = Z.to_nat n.
Proof. unfold range. now rewrite length_map, length_seq. Qed.

(** [addDropShadowComplex] up to its last line: the canvas it has built
    when it calls [resizeImageAbs] is [shadow_canvas]. *)
Lemma run_addDropShadowComplex (h : Heap) (image : ref) (im : Image)
    (iterations border ox oy : Z) (backgroundColour shadowColour : string)
    (bg sh : Pixel MRGBA) :
  h !! image = Some im ->
  0 <= im_w im + Z.abs ox + 2 * border ->
  0 <= im_h im + Z.abs oy + 2 * border ->
  PIL.getcolor backgroundColour MRGBA ≫= pixel_of_value MRGBA = Some bg ->
  PIL.getcolor shadowColour MRGBA ≫= pixel_of_value MRGBA = Some sh ->
  exists (canvas : ref) (l : Heap),
    (h ++ l) !! canvas
    = Some (shadow_canvas im (Z.to_nat iterations) border ox oy bg sh)
    /\ addDropShadowComplex image iterations border [ox; oy] backgroundColour shadowColour h
       = resizeImageAbs canvas (im_w im) (im_h im) (h ++ l).
Proof.
  intros Him Hfw Hfh Hbg Hsh.
  assert (Hw : 0 <= im_w im) by (unfold im_w; lia).
  assert (Hh : 0 <= im_h im) by (unfold im_h; lia).
  set (canvas0 := PIL.filled MRGBA (Z.to_nat (im_w im + Z.abs ox + 2 * border))
                    (Z.to_nat (im_h im + Z.abs oy + 2 * border)) bg).
  set (silhouette := PIL.filled MRGBA (Z.to_nat (im_w im)) (Z.to_nat (im_h im)) sh).
  set (rgba := PIL.convert_image im MRGBA).
  set (canvas1 := PIL.paste_blend canvas0 silhouette
                    (border + Z.max ox 0, border + Z.max oy 0) (alpha_band im)).
  destruct (run_blur_loop (range iterations) h [canvas1; silhouette; silhouette; rgba] 0 canvas1
              eq_refl) as (k & l' & Hloop & Hk).
  rewrite range_length in Hk.
  set (canvas2 := Nat.iter (Z.to_nat iterations) PIL.blur_image canvas1) in *.
  set (L := [canvas1; silhouette; silhouette; rgba] ++ l') in *.
  set (canvas3 := PIL.paste_blend canvas2 im
                    (border - Z.min ox 0, border - Z.min oy 0) (alpha_band im)).
  exists (length h + k)%nat, (<[k := canvas3]> ((L ++ [rgba]) ++ [rgba])).
  assert (Hklt : (k < length L)%nat) by (eapply lookup_lt_Some; exact Hk).
  split.
  { apply lookup_tail. rewrite list_lookup_insert_eq; [|rewrite !length_app; lia].
    unfold canvas3, canvas2, canvas1, canvas0, silhouette, shadow_canvas.
    unfold im_w, im_h. now rewrite !Nat2Z.id. }
  rewrite <- (app_nil_r h) at 1. unfold addDropShadowComplex.
  eapply run_bind; [apply run_size; points|].
  eapply run_bind; [apply run_size; points|].
  eapply run_bind; [reflexivity|].
  eapply run_bind; [apply run_size; points|].
  eapply run_bind; [reflexivity|]. cbn [fst snd].
  eapply run_bind; [apply run_new; [assumption|assumption|exact Hbg]|]; tidy.
  eapply run_bind; [apply run_new; [assumption|assumption|exact Hsh]|]; tidy.
  eapply run_bind; [reflexivity|].
  eapply run_bind; [reflexivity|].
  eapply run_bind; [apply run_convert; points|]; tidy.
  eapply run_bind; [apply run_convert; points|]; tidy.
  eapply run_bind.
  { eapply (run_paste_mask h _ 0); [reflexivity|points|points|].
    apply paste_image_mask; [|reflexivity].
    unfold PIL.same_size, im_w, im_h. cbn [PIL.convert_image PIL.filled width height].
    now rewrite !Nat2Z.id, !Z.eqb_refl. }
  tidy.
  eapply run_bind; [exact Hloop|]. fold L.
  eapply run_bind; [reflexivity|].
  eapply run_bind; [reflexivity|].
  eapply run_bind; [apply run_convert; apply lookup_app_l_Some; exact Him|].
  eapply run_bind; [apply run_convert; apply lookup_app_l_Some; exact Him|].
  eapply run_bind.
  { eapply (run_paste_mask h ((L ++ [rgba]) ++ [rgba]) k).
    - apply lookup_app_l_Some, lookup_app_l_Some. exact Hk.
    - apply lookup_tail. apply lookup_app_l_Some, list_lookup_middle. reflexivity.
    - apply lookup_tail, list_lookup_middle. reflexivity.
    - rewrite (paste_image_mask _ _ _ _ (alpha_band im));
        [|apply same_size_convert|reflexivity].
      unfold rgba. rewrite paste_blend_convert; [reflexivity|].
      unfold canvas2. rewrite mode_blurred. unfold canvas1.
      now destruct (width_paste_blend canvas0 silhouette
                      (border + Z.max ox 0, border + Z.max oy 0) (alpha_band im))
        as (_ & _ & ->). }
  reflexivity.
Qed.

(** ** Black and white *)

Lemma thumbnail_size_1x1 (im : Image) :
  1 <= im_w im -> 1 <= im_h im -> PIL.thumbnail_size im (1, 1) = (1, 1).
Proof.
  intros Hw Hh. unfold PIL.thumbnail_size. cbn [fst snd].
  destruct (Z.ltb_spec 1 (im_w im)) as [H1|H1].
  - destruct (Z.ltb_spec 1 (Z.max (im_h im * 1 / im_w im) 1)) as [H2|H2].
    + rewrite Z.mul_1_r. f_equal. rewrite Z.div_small by lia. reflexivity.
    + f_equal. lia.
  - destruct (Z.ltb_spec 1 (im_h im)) as [H2|H2].
    + f_equal. rewrite Z.div_small by lia. reflexivity.
    + f_equal; lia.
Qed.

Lemma run_thumbnail_1x1 (hp l : Heap) (k : nat) (c : Image) :
  l !! k = Some c -> 1 <= im_w c -> 1 <= im_h c ->
  PIL.thumbnail (length hp + k)%nat (1, 1) (hp ++ l)
  = inr (tt, hp ++ <[k := if (im_w c =? 1) && (im_h c =? 1) then c
                          else PIL.resize_image BICUBIC c 1 1]> l).
Proof.
  intros Hk Hw Hh. unfold PIL.thumbnail.
  eapply run_bind; [apply run_deref, lookup_tail, Hk|].
  rewrite thumbnail_size_1x1 by assumption. cbn [fst snd].
  rewrite (Z.eqb_sym 1 (im_w c)), (Z.eqb_sym 1 (im_h c)).
  destruct ((im_w c =? 1) && (im_h c =? 1)) eqn:E.
  - rewrite list_insert_id by exact Hk. reflexivity.
  - eapply run_bind; [|apply run_assign].
    apply run_lift. unfold PIL.resize_value. cbn [fst snd]. now rewrite E.
Qed.

Lemma run_getpixel (h : Heap) (r : ref) (im : Image) (xy p : Z * Z) (v : PyVal) :
  h !! r = Some im -> PIL.locate im xy = Some p ->
  pixel_value (mode im) (px im (fst p) (snd p)) = v ->
  PIL.getpixel r xy h = inr (v, h).
Proof.
  intros Hr Hl <-. unfold PIL.getpixel.
  eapply run_bind; [apply run_deref, Hr|].
  eapply run_bind; [apply run_lift, Hl|reflexivity].
Qed.

Lemma map_call_total (f : Z -> exn + Z) (g : Z -> Z) (l : list Z) :
  (forall i, f i = inr (g i)) -> map_call f l = inr (map g l).
Proof.
  intros Hf. induction l as [|i l IH]; [reflexivity|].
  cbn [map_call map]. now rewrite Hf, IH.
Qed.

Lemma run_point (hp l : Heap) (r : ref) (im im' : Image) (lut : Z -> exn + Z)
    (table : list Z) (m : option Mode) :
  (hp ++ l) !! r = Some im -> map_call lut (range 256) = inr table ->
  PIL.point_image im table m = Some im' ->
  PIL.point r lut m (hp ++ l) = inr ((length hp + length l)%nat, hp ++ (l ++ [im'])).
Proof.
  intros Hr Ht Hp. unfold PIL.point.
  eapply run_bind; [apply run_deref, Hr|]. rewrite Ht.
  eapply run_bind; [apply run_lift, Hp|apply run_alloc].
Qed.

(** The table [point] builds from a threshold [g], read at a byte. *)
Lemma apply_lut_range (g : Z -> Z) (v : byte) :
  PIL.apply_lut (map g (range 256)) v = clip8 (g (b2z v)).
Proof.
  unfold PIL.apply_lut, range. pose proof (b2z_range v) as Hv.
  rewrite map_map.
  rewrite (nth_indep _ 0 (g (Z.of_nat 0))) by (rewrite length_map, length_seq; lia).
  rewrite (map_nth (fun i => g (Z.of_nat i))).
  rewrite seq_nth by lia. cbn [Nat.add]. now rewrite Z2Nat.id by lia.
Qed.

Lemma locate_origin (im : Image) :
  1 <= im_w im -> 1 <= im_h im -> PIL.locate im (0, 0) = Some (0, 0).
Proof.
  intros Hw Hh. unfold PIL.locate, in_bounds. cbn [fst snd].
  change (0 <? 0) with false. cbv iota. change (0 <=? 0) with true.
  destruct (Z.ltb_spec 0 (im_w im)); [|lia].
  destruct (Z.ltb_spec 0 (im_h im)); [|lia]. reflexivity.
Qed.

Lemma run_convertBlackAndWhite_filter (darker : bool) (h : Heap) (image : ref) (im : Image) :
  h !! image = Some im -> 1 <= im_w im -> 1 <= im_h im ->
  exists (l : Heap),
    length l = 3%nat /\
    convertBlackAndWhite image (if darker then "filter-darker" else "filter-lighter") h
    = inr ((length h + 3)%nat,
           h ++ l ++ [thresholded im
                        ((if darker then darker_than else lighter_than)
                           (b2z (average_luminance im)))]).
Proof.
  intros Him Hw Hh.
  set (grey := PIL.convert_image im ML).
  set (one := if (im_w grey =? 1) && (im_h grey =? 1) then grey
              else PIL.resize_image BICUBIC grey 1 1).
  assert (Havg : exists p, PIL.locate one (0, 0) = Some p /\
                 pixel_value (mode one) (px one (fst p) (snd p))
                 = PInt (b2z (average_luminance im))).
  { exists (0, 0). unfold one, average_luminance. fold grey.
    change (im_w grey) with (im_w im). change (im_h grey) with (im_h im).
    destruct ((im_w im =? 1) && (im_h im =? 1)) eqn:E.
    - split; [now apply locate_origin|reflexivity].
    - split; [now apply locate_origin|reflexivity]. }
  destruct Havg as (p & Hloc & Hval).
  exists [one; grey;
          mkImage M1 (width im) (height im)
            (fun x y => PIL.apply_lut
                          (map ((if darker then darker_than else lighter_than)
                                  (b2z (average_luminance im))) (range 256))
                          (PIL.to_L (mode im) (px im x y)))].
  split; [reflexivity|].
  rewrite <- (app_nil_r h) at 1. unfold convertBlackAndWhite.
  destruct darker.
  all: eapply run_bind; [reflexivity|].
  all: eapply run_bind; [apply run_convert; points|]; tidy.
  all: eapply run_bind; [apply (run_thumbnail_1x1 h [grey] 0 grey eq_refl Hw Hh)|]; tidy.
  all: fold one.
  all: eapply run_bind; [eapply run_getpixel; [points|exact Hloc|exact Hval]|].
  all: cbv zeta.
  all: eapply run_bind;
    [ eapply run_bind; [apply run_convert; points|]; tidy;
      eapply run_bind; [reflexivity|];
      eapply run_point; [points|apply map_call_total; reflexivity|reflexivity]
    | tidy ].
  all: eapply (run_convert h [_; _; _] _ _ MRGBA); points.
Qed.

Lemma cmpTup_pixels (p q : Pixel MRGBA) :
  cmpTup (pixel_value MRGBA p) (pixel_value MRGBA q) = inr (close p q).
Proof.
  destruct p as [[[r1 g1] b1] a1], q as [[[r2 g2] b2] a2].
  unfold cmpTup, close, near. cbn.
  repeat match goal with
         | |- context [if ?c then _ else _] => destruct c; cbn
         end; reflexivity.
Qed.

Lemma locate_inside (im : Image) (i j : Z) :
  0 <= i < im_w im -> 0 <= j < im_h im -> PIL.locate im (i, j) = Some (i, j).
Proof.
  intros Hi Hj. unfold PIL.locate, in_bounds. cbn [fst snd].
  destruct (Z.ltb_spec i 0); [lia|]. destruct (Z.ltb_spec j 0); [lia|].
  destruct (Z.leb_spec 0 i); [|lia]. destruct (Z.ltb_spec i (im_w im)); [|lia].
  destruct (Z.leb_spec 0 j); [|lia]. destruct (Z.ltb_spec j (im_h im)); [|lia].
  reflexivity.
Qed.

Lemma run_setitem (hp l : Heap) (k : nat) (im : Image) (xy p : Z * Z) (value : PyVal)
    (v : Pixel (mode im)) :
  l !! k = Some im -> PIL.locate im xy = Some p ->
  pixel_of_value (mode im) value = Some v ->
  PIL.setitem (length hp + k)%nat xy value (hp ++ l)
  = inr (tt, hp ++ <[k := PIL.set_pixel im p v]> l).
Proof.
  intros Hk Hl Hv. unfold PIL.setitem.
  eapply run_bind; [apply run_deref, lookup_tail, Hk|].
  eapply run_bind; [apply run_lift, Hl|].
  eapply run_bind; [apply run_lift, Hv|apply run_assign].
Qed.

Lemma range_bounds (n : Z) : 0 <= n -> Forall (fun j => 0 <= j < n) (range n).
Proof.
  intros Hn. unfold range. apply Forall_forall. intros j Hj.
  apply list_elem_of_In, in_map_iff in Hj as (m & <- & Hm). apply in_seq in Hm. lia.
Qed.

Lemma run_call {A} (r : exn + A) (a : A) (h : Heap) : r = inr a -> call r h = inr (a, h).
Proof. now intros ->. Qed.

(** The inner loop of the background and foreground modes, on the
    column [i]: every pixel it visits is recoloured, the store changes
    at [converted] only. *)
Lemma run_inner_loop (mode : string) (hp : Heap) (k w h : nat) (q : Pixel MRGBA) (i : Z)
    (rows : list Z) :
  0 <= i < Z.of_nat w -> Forall (fun j => 0 <= j < Z.of_nat h) rows ->
  forall (l : Heap) (f : Z -> Z -> Pixel MRGBA),
    l !! k = Some (mkImage MRGBA w h f) ->
    for_each rows (fun j =>
      if (mode =? "background")%string then
        filterColour ← lift UnboundLocalError (Some (pixel_value MRGBA q));
        p ← PIL.getitem (length hp + k)%nat (i, j);
        c ← call (cmpTup p filterColour);
        if c : bool then PIL.setitem (length hp + k)%nat (i, j) white
        else PIL.setitem (length hp + k)%nat (i, j) black
      else
        filterColour ← lift UnboundLocalError (Some (pixel_value MRGBA q));
        p ← PIL.getitem (length hp + k)%nat (i, j);
        c ← call (cmpTup p filterColour);
        if negb c then PIL.setitem (length hp + k)%nat (i, j) white
        else PIL.setitem (length hp + k)%nat (i, j) black) (hp ++ l)
    = inr (tt, hp ++ <[k := mkImage MRGBA w h
                              (paint_column (mode =? "background")%string q f i rows)]> l).
Proof.
  intros Hi Hrows. induction Hrows as [|j rows Hj _ IH]; intros l f Hk.
  - cbn [for_each paint_column fold_left]. now rewrite list_insert_id.
  - pose proof (lookup_lt_Some _ _ _ Hk) as Hlt.
    cbn [for_each]. eapply run_bind.
    + instantiate (1 := hp ++ <[k := mkImage MRGBA w h
                           (paint_one (mode =? "background")%string q f (i, j))]> l).
      instantiate (1 := tt).
      assert (Hloc : PIL.locate (mkImage MRGBA w h f) (i, j) = Some (i, j))
        by (apply locate_inside; assumption).
      unfold paint_one, recoloured. cbn [fst snd].
      destruct (mode =? "background")%string.
      all: eapply run_bind; [reflexivity|].
      all: eapply run_bind;
        [eapply run_getpixel; [apply lookup_tail, Hk|exact Hloc|reflexivity]|].
      all: eapply run_bind; [apply run_call, cmpTup_pixels|].
      all: cbn [fst snd px].
      all: destruct (close (f i j) q); cbn [negb].
      all: first
        [ exact (run_setitem hp l k (mkImage MRGBA w h f) (i, j) (i, j) white opaque
                   Hk Hloc eq_refl)
        | exact (run_setitem hp l k (mkImage MRGBA w h f) (i, j) (i, j) black black_px
                   Hk Hloc eq_refl) ].
    + rewrite (IH (<[k := _]> l) (paint_one (mode =? "background")%string q f (i, j))).
      * now rewrite list_insert_insert_eq.
      * now apply list_lookup_insert_eq.
Qed.

(** The outer loop: the columns one after the other. *)
Lemma run_outer_loop (mode : string) (hp : Heap) (image : ref) (im : Image) (k : nat)
    (q : Pixel MRGBA) (cols : list Z) :
  hp !! image = Some im ->
  Forall (fun i => 0 <= i < im_w im) cols ->
  forall (l : Heap) (f : Z -> Z -> Pixel MRGBA),
    l !! k = Some (mkImage MRGBA (width im) (height im) f) ->
    for_each cols (fun i =>
      size ← PIL.size image;
      for_each (range (snd size)) (fun j =>
        if (mode =? "background")%string then
          filterColour ← lift UnboundLocalError (Some (pixel_value MRGBA q));
          p ← PIL.getitem (length hp + k)%nat (i, j);
          c ← call (cmpTup p filterColour);
          if c : bool then PIL.setitem (length hp + k)%nat (i, j) white
          else PIL.setitem (length hp + k)%nat (i, j) black
        else
          filterColour ← lift UnboundLocalError (Some (pixel_value MRGBA q));
          p ← PIL.getitem (length hp + k)%nat (i, j);
          c ← call (cmpTup p filterColour);
          if negb c then PIL.setitem (length hp + k)%nat (i, j) white
          else PIL.setitem (length hp + k)%nat (i, j) black)) (hp ++ l)
    = inr (tt, hp ++ <[k := mkImage MRGBA (width im) (height im)
                              (paint_columns (mode =? "background")%string q f cols
                                 (range (im_h im)))]> l).
Proof.
  intros Him Hcols. induction Hcols as [|i cols Hi _ IH]; intros l f Hk.
  - cbn [for_each paint_columns fold_left]. now rewrite list_insert_id.
  - pose proof (lookup_lt_Some _ _ _ Hk) as Hlt.
    cbn [for_each]. eapply run_bind.
    + eapply run_bind; [apply run_size, lookup_app_l_Some, Him|]. cbn [snd].
      apply run_inner_loop; [exact Hi| |exact Hk].
      apply range_bounds. unfold im_h. lia.
    + rewrite (IH (<[k := _]> l)
                 (paint_column (mode =? "background")%string q f i (range (im_h im)))).
      * now rewrite list_insert_insert_eq.
      * now apply list_lookup_insert_eq.
Qed.

(** ** What the two loops leave in the pixel grid *)

Lemma paint_column_spec (b : bool) (q : Pixel MRGBA) (i : Z) (rows : list Z) :
  NoDup rows ->
  forall (f : Z -> Z -> Pixel MRGBA) (x y : Z),
    (x = i /\ In y rows -> paint_column b q f i rows x y = recoloured b q (f x y))
    /\ (~ (x = i /\ In y rows) -> paint_column b q f i rows x y = f x y).
Proof.
  induction 1 as [|j rows Hj _ IH]; intros f x y.
  - split; [intros [_ []]|reflexivity].
  - unfold paint_column. cbn [fold_left]. fold (paint_column b q (paint_one b q f (i, j)) i rows).
    destruct (IH (paint_one b q f (i, j)) x y) as [IHin IHout].
    split.
    + intros [-> [<- | Hy]].
      * rewrite list_elem_of_In in Hj. rewrite IHout by tauto.
        unfold paint_one. cbn [fst snd]. now rewrite !Z.eqb_refl.
      * rewrite list_elem_of_In in Hj. rewrite IHin by tauto.
        unfold paint_one. cbn [fst snd].
        destruct (Z.eqb_spec y j) as [->|_]; [contradiction|].
        now rewrite andb_false_r.
    + intros Hn. rewrite IHout by (cbn [In] in Hn; tauto).
      unfold paint_one. cbn [fst snd].
      destruct (Z.eqb_spec x i) as [->|_]; [|reflexivity].
      destruct (Z.eqb_spec y j) as [->|_]; [|reflexivity].
      exfalso. apply Hn. cbn [In]. tauto.
Qed.

Lemma paint_columns_spec (b : bool) (q : Pixel MRGBA) (cols rows : list Z) :
  NoDup cols -> NoDup rows ->
  forall (f : Z -> Z -> Pixel MRGBA) (x y : Z),
    (In x cols /\ In y rows -> paint_columns b q f cols rows x y = recoloured b q (f x y))
    /\ (~ (In x cols /\ In y rows) -> paint_columns b q f cols rows x y = f x y).
Proof.
  intros Hcols Hrows. induction Hcols as [|i cols Hi _ IH]; intros f x y.
  - split; [intros [[] _]|reflexivity].
  - unfold paint_columns. cbn [fold_left].
    fold (paint_columns b q (paint_column b q f i rows) cols rows).
    destruct (IH (paint_column b q f i rows) x y) as [IHin IHout].
    destruct (paint_column_spec b q i rows Hrows f x y) as [Cin Cout].
    rewrite list_elem_of_In in Hi. split.
    + intros [[<- | Hx] Hy].
      * rewrite IHout by tauto. apply Cin. tauto.
      * rewrite IHin by tauto.
        rewrite Cout; [reflexivity|]. intros [-> _]. contradiction.
    + intros Hn. rewrite IHout by (cbn [In] in Hn; tauto).
      apply Cout. intros [-> Hy]. apply Hn. cbn [In]. tauto.
Qed.

Lemma range_NoDup (n : Z) : NoDup (range n).
Proof.
  unfold range. apply NoDup_ListNoDup, Finite.Injective_map_NoDup; [|apply seq_NoDup].
  intros a b Hab. lia.
Qed.

Lemma in_range (n j : Z) : In j (range n) <-> 0 <= j < n.
Proof.
  unfold range. rewrite in_map_iff. split.
  - intros (m & <- & Hm). apply in_seq in Hm. lia.
  - intros Hj. exists (Z.to_nat j). rewrite in_seq. lia.
Qed.

(** After both loops every pixel of the image is recoloured. *)
Lemma paint_all (b : bool) (q : Pixel MRGBA) (f : Z -> Z -> Pixel MRGBA) (w h x y : Z) :
  0 <= x < w -> 0 <= y < h ->
  paint_columns b q f (range w) (range h) x y = recoloured b q (f x y).
Proof.
  intros Hx Hy.
  apply (paint_columns_spec b q (range w) (range h) (range_NoDup w) (range_NoDup h) f x y).
  now rewrite !in_range.
Qed.

(** ** The background and foreground modes *)

Lemma run_getcolors (h : Heap) (r : ref) (im : Image) :
  h !! r = Some im -> PIL.getcolors r h = inr (PIL.getcolors_image im 256, h).
Proof.
  intros Hr. unfold PIL.getcolors. eapply run_bind; [apply run_deref, Hr|reflexivity].
Qed.

Lemma length_histogram (data : list PyVal) :
  length (PIL.histogram data) = length (nodup PIL.PyVal_eq_dec data).
Proof. unfold PIL.histogram. apply length_map. Qed.

(** The histogram call on the "RGBA" conversion: nothing beyond 256
    colours, the table of the colours up to there. *)
Lemma getcolors_rgba (im : Image) :
  PIL.getcolors_image (PIL.convert_image im MRGBA) 256
  = if 256 <? Z.of_nat (PIL.distinct_colours (PIL.convert_image im MRGBA)) then None
    else Some (table_order (PIL.histogram (getdata (PIL.convert_image im MRGBA)))).
Proof.
  unfold PIL.getcolors_image. cbn [mode PIL.convert_image].
  rewrite (Permutation_length (table_order_perm _)), length_histogram.
  reflexivity.
Qed.

Lemma length_insert_desc {A} (key : A -> Z) (x : A) (l : list A) :
  length (insert_desc key x l) = S (length l).
Proof.
  induction l as [|y l IH]; [reflexivity|].
  cbn [insert_desc]. destruct (key x <? key y); cbn [length]; now rewrite ?IH.
Qed.

Lemma length_sorted_reverse {A} (key : A -> Z) (l : list A) :
  length (sorted_reverse key l) = length l.
Proof.
  induction l as [|x l IH]; [reflexivity|].
  cbn [sorted_reverse fold_right]. fold (sorted_reverse key l).
  now rewrite length_insert_desc, IH.
Qed.

Lemma run_convertBlackAndWhite_ground (background : bool) (h : Heap) (image : ref)
    (im : Image) (colors : list (Z * PyVal)) (n : Z) (q : Pixel MRGBA) :
  h !! image = Some im -> 1 <= im_w im -> 1 <= im_h im ->
  PIL.getcolors_image (PIL.convert_image im MRGBA) 256 = Some colors ->
  sorted_reverse getKey colors !! (if background then 0 else 1)%nat
  = Some (n, pixel_value MRGBA q) ->
  exists (l : Heap),
    length l = 3%nat /\
    convertBlackAndWhite image (if background then "background" else "foreground") h
    = inr ((length h + 3)%nat,
           h ++ l ++ [PIL.convert_image
                        (mkImage MRGBA (width im) (height im)
                           (paint_columns background q
                              (fun x y => PIL.to_RGBA (mode im) (px im x y))
                              (range (im_w im)) (range (im_h im))))
                        MRGBA]).
Proof.
  intros Him Hw Hh Hcolors Hitem.
  set (rgba := PIL.convert_image im MRGBA) in *.
  set (grey := PIL.convert_image im ML).
  set (one := if (im_w grey =? 1) && (im_h grey =? 1) then grey
              else PIL.resize_image BICUBIC grey 1 1).
  set (painted := mkImage MRGBA (width im) (height im)
                    (paint_columns background q
                       (fun x y => PIL.to_RGBA (mode im) (px im x y))
                       (range (im_w im)) (range (im_h im)))).
  assert (Havg : exists p v, PIL.locate one (0, 0) = Some p /\
                 pixel_value (mode one) (px one (fst p) (snd p)) = v).
  { exists (0, 0), (pixel_value (mode one) (px one 0 0)). split; [|reflexivity].
    unfold one. change (im_w grey) with (im_w im). change (im_h grey) with (im_h im).
    destruct ((im_w im =? 1) && (im_h im =? 1)); now apply locate_origin. }
  destruct Havg as (p & v & Hloc & Hval).
  exists [rgba; one; painted]. split; [reflexivity|].
  rewrite <- (app_nil_r h) at 1. unfold convertBlackAndWhite.
  destruct background.
  all: eapply run_bind;
    [ eapply run_bind; [apply run_convert; points|]; tidy;
      eapply run_bind; [apply run_getcolors; points|];
      fold rgba; rewrite Hcolors;
      eapply run_bind;
        [ first [ eapply run_bind; [reflexivity|];
                  eapply run_bind; [apply run_lift, Hitem|reflexivity]
                | reflexivity ] |];
      first [ eapply run_bind; [reflexivity|];
              eapply run_bind; [apply run_lift, Hitem|reflexivity]
            | reflexivity ]
    | ].
  all: cbn [snd].
  all: eapply run_bind; [apply run_convert; points|]; tidy.
  all: eapply run_bind; [apply (run_thumbnail_1x1 h [rgba; grey] 1 grey eq_refl Hw Hh)|]; tidy.
  all: fold one.
  all: eapply run_bind; [eapply run_getpixel; [points|exact Hloc|exact Hval]|].
  all: cbv zeta.
  all: eapply run_bind;
    [ eapply run_bind; [apply run_convert; points|]; tidy;
      eapply run_bind; [reflexivity|];
      eapply run_bind; [apply run_size; points|]; cbn [fst];
      eapply run_bind;
        [ first
            [ apply (run_outer_loop "background" h image im 2 q (range (im_w im)) Him
                       (range_bounds (im_w im) ltac:(lia)) [rgba; one; rgba] _ eq_refl)
            | apply (run_outer_loop "foreground" h image im 2 q (range (im_w im)) Him
                       (range_bounds (im_w im) ltac:(lia)) [rgba; one; rgba] _ eq_refl) ]
        | reflexivity ]
    | tidy ].
  all: apply (run_convert h [rgba; one; painted] _ painted MRGBA); points.
Qed.

(** With over 256 colours the histogram call returns [None], and
    [sorted(None, ...)] is a TypeError, in both modes. *)
Lemma run_convertBlackAndWhite_TypeError (background : bool) (h : Heap) (image : ref)
    (im : Image) :
  h !! image = Some im ->
  (256 < PIL.distinct_colours (PIL.convert_image im MRGBA))%nat ->
  convertBlackAndWhite image (if background then "background" else "foreground") h
  = inl TypeError.
Proof.
  intros Him Hmany. rewrite <- (app_nil_r h) at 1. unfold convertBlackAndWhite.
  assert (Hnone : PIL.getcolors_image (PIL.convert_image im MRGBA) 256 = None).
  { rewrite getcolors_rgba.
    destruct (Z.ltb_spec 256 (Z.of_nat (PIL.distinct_colours (PIL.convert_image im MRGBA))));
      [reflexivity|lia]. }
  apply run_bind_raise. destruct background.
  - eapply run_bind; [apply run_convert; points|]; tidy.
    eapply run_bind; [apply run_getcolors; points|]. rewrite Hnone.
    reflexivity.
  - eapply run_bind; [apply run_convert; points|]; tidy.
    eapply run_bind; [apply run_getcolors; points|]. rewrite Hnone.
    reflexivity.
Qed.

(** With fewer than 2 colours the sorted histogram has no entry 1. *)
Lemma run_convertBlackAndWhite_foreground_IndexError (h : Heap) (image : ref) (im : Image) :
  h !! image = Some im ->
  (PIL.distinct_colours (PIL.convert_image im MRGBA) < 2)%nat ->
  convertBlackAndWhite image "foreground" h = inl IndexError.
Proof.
  intros Him Hfew. rewrite <- (app_nil_r h) at 1. unfold convertBlackAndWhite.
  apply run_bind_raise.
  eapply run_bind; [apply run_convert; points|]; tidy.
  eapply run_bind; [apply run_getcolors; points|]. rewrite getcolors_rgba.
  destruct (Z.ltb_spec 256 (Z.of_nat (PIL.distinct_colours (PIL.convert_image im MRGBA))));
    [lia|].
  eapply run_bind; [reflexivity|].
  eapply run_bind; [reflexivity|].
  apply run_bind_raise. unfold index.
  rewrite lookup_ge_None_2; [reflexivity|].
  rewrite length_sorted_reverse, (Permutation_length (table_order_perm _)), length_histogram.
  unfold PIL.distinct_colours in Hfew. lia.
Qed.

(** With no colour at all the sorted histogram has no entry 0 either. *)
Lemma run_convertBlackAndWhite_background_IndexError (h : Heap) (image : ref) (im : Image) :
  h !! image = Some im ->
  PIL.distinct_colours (PIL.convert_image im MRGBA) = 0%nat ->
  convertBlackAndWhite image "background" h = inl IndexError.
Proof.
  intros Him Hnone. rewrite <- (app_nil_r h) at 1. unfold convertBlackAndWhite.
  apply run_bind_raise.
  eapply run_bind; [apply run_convert; points|]; tidy.
  eapply run_bind; [apply run_getcolors; points|]. rewrite getcolors_rgba, Hnone.
  change (256 <? Z.of_nat 0) with false. cbv iota.
  apply run_bind_raise.
  eapply run_bind; [reflexivity|].
  apply run_bind_raise. unfold index.
  rewrite lookup_ge_None_2; [reflexivity|].
  rewrite length_sorted_reverse, (Permutation_length (table_order_perm _)), length_histogram.
  unfold PIL.distinct_colours in Hnone. lia.
Qed.

(** ** Counting colours *)

Lemma b2z_inj (a b : byte) : b2z a = b2z b -> a = b.
Proof. intros H. rewrite <- (z2b_b2z a), <- (z2b_b2z b). now rewrite H. Qed.

Lemma rgba_value_spec (m : Mode) (p : Pixel m) :
  rgba_value m (pixel_value m p) = pixel_value MRGBA (PIL.to_RGBA m p).
Proof.
  destruct m; cbn in *.
  - destruct p; reflexivity.
  - reflexivity.
  - destruct p as [[r g] b]. reflexivity.
  - destruct p as [[[r g] b] a]. reflexivity.
Qed.

Lemma map_flat_map {A B C} (f : B -> C) (g : A -> list B) (l : list A) :
  map f (flat_map g l) = flat_map (fun x => map f (g x)) l.
Proof.
  induction l as [|x l IH]; [reflexivity|].
  cbn [flat_map]. now rewrite map_app, IH.
Qed.

Lemma getdata_convert (im : Image) :
  getdata (PIL.convert_image im MRGBA) = map (rgba_value (mode im)) (getdata im).
Proof.
  unfold getdata. cbn [mode width height px PIL.convert_image].
  rewrite map_flat_map. apply flat_map_ext. intros y.
  rewrite map_map. apply map_ext. intros x. now rewrite rgba_value_spec.
Qed.

Lemma getdata_values (im : Image) (v : PyVal) :
  In v (getdata im) ->
  exists x y, 0 <= x < im_w im /\ 0 <= y < im_h im
              /\ v = pixel_value (mode im) (px im x y).
Proof.
  unfold getdata. rewrite in_flat_map. intros (y & Hy & Hv).
  apply in_map_iff in Hv as (x & <- & Hx). apply in_seq in Hx, Hy.
  exists (Z.of_nat x), (Z.of_nat y). unfold im_w, im_h. repeat split; lia.
Qed.

Lemma getdata_in (im : Image) (x y : Z) :
  0 <= x < im_w im -> 0 <= y < im_h im ->
  In (pixel_value (mode im) (px im x y)) (getdata im).
Proof.
  intros Hx Hy. unfold getdata, im_w, im_h in *. apply in_flat_map.
  exists (Z.to_nat y). split; [apply in_seq; lia|].
  apply in_map_iff. exists (Z.to_nat x). split; [|apply in_seq; lia].
  now rewrite !Z2Nat.id by lia.
Qed.

Section Nodup.
Context {A B : Type} (decA : forall a b : A, {a = b} + {a <> b})
        (decB : forall a b : B, {a = b} + {a <> b}) (f : A -> B).

(** A map never adds distinct values. *)
Lemma length_nodup_map_le (l : list A) :
  (length (nodup decB (map f l)) <= length (nodup decA l))%nat.
Proof.
  induction l as [|x l IH]; [reflexivity|].
  cbn [map nodup].
  destruct (in_dec decA x l) as [Hx|Hx].
  - destruct (in_dec decB (f x) (map f l)) as [_|Hfx]; [exact IH|].
    exfalso. apply Hfx, in_map, Hx.
  - destruct (in_dec decB (f x) (map f l)); cbn [length]; lia.
Qed.

(** A map that is one-to-one on the list keeps their number. *)
Lemma length_nodup_map_inj (l : list A) :
  (forall a b, In a l -> In b l -> f a = f b -> a = b) ->
  length (nodup decB (map f l)) = length (nodup decA l).
Proof.
  induction l as [|x l IH]; intros Hinj; [reflexivity|].
  cbn [map nodup].
  assert (IH' : length (nodup decB (map f l)) = length (nodup decA l)).
  { apply IH. intros a b Ha Hb. apply Hinj; now right. }
  destruct (in_dec decA x l) as [Hx|Hx].
  - destruct (in_dec decB (f x) (map f l)) as [_|Hfx]; [exact IH'|].
    exfalso. apply Hfx, in_map, Hx.
  - destruct (in_dec decB (f x) (map f l)) as [Hfx|_]; [|cbn [length]; lia].
    exfalso. apply in_map_iff in Hfx as (b & Hb & Hin).
    apply Hx. rewrite <- (Hinj b x); [exact Hin|now right|now left|exact Hb].
Qed.

End Nodup.

(** The "RGBA" conversion never has more colours than the image. *)
Lemma distinct_colours_convert_le (im : Image) :
  (PIL.distinct_colours (PIL.convert_image im MRGBA) <= PIL.distinct_colours im)%nat.
Proof.
  unfold PIL.distinct_colours. rewrite getdata_convert. apply length_nodup_map_le.
Qed.

Lemma rgba_value_inj (m : Mode) (p p' : Pixel m) :
  m <> M1 ->
  rgba_value m (pixel_value m p) = rgba_value m (pixel_value m p') ->
  pixel_value m p = pixel_value m p'.
Proof.
  destruct m; cbn in *; intros Hm H; [contradiction| | |].
  - injection H as ->. reflexivity.
  - destruct p as [[r g] b], p' as [[r' g'] b']. injection H as -> -> ->. reflexivity.
  - exact H.
Qed.

(** Outside mode "1" it has exactly as many. *)
Lemma distinct_colours_convert (im : Image) :
  mode im <> M1 ->
  PIL.distinct_colours (PIL.convert_image im MRGBA) = PIL.distinct_colours im.
Proof.
  intros Hm. unfold PIL.distinct_colours. rewrite getdata_convert.
  apply length_nodup_map_inj. intros a b Ha Hb Hab.
  apply getdata_values in Ha as (x & y & _ & _ & ->).
  apply getdata_values in Hb as (x' & y' & _ & _ & ->).
  now apply rgba_value_inj.
Qed.

(** A single-band image has at most 256 colours. *)
Lemma distinct_colours_single_band (im : Image) :
  mode im = M1 \/ mode im = ML -> (PIL.distinct_colours im <= 256)%nat.
Proof.
  intros Hm. unfold PIL.distinct_colours.
  change 256%nat with (length (map (fun n => PInt (Z.of_nat n)) (seq 0 256))).
  apply List.NoDup_incl_length; [apply List.NoDup_nodup|].
  intros v Hv. apply nodup_In in Hv.
  apply getdata_values in Hv as (x & y & _ & _ & ->).
  assert (exists b : byte, pixel_value (mode im) (px im x y) = PInt (b2z b)) as [b ->].
  { generalize (px im x y). destruct Hm as [-> | ->]; intros b; now exists b. }
  apply in_map_iff. exists (Z.to_nat (b2z b)). pose proof (b2z_range b).
  split; [now rewrite Z2Nat.id by lia|apply in_seq; lia].
Qed.

(** More than 256 colours survive the "RGBA" conversion. *)
Lemma distinct_colours_many (im : Image) :
  (256 < PIL.distinct_colours im)%nat ->
  (256 < PIL.distinct_colours (PIL.convert_image im MRGBA))%nat.
Proof.
  intros Hmany. rewrite distinct_colours_convert; [exact Hmany|].
  intros Hm. pose proof (distinct_colours_single_band im (or_introl Hm)). lia.
Qed.

Lemma pixel_value_RGBA_inj (p p' : Pixel MRGBA) :
  pixel_value MRGBA p = pixel_value MRGBA p' -> p = p'.
Proof.
  destruct p as [[[r g] b] a], p' as [[[r' g'] b'] a']. cbn. intros H.
  injection H as Hr Hg Hb Ha.
  now rewrite (b2z_inj _ _ Hr), (b2z_inj _ _ Hg), (b2z_inj _ _ Hb), (b2z_inj _ _ Ha).
Qed.

Lemma near_refl (a : byte) : near a a = true.
Proof.
  unfold near. destruct (Z.ltb_spec (b2z a + 10) (b2z a)); [lia|].
  destruct (Z.ltb_spec (b2z a) (b2z a - 10)); [lia|]. reflexivity.
Qed.

Lemma close_refl (p : Pixel MRGBA) : close p p = true.
Proof. destruct p as [[[r g] b] a]. cbn. now rewrite !near_refl. Qed.

Lemma nodup_nil_inv {A} (dec : forall a b : A, {a = b} + {a <> b}) (l : list A) :
  nodup dec l = [] -> l = [].
Proof.
  destruct l as [|x l]; [reflexivity|]. intros H.
  assert (Hx : In x (nodup dec (x :: l))) by (apply nodup_In; now left).
  rewrite H in Hx. destruct Hx.
Qed.

(** An image of one colour: in background mode every pixel is close to
    the filter colour, which is that colour, and comes out white. *)
Lemma convertBlackAndWhite_background_one_colour (h : Heap) (image : ref) (im : Image) :
  h !! image = Some im ->
  PIL.distinct_colours (PIL.convert_image im MRGBA) = 1%nat ->
  exists (out : ref) (h' : Heap) (result : Image),
    convertBlackAndWhite image "background" h = inr (out, h') /\
    h' !! out = Some result /\
    width result = width im /\ height result = height im /\
    forall x y, 0 <= x < im_w im -> 0 <= y < im_h im ->
      pixel_value (mode result) (px result x y) = white.
Proof.
  intros Him Hone.
  set (rgba := PIL.convert_image im MRGBA) in *.
  unfold PIL.distinct_colours in Hone.
  destruct (nodup PIL.PyVal_eq_dec (getdata rgba)) as [|c [|c' rest]] eqn:Hnd;
    try discriminate. clear Hone.
  assert (Hc : In c (getdata rgba)).
  { apply (nodup_In PIL.PyVal_eq_dec). rewrite Hnd. now left. }
  apply getdata_values in Hc as (x0 & y0 & Hx0 & Hy0 & Hc).
  change (im_w rgba) with (im_w im) in Hx0. change (im_h rgba) with (im_h im) in Hy0.
  set (q := px rgba x0 y0 : Pixel MRGBA) in *. change (mode rgba) with MRGBA in Hc.
  assert (Hall : forall x y, 0 <= x < im_w im -> 0 <= y < im_h im ->
                 PIL.to_RGBA (mode im) (px im x y) = q).
  { intros x y Hx Hy. apply pixel_value_RGBA_inj. rewrite <- Hc.
    assert (Hin : In (pixel_value MRGBA (PIL.to_RGBA (mode im) (px im x y)))
                     (nodup PIL.PyVal_eq_dec (getdata rgba))).
    { apply nodup_In. apply (getdata_in rgba x y); assumption. }
    rewrite Hnd in Hin. destruct Hin as [<- | []]. reflexivity. }
  destruct (run_convertBlackAndWhite_ground true h image im
              [(Z.of_nat (count_occ PIL.PyVal_eq_dec (getdata rgba) c), c)]
              (Z.of_nat (count_occ PIL.PyVal_eq_dec (getdata rgba) c)) q Him)
    as (l & Hlen & Hrun); [lia|lia| | |].
  { rewrite getcolors_rgba. fold rgba. unfold PIL.distinct_colours. rewrite Hnd.
    change (256 <? Z.of_nat (length [c])) with false. cbv iota. f_equal.
    unfold PIL.histogram. rewrite Hnd. cbn [map].
    apply Permutation_length_1_inv, Permutation_sym, table_order_perm. }
  { cbn. now rewrite Hc. }
  eexists _, _, _. split; [exact Hrun|].
  split; [apply lookup_tail; rewrite <- Hlen; apply list_lookup_middle; reflexivity|].
  split; [reflexivity|]. split; [reflexivity|].
  intros x y Hx Hy. cbn [mode px PIL.convert_image PIL.to_RGBA].
  rewrite paint_all by assumption. rewrite Hall by assumption.
  unfold recoloured. now rewrite close_refl.
Qed.


(** C4, as amended: on an image with fewer than 2 distinct colours the
    foreground mode raises an IndexError, the 2nd-ranked entry of the
    colour histogram not being there.  The background mode reads the
    1st-ranked entry: it raises the IndexError only on an image with no
    colour at all, and on an image of one colour it returns an image of
    the same size with every pixel white. *)
Theorem convertBlackAndWhite_under_2_colours (h : Heap) (image : ref) (im : Image) :
  h !! image = Some im ->
  (PIL.distinct_colours im < 2)%nat ->
  convertBlackAndWhite image "foreground" h = inl IndexError
  /\ (PIL.distinct_colours im = 0%nat ->
      convertBlackAndWhite image "background" h = inl IndexError)
  /\ (PIL.distinct_colours im = 1%nat ->
      exists (out : ref) (h' : Heap) (result : Image),
        convertBlackAndWhite image "background" h = inr (out, h') /\
        h' !! out = Some result /\
        width result = width im /\ height result = height im /\
        forall x y, 0 <= x < im_w im -> 0 <= y < im_h im ->
          pixel_value (mode result) (px result x y) = white).
Proof.
  intros Him Hfew. pose proof (distinct_colours_convert_le im) as Hle.
  split; [|split].
  - apply (run_convertBlackAndWhite_foreground_IndexError h image im Him). lia.
  - intros H0. apply (run_convertBlackAndWhite_background_IndexError h image im Him). lia.
  - intros H1. apply (convertBlackAndWhite_background_one_colour h image im Him).
    destruct (PIL.distinct_colours (PIL.convert_image im MRGBA)) as [|[|n]] eqn:E;
      [|reflexivity|lia].
    exfalso. unfold PIL.distinct_colours in E, H1.
    apply length_zero_iff_nil, nodup_nil_inv in E.
    rewrite getdata_convert in E. apply map_eq_nil in E.
    rewrite E in H1. discriminate.
Qed.

(** C5, as amended: on an image of at least one pixel the two filter
    modes return an "RGBA" image of the same size in which every pixel
    is (0, 0, 0, 255) or (255, 255, 255, 255).  One average is read off
    the grey image shrunk to 1 x 1; filter-darker makes a pixel whose
    grey value is strictly below it black and every other pixel white,
    filter-lighter makes a pixel strictly above it black and every
    other pixel white. *)
Theorem convertBlackAndWhite_filter_modes (h : Heap) (image : ref) (im : Image) :
  h !! image = Some im -> 1 <= im_w im -> 1 <= im_h im ->
  let avg := b2z (average_luminance im) in
  let grey x y := b2z (PIL.to_L (mode im) (px im x y)) in
  (exists (out : ref) (h' : Heap) (result : Image),
     convertBlackAndWhite image "filter-darker" h = inr (out, h') /\
     h' !! out = Some result /\ mode result = MRGBA /\
     width result = width im /\ height result = height im /\
     forall x y, 0 <= x < im_w im -> 0 <= y < im_h im ->
       pixel_value (mode result) (px result x y)
       = if grey x y <? avg then black else white)
  /\ (exists (out : ref) (h' : Heap) (result : Image),
        convertBlackAndWhite image "filter-lighter" h = inr (out, h') /\
        h' !! out = Some result /\ mode result = MRGBA /\
        width result = width im /\ height result = height im /\
        forall x y, 0 <= x < im_w im -> 0 <= y < im_h im ->
          pixel_value (mode result) (px result x y)
          = if avg <? grey x y then black else white).
Proof.
  intros Him Hw Hh avg grey. split.
  - destruct (run_convertBlackAndWhite_filter true h image im Him Hw Hh)
      as (l & Hlen & Hrun).
    eexists _, _, _. split; [exact Hrun|].
    split; [apply lookup_tail; rewrite <- Hlen; apply list_lookup_middle; reflexivity|].
    split; [reflexivity|]. split; [reflexivity|]. split; [reflexivity|].
    intros x y _ _. unfold thresholded. cbn [mode px PIL.convert_image PIL.to_RGBA].
    rewrite apply_lut_range. unfold darker_than. fold (grey x y). fold avg.
    now destruct (grey x y <? avg).
  - destruct (run_convertBlackAndWhite_filter false h image im Him Hw Hh)
      as (l & Hlen & Hrun).
    eexists _, _, _. split; [exact Hrun|].
    split; [apply lookup_tail; rewrite <- Hlen; apply list_lookup_middle; reflexivity|].
    split; [reflexivity|]. split; [reflexivity|]. split; [reflexivity|].
    intros x y _ _. unfold thresholded. cbn [mode px PIL.convert_image PIL.to_RGBA].
    rewrite apply_lut_range. unfold lighter_than. fold (grey x y). fold avg.
    now destruct (avg <? grey x y).
Qed.

(** C9: on an image with more than 256 distinct colours the background
    and the foreground mode raise a TypeError, [getcolors] having
    returned [None] for [sorted] to iterate; so whenever one of the two
    modes returns, the image had at most 256 colours. *)
Theorem convertBlackAndWhite_over_256_colours (h : Heap) (image : ref) (im : Image) :
  h !! image = Some im ->
  ((256 < PIL.distinct_colours im)%nat ->
   convertBlackAndWhite image "background" h = inl TypeError
   /\ convertBlackAndWhite image "foreground" h = inl TypeError)
  /\ (forall (colour_mode : string) (out : ref) (h' : Heap),
        colour_mode = "background"%string \/ colour_mode = "foreground"%string ->
        convertBlackAndWhite image colour_mode h = inr (out, h') ->
        (PIL.distinct_colours im <= 256)%nat).
Proof.
  intros Him.
  assert (Hraise : (256 < PIL.distinct_colours im)%nat ->
                   convertBlackAndWhite image "background" h = inl TypeError
                   /\ convertBlackAndWhite image "foreground" h = inl TypeError).
  { intros Hmany. apply distinct_colours_many in Hmany. split.
    - exact (run_convertBlackAndWhite_TypeError true h image im Him Hmany).
    - exact (run_convertBlackAndWhite_TypeError false h image im Him Hmany). }
  split; [exact Hraise|].
  intros colour_mode out h' Hmode Hrun.
  destruct (Nat.le_gt_cases (PIL.distinct_colours im) 256) as [Hle|Hgt]; [exact Hle|].
  destruct (Hraise Hgt) as [Hb Hf].
  destruct Hmode as [-> | ->]; congruence.
Qed.

(** C2: for colours Pillow can read and a canvas that has a size (both
    sides at least 0, as they are for every border from 0 on),
    [addDropShadowComplex] builds, before its closing resize, a canvas
    of width w + |ox| + 2*b and height h + |oy| + 2*b filled with the
    background colour, with the silhouette in the shadow colour pasted
    at (b + max(ox, 0), b + max(oy, 0)) through the alpha of the image,
    blurred n times in a row, and with the image pasted at
    (b - min(ox, 0), b - min(oy, 0)) through its own alpha: the call is
    [resizeImageAbs] of that canvas to the size of the image. *)
Theorem addDropShadowComplex_canvas (h : Heap) (image : ref) (im : Image)
    (iterations border ox oy : Z) (backgroundColour shadowColour : string)
    (bg sh : Pixel MRGBA) :
  h !! image = Some im ->
  0 <= im_w im + Z.abs ox + 2 * border ->
  0 <= im_h im + Z.abs oy + 2 * border ->
  PIL.getcolor backgroundColour MRGBA ≫= pixel_of_value MRGBA = Some bg ->
  PIL.getcolor shadowColour MRGBA ≫= pixel_of_value MRGBA = Some sh ->
  exists (canvas : ref) (h1 : Heap),
    h1 !! canvas = Some (shadow_canvas im (Z.to_nat iterations) border ox oy bg sh)
    /\ h1 !! image = Some im
    /\ addDropShadowComplex image iterations border [ox; oy] backgroundColour shadowColour h
       = resizeImageAbs canvas (im_w im) (im_h im) h1
    /\ im_w (shadow_canvas im (Z.to_nat iterations) border ox oy bg sh)
       = im_w im + Z.abs ox + 2 * border
    /\ im_h (shadow_canvas im (Z.to_nat iterations) border ox oy bg sh)
       = im_h im + Z.abs oy + 2 * border.
Proof.
  intros Him Hfw Hfh Hbg Hsh.
  destruct (run_addDropShadowComplex h image im iterations border ox oy
              backgroundColour shadowColour bg sh Him Hfw Hfh Hbg Hsh)
    as (canvas & l & Hcanvas & Hrun).
  exists canvas, (h ++ l). split; [exact Hcanvas|].
  split; [now apply lookup_app_l_Some|]. split; [exact Hrun|].
  unfold shadow_canvas, im_w, im_h in *. cbv zeta.
  repeat match goal with
         | |- context [width (PIL.paste_blend ?d ?s ?p ?w)] =>
             destruct (width_paste_blend d s p w) as (-> & -> & _)
         | |- context [width (Nat.iter ?n PIL.blur_image ?c)] =>
             destruct (size_blurred n c) as (-> & ->)
         end.
  cbn [PIL.filled width height]. split; lia.
Qed.

(** C3, as amended: for an image of at least one pixel and a border
    that is not negative (any iterations, any offset, two colours
    Pillow can read), [addDropShadowComplex] returns a new image that
    has exactly the width and the height of the input image. *)
Theorem addDropShadowComplex_size (h : Heap) (image : ref) (im : Image)
    (iterations border ox oy : Z) (backgroundColour shadowColour : string)
    (bg sh : Pixel MRGBA) :
  h !! image = Some im ->
  1 <= im_w im -> 1 <= im_h im -> 0 <= border ->
  PIL.getcolor backgroundColour MRGBA ≫= pixel_of_value MRGBA = Some bg ->
  PIL.getcolor shadowColour MRGBA ≫= pixel_of_value MRGBA = Some sh ->
  exists (out : ref) (h' : Heap) (result : Image),
    addDropShadowComplex image iterations border [ox; oy] backgroundColour shadowColour h
    = inr (out, h') /\
    out <> image /\ h' !! image = Some im /\ h' !! out = Some result /\
    im_w result = im_w im /\ im_h result = im_h im.
Proof.
  intros Him Hw Hh Hb Hbg Hsh.
  destruct (run_addDropShadowComplex h image im iterations border ox oy
              backgroundColour shadowColour bg sh Him ltac:(lia) ltac:(lia) Hbg Hsh)
    as (canvas & l & Hcanvas & Hrun).
  destruct (resize_value_defined
              (shadow_canvas im (Z.to_nat iterations) border ox oy bg sh)
              (im_w im, im_h im) ANTIALIAS Hw Hh) as (result & Hres).
  destruct (resize_value_size _ _ _ _ Hres) as (Ew & Eh & _). cbn [fst snd] in Ew, Eh.
  pose proof (lookup_lt_Some _ _ _ Him) as Hlt.
  exists (length h + length l)%nat, (h ++ (l ++ [result])), result.
  split.
  { rewrite Hrun. eapply run_resizeImageAbs; [exact Hcanvas|exact Hres]. }
  split; [lia|]. split; [now apply lookup_app_l_Some|].
  split; [apply lookup_tail, list_lookup_middle; reflexivity|].
  split; assumption.
Qed.

(** * Further properties of the library *)

(** ** Resizing *)

(** X1: [resizeImageAbs] with a target of at least 1 x 1 returns a new
    object of exactly that size and of the mode of the image; the image
    passed in is left as it was. *)
Theorem resizeImageAbs_exact_size (h : Heap) (image : ref) (im : Image) (w' h' : Z) :
  h !! image = Some im -> 1 <= w' -> 1 <= h' ->
  exists (out : ref) (h2 : Heap) (result : Image),
    resizeImageAbs image w' h' h = inr (out, h2) /\
    out <> image /\ h2 !! image = Some im /\ h2 !! out = Some result /\
    im_w result = w' /\ im_h result = h' /\ mode result = mode im.
Proof.
  intros Him Hw Hh.
  destruct (resize_value_defined im (w', h') ANTIALIAS Hw Hh) as (result & Hres).
  destruct (resize_value_size _ _ _ _ Hres) as (Ew & Eh & Em). cbn [fst snd] in Ew, Eh.
  pose proof (lookup_lt_Some _ _ _ Him) as Hlt.
  exists (length h + 0)%nat, (h ++ [result]), result.
  split.
  { rewrite <- (app_nil_r h) at 1.
    apply (run_resizeImageAbs h [] image im result); [|exact Hres].
    rewrite app_nil_r. exact Him. }
  split; [lia|]. split; [now apply lookup_app_l_Some|].
  split; [apply (lookup_tail h [result] 0); reflexivity|].
  auto.
Qed.

Lemma run_resizeImageAbs_raise (h : Heap) (image : ref) (im : Image) (w' h' : Z) :
  h !! image = Some im ->
  w' < 1 \/ h' < 1 ->
  im_w im <> w' \/ im_h im <> h' ->
  resizeImageAbs image w' h' h = inl ValueError.
Proof.
  intros Him Hsmall Hdiff. unfold resizeImageAbs, PIL.resize.
  eapply run_bind; [apply run_deref, Him|].
  apply run_bind_raise. unfold PIL.resize_value. cbn [fst snd].
  replace ((im_w im =? w') && (im_h im =? h')) with false.
  - replace ((w' <? 1) || (h' <? 1)) with true; [reflexivity|].
    symmetry. apply orb_true_iff. rewrite !Z.ltb_lt. exact Hsmall.
  - symmetry. apply andb_false_iff. rewrite !Z.eqb_neq. exact Hdiff.
Qed.

(** X2: a target side below 1 pixel is refused: unless the target is
    the very size of the image, [resizeImageAbs] raises a ValueError. *)
Theorem resizeImageAbs_small_target_raises (h : Heap) (image : ref) (im : Image)
    (w' h' : Z) :
  h !! image = Some im ->
  w' < 1 \/ h' < 1 ->
  im_w im <> w' \/ im_h im <> h' ->
  resizeImageAbs image w' h' h = inl ValueError.
Proof. exact (run_resizeImageAbs_raise h image im w' h'). Qed.

Lemma run_resizeImageAbs_same_size (h : Heap) (image : ref) (im : Image) :
  h !! image = Some im ->
  resizeImageAbs image (im_w im) (im_h im) h = inr (length h, h ++ [im]).
Proof.
  intros Him. unfold resizeImageAbs, PIL.resize.
  eapply run_bind; [apply run_deref, Him|].
  eapply run_bind; [apply run_lift|reflexivity].
  unfold PIL.resize_value. cbn [fst snd]. now rewrite !Z.eqb_refl.
Qed.

(** X3: asked for the size the image already has, [resizeImageAbs]
    resamples nothing: the new object holds an exact copy of the image,
    also for an image without pixels. *)
Theorem resizeImageAbs_same_size_copies (h : Heap) (image : ref) (im : Image) :
  h !! image = Some im ->
  exists (out : ref) (h2 : Heap),
    resizeImageAbs image (im_w im) (im_h im) h = inr (out, h2) /\
    out <> image /\ h2 !! image = Some im /\ h2 !! out = Some im.
Proof.
  intros Him. pose proof (lookup_lt_Some _ _ _ Him) as Hlt.
  exists (length h), (h ++ [im]).
  split; [now apply run_resizeImageAbs_same_size|].
  split; [lia|]. split; [now apply lookup_app_l_Some|].
  apply list_lookup_middle. reflexivity.
Qed.

(** X4: resizing to any size of at least 1 x 1 and then back to the
    size of the image, itself at least 1 x 1, ends with an image of the
    original width and height. *)
Theorem resizeImageAbs_round_trip (h : Heap) (image : ref) (im : Image) (w' h' : Z) :
  h !! image = Some im ->
  1 <= w' -> 1 <= h' -> 1 <= im_w im -> 1 <= im_h im ->
  exists (there back : ref) (h1 h2 : Heap) (result : Image),
    resizeImageAbs image w' h' h = inr (there, h1) /\
    resizeImageAbs there (im_w im) (im_h im) h1 = inr (back, h2) /\
    h2 !! back = Some result /\
    im_w result = im_w im /\ im_h result = im_h im /\ mode result = mode im.
Proof.
  intros Him Hw' Hh' Hw Hh.
  destruct (resize_value_defined im (w', h') ANTIALIAS Hw' Hh') as (im1 & H1).
  destruct (resize_value_size _ _ _ _ H1) as (_ & _ & Em1).
  destruct (resize_value_defined im1 (im_w im, im_h im) ANTIALIAS Hw Hh) as (im2 & H2).
  destruct (resize_value_size _ _ _ _ H2) as (Ew & Eh & Em2). cbn [fst snd] in Ew, Eh.
  exists (length h + 0)%nat, (length h + 1)%nat, (h ++ [im1]), (h ++ [im1; im2]), im2.
  split.
  { rewrite <- (app_nil_r h) at 1.
    apply (run_resizeImageAbs h [] image im im1); [|exact H1].
    rewrite app_nil_r. exact Him. }
  split; [apply (run_resizeImageAbs h [im1] _ im1 im2); [points|exact H2]|].
  split; [apply (lookup_tail h [im1; im2] 1); reflexivity|].
  rewrite Em2, Em1. auto.
Qed.

Lemma py_int_one (n : Z) : py_int (inject_Z n * 1) = n.
Proof.
  unfold py_int, Qmult, inject_Z. cbn [Qnum Qden].
  change (Z.pos (1 * 1)) with 1. rewrite Z.quot_1_r. lia.
Qed.

(** X5: [resizeImage] by the factor 1 returns an exact copy of the
    image in a new object. *)
Theorem resizeImage_factor_1_copies (h : Heap) (image : ref) (im : Image) :
  h !! image = Some im ->
  exists (out : ref) (h2 : Heap),
    resizeImage image 1 h = inr (out, h2) /\
    out <> image /\ h2 !! image = Some im /\ h2 !! out = Some im.
Proof.
  intros Him. pose proof (lookup_lt_Some _ _ _ Him) as Hlt.
  exists (length h), (h ++ [im]).
  split.
  { unfold resizeImage.
    eapply run_bind; [apply run_get_width, Him|].
    eapply run_bind; [apply run_get_height, Him|].
    rewrite !py_int_one. now apply run_resizeImageAbs_same_size. }
  split; [lia|]. split; [now apply lookup_app_l_Some|].
  apply list_lookup_middle. reflexivity.
Qed.





(** ** Padding *)



(** ** Corner rounding *)

Lemma blend8_clear (a b : byte) : blend8 x00 a b = a.
Proof.
  unfold blend8. change (b2z x00) with 0. change (255 - 0) with 255.
  rewrite muldiv255_none, muldiv255_full, Z.add_0_r. apply z2b_b2z.
Qed.

Lemma px_map2_blend_clear (m : Mode) (a b : Pixel m) : px_map2 m (blend8 x00) a b = a.
Proof.
  destruct m; cbn in *;
    repeat match goal with p : (_ * _)%type |- _ => destruct p end;
    cbn; now rewrite ?blend8_clear.
Qed.

(** A pixel of an "RGBA" image after a paste without mask. *)
Lemma rgba_paste_plain (d s : Image) (pos : Z * Z) (x y : Z) :
  mode d = MRGBA -> in_bounds d x y = true ->
  PIL.to_RGBA (mode (PIL.paste_plain d s pos)) (px (PIL.paste_plain d s pos) x y)
  = if PIL.in_box pos s x y
    then PIL.to_RGBA (mode s) (px s (x - fst pos) (y - snd pos))
    else PIL.to_RGBA (mode d) (px d x y).
Proof.
  destruct d as [m w h p]. cbn [mode]. intros -> Hin.
  unfold PIL.paste_plain. destruct (PIL.clipped_away _ s pos) eqn:Hclip.
  - replace (PIL.in_box pos s x y) with false; [reflexivity|].
    symmetry. destruct pos as [x0 y0].
    unfold PIL.clipped_away, PIL.in_box, in_bounds, im_w, im_h in *.
    cbn [width height] in *.
    apply orb_true_iff in Hclip. rewrite !Z.leb_le in Hclip.
    rewrite !andb_true_iff, !Z.leb_le, !Z.ltb_lt in Hin.
    apply not_true_is_false. rewrite !andb_true_iff, !Z.leb_le, !Z.ltb_lt. lia.
  - cbn [mode px PIL.convert_image]. now destruct (PIL.in_box pos s x y).
Qed.

Lemma width_pasted (d s : Image) (pos : Z * Z) :
  width (PIL.paste_plain d s pos) = width d.
Proof. apply width_paste_plain. Qed.

Lemma height_pasted (d s : Image) (pos : Z * Z) :
  height (PIL.paste_plain d s pos) = height d.
Proof. apply width_paste_plain. Qed.

Lemma mode_pasted (d s : Image) (pos : Z * Z) :
  mode (PIL.paste_plain d s pos) = mode d.
Proof. apply width_paste_plain. Qed.

Lemma alpha_band_paste_plain (d s : Image) (pos : Z * Z) (x y : Z) :
  mode d = MRGBA -> in_bounds d x y = true ->
  alpha_band (PIL.paste_plain d s pos) x y
  = if PIL.in_box pos s x y
    then alpha_band s (x - fst pos) (y - snd pos)
    else alpha_band d x y.
Proof.
  intros Hm Hin. unfold alpha_band. rewrite rgba_paste_plain by assumption.
  now destruct (PIL.in_box pos s x y).
Qed.

(** A pixel of the rounded image: the pixel of the image blended onto
    transparency by the weight [alpha] gives it. *)
Lemma px_rounded (im : Image) (radius x y : Z) :
  0 <= x < im_w im -> 0 <= y < im_h im ->
  pixel_value (mode (rounded im radius)) (px (rounded im radius) x y)
  = pixel_value MRGBA
      (px_map2 MRGBA (blend8 (alpha_band (corner_alpha im radius) x y)) clear
         (PIL.to_RGBA (mode im) (px im x y))).
Proof.
  intros Hx Hy. unfold rounded, PIL.paste_blend.
  destruct (PIL.clipped_away _ im (0, 0)) eqn:Hclip.
  { exfalso. unfold PIL.clipped_away, im_w, im_h in Hclip.
    cbn [PIL.filled width height] in Hclip.
    unfold im_w, im_h in *. rewrite !Nat2Z.id in Hclip.
    apply orb_true_iff in Hclip. rewrite !Z.leb_le in Hclip. lia. }
  cbn [mode px PIL.filled fst snd PIL.convert_image].
  replace (PIL.in_box (0, 0) im x y) with true
    by (symmetry; unfold PIL.in_box; rewrite !andb_true_iff, !Z.leb_le, !Z.ltb_lt; lia).
  now rewrite !Z.sub_0_r.
Qed.

(** The weight [alpha] gives at a pixel of the image, read off the four
    pastes from the last one back. *)
Lemma alpha_band_corner_alpha (im : Image) (radius x y : Z) :
  0 <= radius -> 0 <= x < im_w im -> 0 <= y < im_h im ->
  let w := im_w im in
  let h := im_h im in
  let covered cx cy :=
    if ellipse_cover (0, 0, radius * 2, radius * 2) cx cy then xff else x00 in
  alpha_band (corner_alpha im radius) x y
  = if (w - radius <=? x) && (h - radius <=? y)
    then covered (x - w + 2 * radius) (y - h + 2 * radius)
    else if (w - radius <=? x) && (y <? radius) then covered (x - w + 2 * radius) y
    else if (x <? radius) && (h - radius <=? y) then covered x (y - h + 2 * radius)
    else if (x <? radius) && (y <? radius) then covered x y
    else xff.
Proof.
  intros Hr Hx Hy w h covered. unfold corner_alpha. cbv zeta.
  assert (Hcircle : forall cx cy cx' cy',
            0 <= cx < 2 * radius -> 0 <= cy < 2 * radius -> cx' = cx -> cy' = cy ->
            (let '(_, _, _, a) :=
               PIL.to_RGBA MRGBA (pixel_at (corner_circle radius) cx' cy') in a)
            = covered cx cy).
  { intros cx cy ? ? Hcx Hcy -> ->.
    unfold pixel_at, in_bounds, corner_circle, im_w, im_h, covered.
    cbn [PIL.ellipse_image PIL.filled width height mode px PIL.to_RGBA].
    destruct (Z.leb_spec 0 cx); [|lia]. destruct (Z.leb_spec 0 cy); [|lia].
    destruct (Z.ltb_spec cx (Z.of_nat (Z.to_nat (radius * 2)))); [|lia].
    destruct (Z.ltb_spec cy (Z.of_nat (Z.to_nat (radius * 2)))); [|lia].
    cbn [andb]. now destruct (ellipse_cover _ cx cy). }
  assert (Hmode : mode (corner_circle radius) = MRGBA) by reflexivity.
  do 4 (rewrite alpha_band_paste_plain;
        [ | now rewrite ?mode_pasted
          | unfold in_bounds, im_w, im_h; rewrite ?width_pasted, ?height_pasted;
            cbn [PIL.filled width height]; unfold im_w, im_h in *;
            rewrite !Nat2Z.id, !andb_true_iff, !Z.leb_le, !Z.ltb_lt; lia ]).
  unfold PIL.in_box, alpha_band, im_w, im_h.
  cbn [PIL.crop_image width height mode px fst snd PIL.filled PIL.to_RGBA opaque].
  unfold w, h, im_w, im_h in *.
  repeat match goal with
         | |- context [Z.leb ?a ?b] => destruct (Z.leb_spec a b)
         | |- context [Z.ltb ?a ?b] => destruct (Z.ltb_spec a b)
         end; cbn [andb]; try lia; try reflexivity.
  all: apply Hcircle; lia.
Qed.

(** X10: for a radius of at least 0, [roundCorners] returns a new
    "RGBA" object of the width and height of the image, whatever the
    mode of the image; the image passed in and every other object the
    store held before the call are left as they were. *)
Theorem roundCorners_returns_new_RGBA (h : Heap) (image : ref) (im : Image) (radius : Z) :
  h !! image = Some im -> 0 <= radius ->
  exists (out : ref) (h' : Heap) (result : Image),
    roundCorners image radius h = inr (out, h') /\
    out <> image /\ h' !! out = Some result /\
    mode result = MRGBA /\ width result = width im /\ height result = height im /\
    (forall (r : ref) (o : Image), h !! r = Some o -> h' !! r = Some o).
Proof.
  intros Him Hr. pose proof (lookup_lt_Some _ _ _ Him) as Hlt.
  eexists _, _, (rounded im radius).
  split; [apply run_roundCorners; eassumption|].
  split; [lia|]. split; [apply lookup_tail; reflexivity|].
  unfold rounded.
  destruct (width_paste_blend
              (PIL.filled MRGBA (Z.to_nat (im_w im)) (Z.to_nat (im_h im)) clear) im (0, 0)
              (alpha_band (corner_alpha im radius))) as (Ew & Eh & Em).
  split; [exact Em|].
  split; [rewrite Ew; cbn; unfold im_w; apply Nat2Z.id|].
  split; [rewrite Eh; cbn; unfold im_h; apply Nat2Z.id|].
  intros r o Hro. now apply lookup_app_l_Some.
Qed.

(** X11: a negative radius is refused before the image is looked at:
    the first [Image.new], asked for a side of [radius * 2] pixels,
    raises a ValueError. *)
Theorem roundCorners_negative_radius_raises (h : Heap) (image : ref) (radius : Z) :
  radius < 0 -> roundCorners image radius h = inl ValueError.
Proof.
  intros Hr. unfold roundCorners. apply run_bind_raise.
  unfold PIL.new. cbn [fst snd].
  destruct (Z.ltb_spec (radius * 2) 0); [reflexivity|lia].
Qed.

(** X12: [roundCorners] changes nothing outside the four corner
    squares of [radius] x [radius] pixels: every other pixel of the
    result is the pixel of the image (as "RGBA"). *)
Theorem roundCorners_keeps_outside_corners (h : Heap) (image : ref) (im : Image)
    (radius : Z) :
  h !! image = Some im -> 0 <= radius ->
  exists (out : ref) (h' : Heap) (result : Image),
    roundCorners image radius h = inr (out, h') /\
    h' !! out = Some result /\
    forall x y, 0 <= x < im_w im -> 0 <= y < im_h im ->
      radius <= x < im_w im - radius \/ radius <= y < im_h im - radius ->
      pixel_value (mode result) (px result x y)
      = pixel_value MRGBA (PIL.to_RGBA (mode im) (px im x y)).
Proof.
  intros Him Hr.
  eexists _, _, (rounded im radius).
  split; [apply run_roundCorners; eassumption|].
  split; [apply lookup_tail; reflexivity|].
  intros x y Hx Hy Hout. rewrite px_rounded by assumption.
  pose proof (alpha_band_corner_alpha im radius x y Hr Hx Hy) as Ha.
  cbv zeta in Ha. rewrite Ha. clear Ha.
  repeat match goal with
         | |- context [Z.leb ?a ?b] => destruct (Z.leb_spec a b)
         | |- context [Z.ltb ?a ?b] => destruct (Z.ltb_spec a b)
         end; cbn [andb]; try lia.
  all: now rewrite (px_map2_blend_opaque MRGBA).
Qed.

(** X13: when the four corner squares do not overlap
    ([2 * radius] is at most the width and the height), a pixel inside
    one of them is decided by the circle of diameter [2 * radius] drawn
    by [ImageDraw]: where the circle covers the corresponding point the
    pixel is the pixel of the image (as "RGBA"), elsewhere it is fully
    transparent, (0, 0, 0, 0). *)
Theorem roundCorners_cuts_corners (h : Heap) (image : ref) (im : Image) (radius : Z) :
  h !! image = Some im -> 0 <= radius ->
  2 * radius <= im_w im -> 2 * radius <= im_h im ->
  exists (out : ref) (h' : Heap) (result : Image),
    roundCorners image radius h = inr (out, h') /\
    h' !! out = Some result /\
    forall x y, 0 <= x < im_w im -> 0 <= y < im_h im ->
      x < radius \/ im_w im - radius <= x ->
      y < radius \/ im_h im - radius <= y ->
      pixel_value (mode result) (px result x y)
      = if ellipse_cover (0, 0, radius * 2, radius * 2)
             (circle_coordinate (im_w im) radius x)
             (circle_coordinate (im_h im) radius y)
        then pixel_value MRGBA (PIL.to_RGBA (mode im) (px im x y))
        else PTuple [0; 0; 0; 0].
Proof.
  intros Him Hr Hw Hh.
  eexists _, _, (rounded im radius).
  split; [apply run_roundCorners; eassumption|].
  split; [apply lookup_tail; reflexivity|].
  intros x y Hx Hy Hcx Hcy. rewrite px_rounded by assumption.
  pose proof (alpha_band_corner_alpha im radius x y Hr Hx Hy) as Ha.
  cbv zeta in Ha. rewrite Ha. clear Ha. unfold circle_coordinate.
  repeat match goal with
         | |- context [Z.leb ?a ?b] => destruct (Z.leb_spec a b)
         | |- context [Z.ltb ?a ?b] => destruct (Z.ltb_spec a b)
         end; cbn [andb]; try lia.
  all: destruct (ellipse_cover _ _ _);
    [now rewrite (px_map2_blend_opaque MRGBA)
    |now rewrite (px_map2_blend_clear MRGBA)].
Qed.

(** ** Radius as a percentage, anti-aliasing *)

Lemma py_int_percent (n : Z) : py_int (inject_Z n / 100) = n ÷ 100.
Proof.
  unfold py_int, Qdiv, Qmult, Qinv, inject_Z. cbn [Qnum Qden].
  change (Z.pos (1 * 100)) with 100. now rewrite Z.mul_1_r.
Qed.

Lemma run_roundCornersPercent (h : Heap) (image : ref) (im : Image) (percent : Z) :
  h !! image = Some im ->
  roundCornersPercent image percent h
  = roundCorners image ((Z.min (im_w im) (im_h im) * percent) ÷ 100) h.
Proof.
  intros Him. unfold roundCornersPercent.
  eapply run_bind; [apply run_size, Him|].
  cbv beta iota zeta. now rewrite py_int_percent.
Qed.

(** X14: for a percentage from 0 to 50 [roundCornersPercent] is
    [roundCorners] with the radius min(w, h) * percent / 100 rounded
    down, a radius of at most half the shorter side: the four corner
    squares never overlap. *)
Theorem roundCornersPercent_radius (h : Heap) (image : ref) (im : Image) (percent : Z) :
  h !! image = Some im -> 0 <= percent <= 50 ->
  let r := Z.min (im_w im) (im_h im) * percent / 100 in
  roundCornersPercent image percent h = roundCorners image r h /\
  0 <= r /\ 2 * r <= im_w im /\ 2 * r <= im_h im.
Proof.
  intros Him Hp r.
  assert (Hw : 0 <= im_w im) by (unfold im_w; lia).
  assert (Hh : 0 <= im_h im) by (unfold im_h; lia).
  assert (Hm : 0 <= Z.min (im_w im) (im_h im) * percent) by nia.
  split.
  { rewrite (run_roundCornersPercent h image im percent Him).
    unfold r. rewrite Z.quot_div_nonneg by lia. reflexivity. }
  assert (Hr : 0 <= r) by (unfold r; apply Z.div_pos; lia).
  assert (Hle : 100 * r <= Z.min (im_w im) (im_h im) * percent)
    by (unfold r; apply Z.mul_div_le; lia).
  repeat split; [exact Hr| |]; nia.
Qed.

(** X15: a negative percentage raises a ValueError only when it amounts
    to a whole pixel, min(w, h) * percent <= -100; a smaller one is
    truncated towards zero by [int] and rounds nothing, like the
    radius 0. *)
Theorem roundCornersPercent_negative (h : Heap) (image : ref) (im : Image) (percent : Z) :
  h !! image = Some im -> percent < 0 ->
  roundCornersPercent image percent h
  = if Z.min (im_w im) (im_h im) * percent <=? -100
    then inl ValueError
    else roundCorners image 0 h.
Proof.
  intros Him Hp. rewrite (run_roundCornersPercent h image im percent Him).
  assert (Hw : 0 <= im_w im) by (unfold im_w; lia).
  assert (Hh : 0 <= im_h im) by (unfold im_h; lia).
  set (n := Z.min (im_w im) (im_h im) * percent).
  assert (Hn : n <= 0) by (unfold n; nia).
  assert (Hq : n ÷ 100 = - ((- n) / 100)).
  { rewrite <- (Z.opp_involutive n) at 1.
    rewrite Z.quot_opp_l by lia. now rewrite Z.quot_div_nonneg by lia. }
  destruct (Z.leb_spec n (-100)) as [Hbig | Hsmall].
  - assert (1 <= (- n) / 100) by (apply Z.div_le_lower_bound; lia).
    unfold roundCorners. apply run_bind_raise. unfold PIL.new. cbn [fst snd].
    destruct (Z.ltb_spec (n ÷ 100 * 2) 0); [reflexivity|lia].
  - rewrite Hq, Z.div_small by lia. reflexivity.
Qed.

Lemma run_resizeImage (hp l : Heap) (image : ref) (im im' : Image) (factor : Q) :
  (hp ++ l) !! image = Some im ->
  PIL.resize_value im
    (py_int (inject_Z (im_w im) * factor), py_int (inject_Z (im_h im) * factor)) ANTIALIAS
  = Some im' ->
  resizeImage image factor (hp ++ l)
  = inr ((length hp + length l)%nat, hp ++ (l ++ [im'])).
Proof.
  intros Him Hv. unfold resizeImage.
  eapply run_bind; [apply run_get_width, Him|].
  eapply run_bind; [apply run_get_height, Him|].
  now apply (run_resizeImageAbs hp l image im im').
Qed.

(** The two closing steps of the anti-aliased roundings, on the doubled
    image: round, then halve. *)
Lemma run_round_then_half (h : Heap) (im big : Image) (radius : Z)
    (round : ref -> M ref) :
  0 <= radius -> 1 <= im_w im -> 1 <= im_h im ->
  im_w big = 2 * im_w im -> im_h big = 2 * im_h im ->
  round (length h) (h ++ [big]) = roundCorners (length h) radius (h ++ [big]) ->
  exists (out : ref) (l : Heap) (result : Image),
    (imageTemp ← round (length h); resizeImage imageTemp (1 / inject_Z 2)) (h ++ [big])
    = inr (out, h ++ l) /\
    (length h <= out)%nat /\ (h ++ l) !! out = Some result /\
    mode result = MRGBA /\ im_w result = im_w im /\ im_h result = im_h im.
Proof.
  intros Hr Hw Hh Ew Eh Hround.
  assert (Hbig : (h ++ [big]) !! length h = Some big)
    by (apply list_lookup_middle; reflexivity).
  pose proof (run_roundCorners (h ++ [big]) (length h) big radius Hbig Hr) as Hrun.
  set (r := rounded big radius) in *.
  assert (Hsize : mode r = MRGBA /\ im_w r = 2 * im_w im /\ im_h r = 2 * im_h im).
  { unfold r, rounded.
    destruct (width_paste_blend
                (PIL.filled MRGBA (Z.to_nat (im_w big)) (Z.to_nat (im_h big)) clear)
                big (0, 0) (alpha_band (corner_alpha big radius))) as (Fw & Fh & Fm).
    unfold im_w, im_h in *. rewrite Fw, Fh, Fm.
    cbn [PIL.filled width height mode]. rewrite !Nat2Z.id. auto. }
  destruct Hsize as (Em & Fw & Fh).
  destruct (resize_value_defined r (im_w im, im_h im) ANTIALIAS Hw Hh) as (res & Hres).
  destruct (resize_value_size _ _ _ _ Hres) as (Gw & Gh & Gm). cbn [fst snd] in Gw, Gh.
  set (l1 := [corner_circle radius; corner_alpha big radius; r] ++ corner_crops radius
               ++ [corner_mask big radius]) in *.
  exists (length (h ++ [big]) + length l1)%nat, ([big] ++ l1 ++ [res]), res.
  split.
  { eapply run_bind; [rewrite Hround; exact Hrun|].
    replace (h ++ [big] ++ l1 ++ [res]) with ((h ++ [big]) ++ l1 ++ [res])
      by now rewrite <- app_assoc.
    apply (run_resizeImage (h ++ [big]) l1 _ r res).
    - apply lookup_tail. reflexivity.
    - change (1 / inject_Z 2)%Q with (1 # 2)%Q.
      rewrite Fw, Fh, !py_int_half. exact Hres. }
  split; [rewrite length_app; lia|].
  split.
  { replace (h ++ [big] ++ l1 ++ [res]) with (((h ++ [big]) ++ l1) ++ [res])
      by now rewrite <- !app_assoc.
    rewrite <- length_app. apply list_lookup_middle. reflexivity. }
  rewrite Gm. auto.
Qed.

Lemma run_double (h : Heap) (image : ref) (im : Image) :
  h !! image = Some im -> 1 <= im_w im -> 1 <= im_h im ->
  exists big : Image,
    resizeImage image (inject_Z 2) h = inr (length h, h ++ [big]) /\
    im_w big = 2 * im_w im /\ im_h big = 2 * im_h im.
Proof.
  intros Him Hw Hh.
  destruct (resize_value_defined im (2 * im_w im, 2 * im_h im) ANTIALIAS) as (big & Hbig);
    [cbn [fst]; lia|cbn [snd]; lia|].
  destruct (resize_value_size _ _ _ _ Hbig) as (Ew & Eh & _). cbn [fst snd] in Ew, Eh.
  exists big. split; [|auto].
  rewrite <- (app_nil_r h) at 1.
  replace (length h) with (length h + length (@nil Image))%nat by (cbn; lia).
  apply (run_resizeImage h [] image im big); [rewrite app_nil_r; exact Him|].
  change (inject_Z 2) with 2%Q. rewrite !py_int_double. exact Hbig.
Qed.

(** X16: on an image of at least 1 x 1 pixels and for a radius of at
    least 0, [roundCornersAntiAlias] returns a new "RGBA" image of the
    width and height of the image; the objects the store held before
    are left as they were. *)
Theorem roundCornersAntiAlias_size (h : Heap) (image : ref) (im : Image) (radius : Z) :
  h !! image = Some im -> 1 <= im_w im -> 1 <= im_h im -> 0 <= radius ->
  exists (out : ref) (h' : Heap) (result : Image),
    roundCornersAntiAlias image radius h = inr (out, h') /\
    out <> image /\ h' !! out = Some result /\
    mode result = MRGBA /\ im_w result = im_w im /\ im_h result = im_h im /\
    (forall (r : ref) (o : Image), h !! r = Some o -> h' !! r = Some o).
Proof.
  intros Him Hw Hh Hr. pose proof (lookup_lt_Some _ _ _ Him) as Hlt.
  destruct (run_double h image im Him Hw Hh) as (big & Hbig & Ew & Eh).
  destruct (run_round_then_half h im big (radius * 2)
              (fun imageTemp => roundCorners imageTemp (radius * 2))
              ltac:(lia) Hw Hh Ew Eh eq_refl)
    as (out & l & result & Hrun & Hout & Hres & Hsize).
  exists out, (h ++ l), result.
  split; [unfold roundCornersAntiAlias; cbv zeta; eapply run_bind; [exact Hbig|exact Hrun]|].
  split; [lia|]. split; [exact Hres|].
  destruct Hsize as (? & ? & ?). repeat split; try assumption.
  intros r o Hro. now apply lookup_app_l_Some.
Qed.

(** X17: the same holds of [roundCornersPercentAntiAlias] for every
    percentage of at least 0. *)
Theorem roundCornersPercentAntiAlias_size (h : Heap) (image : ref) (im : Image)
    (percent : Z) :
  h !! image = Some im -> 1 <= im_w im -> 1 <= im_h im -> 0 <= percent ->
  exists (out : ref) (h' : Heap) (result : Image),
    roundCornersPercentAntiAlias image percent h = inr (out, h') /\
    out <> image /\ h' !! out = Some result /\
    mode result = MRGBA /\ im_w result = im_w im /\ im_h result = im_h im /\
    (forall (r : ref) (o : Image), h !! r = Some o -> h' !! r = Some o).
Proof.
  intros Him Hw Hh Hp. pose proof (lookup_lt_Some _ _ _ Him) as Hlt.
  destruct (run_double h image im Him Hw Hh) as (big & Hbig & Ew & Eh).
  assert (Hlook : (h ++ [big]) !! length h = Some big)
    by (apply list_lookup_middle; reflexivity).
  destruct (run_round_then_half h im big
              ((Z.min (im_w big) (im_h big) * percent) ÷ 100)
              (fun imageTemp => roundCornersPercent imageTemp percent))
    as (out & l & result & Hrun & Hout & Hres & Hsize);
    [apply Z.quot_pos; nia|exact Hw|exact Hh|exact Ew|exact Eh
    |exact (run_roundCornersPercent _ _ big percent Hlook)|].
  exists out, (h ++ l), result.
  split; [unfold roundCornersPercentAntiAlias; cbv zeta;
          eapply run_bind; [exact Hbig|exact Hrun]|].
  split; [lia|]. split; [exact Hres|].
  destruct Hsize as (? & ? & ?). repeat split; try assumption.
  intros r o Hro. now apply lookup_app_l_Some.
Qed.

(** ** Drop shadows *)

Lemma mode_shadow_canvas (im : Image) (n : nat) (b ox oy : Z) (bg sh : Pixel MRGBA) :
  mode (shadow_canvas im n b ox oy bg sh) = MRGBA.
Proof.
  unfold shadow_canvas. cbv zeta.
  repeat match goal with
         | |- context [mode (PIL.paste_blend ?d ?s ?p ?w)] =>
             destruct (width_paste_blend d s p w) as (_ & _ & ->)
         | |- context [mode (Nat.iter ?k PIL.blur_image ?c)] =>
             rewrite (mode_blurred k c)
         end.
  reflexivity.
Qed.

(** X18: on an image of at least 1 x 1 pixels [addDropShadowSimple]
    returns, for every offset [ox, oy], a new "RGBA" image of the width
    and height of the image; the image passed in is left as it was. *)
Theorem addDropShadowSimple_size (h : Heap) (image : ref) (im : Image) (ox oy : Z) :
  h !! image = Some im -> 1 <= im_w im -> 1 <= im_h im ->
  exists (out : ref) (h' : Heap) (result : Image),
    addDropShadowSimple image [ox; oy] h = inr (out, h') /\
    out <> image /\ h' !! image = Some im /\ h' !! out = Some result /\
    mode result = MRGBA /\ im_w result = im_w im /\ im_h result = im_h im.
Proof.
  intros Him Hw Hh.
  set (border := Z.max (Z.abs ox) (Z.abs oy)).
  set (bg := (xff, xff, xff, x00) : Pixel MRGBA).
  set (sh := (x00, x00, x00, z2b 85) : Pixel MRGBA).
  destruct (run_addDropShadowComplex h image im 11 border ox oy "#ffffff00" "#00000055"
              bg sh Him ltac:(lia) ltac:(lia) eq_refl eq_refl)
    as (canvas & l & Hcanvas & Hrun).
  destruct (resize_value_defined (shadow_canvas im (Z.to_nat 11) border ox oy bg sh)
              (im_w im, im_h im) ANTIALIAS Hw Hh) as (result & Hres).
  destruct (resize_value_size _ _ _ _ Hres) as (Ew & Eh & Em). cbn [fst snd] in Ew, Eh.
  pose proof (lookup_lt_Some _ _ _ Him) as Hlt.
  exists (length h + length l)%nat, (h ++ (l ++ [result])), result.
  split.
  { change (addDropShadowSimple image [ox; oy] h)
      with (addDropShadowComplex image 11 border [ox; oy] "#ffffff00" "#00000055" h).
    rewrite Hrun. eapply run_resizeImageAbs; [exact Hcanvas|exact Hres]. }
  split; [lia|]. split; [now apply lookup_app_l_Some|].
  split; [apply lookup_tail, list_lookup_middle; reflexivity|].
  rewrite Em, mode_shadow_canvas. auto.
Qed.

(** X19: [addDropShadowSimple] needs an offset of two entries: with
    an empty one it raises a ValueError, [max] of no value, and with a
    single entry an IndexError, when [addDropShadowComplex] reads the
    second. *)
Theorem addDropShadowSimple_short_offset_raises (h : Heap) (image : ref) (im : Image)
    (offset : list Z) :
  h !! image = Some im -> (length offset < 2)%nat ->
  addDropShadowSimple image offset h
  = inl (match offset with [] => ValueError | _ :: _ => IndexError end).
Proof.
  intros Him Hlen. destruct offset as [|ox [|oy rest]]; [reflexivity| |cbn in Hlen; lia].
  unfold addDropShadowSimple. eapply run_bind; [reflexivity|].
  unfold addDropShadowComplex.
  eapply run_bind; [apply run_size, Him|].
  eapply run_bind; [apply run_size, Him|].
  eapply run_bind; [reflexivity|].
  eapply run_bind; [apply run_size, Him|].
  apply run_bind_raise. reflexivity.
Qed.

(** X20: an offset of fewer than two entries makes
    [addDropShadowComplex] raise an IndexError, whatever the other
    arguments: no canvas is created. *)
Theorem addDropShadowComplex_short_offset_raises (h : Heap) (image : ref) (im : Image)
    (iterations border : Z) (offset : list Z) (backgroundColour shadowColour : string) :
  h !! image = Some im -> (length offset < 2)%nat ->
  addDropShadowComplex image iterations border offset backgroundColour shadowColour h
  = inl IndexError.
Proof.
  intros Him Hlen. unfold addDropShadowComplex.
  eapply run_bind; [apply run_size, Him|].
  eapply run_bind; [apply run_size, Him|].
  destruct offset as [|ox [|oy rest]]; [| |cbn in Hlen; lia].
  - apply run_bind_raise. reflexivity.
  - eapply run_bind; [reflexivity|].
    eapply run_bind; [apply run_size, Him|].
    apply run_bind_raise. reflexivity.
Qed.

(** X21: a border so negative that the canvas would have a side below
    0 pixels makes [addDropShadowComplex] raise a ValueError, when the
    canvas is created. *)
Theorem addDropShadowComplex_negative_canvas_raises (h : Heap) (image : ref) (im : Image)
    (iterations border ox oy : Z) (backgroundColour shadowColour : string) :
  h !! image = Some im ->
  im_w im + Z.abs ox + 2 * border < 0 \/ im_h im + Z.abs oy + 2 * border < 0 ->
  addDropShadowComplex image iterations border [ox; oy] backgroundColour shadowColour h
  = inl ValueError.
Proof.
  intros Him Hneg. unfold addDropShadowComplex.
  eapply run_bind; [apply run_size, Him|].
  eapply run_bind; [apply run_size, Him|].
  eapply run_bind; [reflexivity|].
  eapply run_bind; [apply run_size, Him|].
  eapply run_bind; [reflexivity|]. cbn [fst snd].
  apply run_bind_raise. unfold PIL.new. cbn [fst snd].
  replace ((im_w im + Z.abs ox + 2 * border <? 0) || (im_h im + Z.abs oy + 2 * border <? 0))
    with true; [reflexivity|].
  symmetry. apply orb_true_iff. rewrite !Z.ltb_lt. exact Hneg.
Qed.

(** ** Black and white *)

Lemma cmpTup_loop_within (a b : list Z) (indices : list nat) :
  Forall (fun i => (i < length a)%nat /\ (i < length b)%nat) indices ->
  exists c : bool,
    cmpTup_loop (PTuple a) (PTuple b) indices = inr c /\
    (c = true <->
     forall i x y, In i indices -> a !! i = Some x -> b !! i = Some y -> Z.abs (x - y) <= 10).
Proof.
  induction indices as [|i rest IH]; intros Hall.
  - exists true. split; [reflexivity|]. split; [intros _ i x y []|reflexivity].
  - apply Forall_cons in Hall as [[Ha Hb] Hrest].
    destruct (IH Hrest) as (c & Hc & Hiff).
    destruct (lookup_lt_is_Some_2 a i Ha) as [x Hx].
    destruct (lookup_lt_is_Some_2 b i Hb) as [y Hy].
    cbn [cmpTup_loop py_item]. rewrite Hx, Hy.
    destruct ((y + 10 <? x) || (x <? y - 10)) eqn:E.
    + exists false. split; [reflexivity|]. split; [discriminate|].
      intros Hin. specialize (Hin i x y (or_introl eq_refl) Hx Hy).
      apply orb_true_iff in E. rewrite !Z.ltb_lt in E. lia.
    + exists c. split; [exact Hc|]. rewrite Hiff.
      apply orb_false_iff in E. rewrite !Z.ltb_ge in E.
      split.
      * intros H j x' y' [<- | Hj] Hx' Hy'; [|now apply (H j)].
        rewrite Hx in Hx'. rewrite Hy in Hy'.
        injection Hx' as <-. injection Hy' as <-. lia.
      * intros H j x' y' Hj. apply H. now right.
Qed.

(** X22: [cmpTup] compares band by band with a tolerance of 10: on a
    first tuple no longer than the second it returns a boolean, which
    is [True] exactly when every band of the first is within 10 of the
    band of the second at the same place; what the second tuple has
    beyond the length of the first is not looked at. *)
Theorem cmpTup_tolerance (a b : list Z) :
  (length a <= length b)%nat ->
  exists c : bool,
    cmpTup (PTuple a) (PTuple b) = inr c /\
    (c = true <->
     forall i x y, a !! i = Some x -> b !! i = Some y -> Z.abs (x - y) <= 10).
Proof.
  intros Hlen.
  destruct (cmpTup_loop_within a b (seq 0 (length a))) as (c & Hc & Hiff).
  { apply Forall_forall. intros i Hi. apply list_elem_of_In, in_seq in Hi. lia. }
  exists c. split; [exact Hc|]. rewrite Hiff. split.
  - intros H i x y Hx. apply H; [|exact Hx]. apply in_seq.
    pose proof (lookup_lt_Some _ _ _ Hx). lia.
  - intros H i x y _. apply H.
Qed.

Lemma cmpTup_loop_short (a b : list Z) :
  (length b < length a)%nat ->
  (forall i x y, a !! i = Some x -> b !! i = Some y -> Z.abs (x - y) <= 10) ->
  forall (n s : nat), (s + n = length a)%nat -> (s <= length b)%nat ->
    cmpTup_loop (PTuple a) (PTuple b) (seq s n) = inl IndexError.
Proof.
  intros Hlen Hnear n. induction n as [|n IH]; intros s Hs Hsb; [lia|].
  cbn [seq cmpTup_loop py_item].
  destruct (lookup_lt_is_Some_2 a s ltac:(lia)) as [x Hx]. rewrite Hx.
  destruct (b !! s) as [y|] eqn:Hy; [|reflexivity].
  pose proof (Hnear s x y Hx Hy) as Hxy.
  pose proof (lookup_lt_Some _ _ _ Hy) as Hlt.
  destruct (Z.ltb_spec (y + 10) x); [lia|]. destruct (Z.ltb_spec x (y - 10)); [lia|].
  cbn [orb]. apply IH; lia.
Qed.

(** X23: when the second tuple is shorter than the first and agrees
    with it, within the tolerance, on every band it has, [cmpTup] runs
    off its end and raises an IndexError. *)
Theorem cmpTup_short_second_raises (a b : list Z) :
  (length b < length a)%nat ->
  (forall i x y, a !! i = Some x -> b !! i = Some y -> Z.abs (x - y) <= 10) ->
  cmpTup (PTuple a) (PTuple b) = inl IndexError.
Proof.
  intros Hlen Hnear. unfold cmpTup. cbn [py_len].
  apply (cmpTup_loop_short a b Hlen Hnear); lia.
Qed.

(** X24: a mode that is none of the four known ones makes
    [convertBlackAndWhite], on an image of at least 1 x 1 pixels, raise
    an UnboundLocalError: [threshold] was never bound when [point] is
    to be called with it. *)
Theorem convertBlackAndWhite_unknown_mode_raises (h : Heap) (image : ref) (im : Image)
    (colour_mode : string) :
  h !! image = Some im -> 1 <= im_w im -> 1 <= im_h im ->
  colour_mode <> "filter-darker"%string -> colour_mode <> "filter-lighter"%string ->
  colour_mode <> "background"%string -> colour_mode <> "foreground"%string ->
  convertBlackAndWhite image colour_mode h = inl UnboundLocalError.
Proof.
  intros Him Hw Hh Hd Hl Hb Hf.
  apply String.eqb_neq in Hd, Hl, Hb, Hf.
  set (grey := PIL.convert_image im ML).
  set (one := if (im_w grey =? 1) && (im_h grey =? 1) then grey
              else PIL.resize_image BICUBIC grey 1 1).
  assert (Hloc : PIL.locate one (0, 0) = Some (0, 0)).
  { unfold one. change (im_w grey) with (im_w im). change (im_h grey) with (im_h im).
    destruct ((im_w im =? 1) && (im_h im =? 1)); now apply locate_origin. }
  rewrite <- (app_nil_r h) at 1. unfold convertBlackAndWhite.
  rewrite Hd, Hl, Hb, Hf. cbn [orb].
  eapply run_bind; [reflexivity|].
  eapply run_bind; [apply run_convert; points|]; tidy.
  eapply run_bind; [apply (run_thumbnail_1x1 h [grey] 0 grey eq_refl Hw Hh)|]; tidy.
  fold one.
  eapply run_bind; [eapply run_getpixel; [points|exact Hloc|reflexivity]|].
  cbv zeta. apply run_bind_raise.
  eapply run_bind; [apply run_convert; points|]; tidy.
  apply run_bind_raise. reflexivity.
Qed.

(** X25: an image of a single pixel comes out white from both filter
    modes, whatever its colour: the pixel is its own average, and
    neither strictly darker nor strictly lighter than it. *)
Theorem convertBlackAndWhite_single_pixel_white (h : Heap) (image : ref) (im : Image)
    (darker : bool) :
  h !! image = Some im -> im_w im = 1 -> im_h im = 1 ->
  exists (out : ref) (h' : Heap) (result : Image),
    convertBlackAndWhite image (if darker then "filter-darker" else "filter-lighter") h
    = inr (out, h') /\
    h' !! out = Some result /\ width result = width im /\ height result = height im /\
    pixel_value (mode result) (px result 0 0) = white.
Proof.
  intros Him Hw Hh.
  destruct (run_convertBlackAndWhite_filter darker h image im Him ltac:(lia) ltac:(lia))
    as (l & Hlen & Hrun).
  eexists _, _, _. split; [exact Hrun|].
  split; [apply lookup_tail; rewrite <- Hlen; apply list_lookup_middle; reflexivity|].
  split; [reflexivity|]. split; [reflexivity|].
  unfold thresholded. cbn [mode px PIL.convert_image PIL.to_RGBA].
  rewrite apply_lut_range. unfold average_luminance. rewrite Hw, Hh.
  cbn [Z.eqb Pos.eqb andb px mode PIL.convert_image].
  destruct darker; unfold darker_than, lighter_than; rewrite Z.ltb_irrefl; reflexivity.
Qed.

(** ** The filter colour of the background and foreground modes *)

Lemma insert_desc_perm {A} (key : A -> Z) (x : A) (l : list A) :
  Permutation (insert_desc key x l) (x :: l).
Proof.
  induction l as [|y l IH]; [reflexivity|].
  cbn [insert_desc]. destruct (key x <? key y); [|reflexivity].
  rewrite IH. apply perm_swap.
Qed.

Lemma sorted_reverse_perm {A} (key : A -> Z) (l : list A) :
  Permutation (sorted_reverse key l) l.
Proof.
  induction l as [|x l IH]; [reflexivity|].
  cbn [sorted_reverse fold_right]. fold (sorted_reverse key l).
  rewrite insert_desc_perm. now apply perm_skip.
Qed.

Lemma insert_desc_sorted {A} (key : A -> Z) (x : A) (l : list A) :
  StronglySorted (fun a b => key b <= key a) l ->
  StronglySorted (fun a b => key b <= key a) (insert_desc key x l).
Proof.
  induction l as [|y l IH]; intros Hs.
  - repeat constructor.
  - apply StronglySorted_inv in Hs as [Hs Hy]. cbn [insert_desc].
    destruct (Z.ltb_spec (key x) (key y)) as [Hlt | Hge].
    + constructor; [now apply IH|].
      rewrite (insert_desc_perm key x l). constructor; [lia|exact Hy].
    + constructor; [now constructor|].
      constructor; [lia|]. eapply Forall_impl; [exact Hy|].
      cbn. intros z Hz. lia.
Qed.

Lemma sorted_reverse_sorted {A} (key : A -> Z) (l : list A) :
  StronglySorted (fun a b => key b <= key a) (sorted_reverse key l).
Proof.
  induction l as [|x l IH]; [constructor|].
  cbn [sorted_reverse fold_right]. fold (sorted_reverse key l).
  now apply insert_desc_sorted.
Qed.

Lemma histogram_in (data : list PyVal) (n : Z) (c : PyVal) :
  In (n, c) (PIL.histogram data)
  <-> In c data /\ n = Z.of_nat (count_occ PIL.PyVal_eq_dec data c).
Proof.
  unfold PIL.histogram. rewrite in_map_iff. split.
  - intros (c' & Heq & Hin). injection Heq as <- <-.
    apply nodup_In in Hin. now split.
  - intros [Hin ->]. exists c. split; [reflexivity|]. now apply nodup_In.
Qed.

(** The colours [sorted] ranks: the histogram of the "RGBA" conversion,
    in descending order of count. *)
Lemma ranked_colours (im : Image) :
  (PIL.distinct_colours (PIL.convert_image im MRGBA) <= 256)%nat ->
  exists colors : list (Z * PyVal),
    PIL.getcolors_image (PIL.convert_image im MRGBA) 256 = Some colors /\
    Permutation (sorted_reverse getKey colors)
      (PIL.histogram (getdata (PIL.convert_image im MRGBA))) /\
    StronglySorted (fun a b => getKey b <= getKey a) (sorted_reverse getKey colors).
Proof.
  intros Hfew. eexists. split; [|split].
  - rewrite getcolors_rgba. destruct (Z.ltb_spec 256 (Z.of_nat (PIL.distinct_colours
      (PIL.convert_image im MRGBA)))); [lia|reflexivity].
  - rewrite sorted_reverse_perm. apply table_order_perm.
  - apply sorted_reverse_sorted.
Qed.

Lemma ranked_colour_pixel (im : Image) (n : Z) (c : PyVal) :
  In (n, c) (PIL.histogram (getdata (PIL.convert_image im MRGBA))) ->
  exists q : Pixel MRGBA, c = pixel_value MRGBA q.
Proof.
  intros Hin. apply histogram_in in Hin as [Hin _].
  apply getdata_values in Hin as (x & y & _ & _ & ->).
  now exists (px (PIL.convert_image im MRGBA) x y).
Qed.

Lemma count_occ_ranked (data : list PyVal) (ranked : list (Z * PyVal)) (c : PyVal) :
  Permutation ranked (PIL.histogram data) ->
  (0 < count_occ PIL.PyVal_eq_dec data c)%nat ->
  In (Z.of_nat (count_occ PIL.PyVal_eq_dec data c), c) ranked.
Proof.
  intros Hperm Hpos. apply (Permutation_in _ (Permutation_sym Hperm)).
  apply histogram_in. split; [|reflexivity].
  now apply (count_occ_In PIL.PyVal_eq_dec).
Qed.

(** X26: on an image of at least 1 x 1 pixels and at most 256 colours
    the background mode picks a colour of the image that no colour
    occurs more often than, and returns an image of the same size in
    which a pixel is white when every band of it (as "RGBA") is within
    10 of that colour, and black otherwise. *)
Theorem convertBlackAndWhite_background_dominant (h : Heap) (image : ref) (im : Image) :
  h !! image = Some im -> 1 <= im_w im -> 1 <= im_h im ->
  (PIL.distinct_colours (PIL.convert_image im MRGBA) <= 256)%nat ->
  let data := getdata (PIL.convert_image im MRGBA) in
  let count := count_occ PIL.PyVal_eq_dec data in
  exists (out : ref) (h' : Heap) (result : Image) (q : Pixel MRGBA),
    convertBlackAndWhite image "background" h = inr (out, h') /\
    h' !! out = Some result /\
    width result = width im /\ height result = height im /\
    In (pixel_value MRGBA q) data /\
    (forall c, (count c <= count (pixel_value MRGBA q))%nat) /\
    forall x y, 0 <= x < im_w im -> 0 <= y < im_h im ->
      pixel_value (mode result) (px result x y)
      = if close (PIL.to_RGBA (mode im) (px im x y)) q then white else black.
Proof.
  intros Him Hw Hh Hfew data count.
  destruct (ranked_colours im Hfew) as (colors & Hcolors & Hperm & Hsorted).
  fold data in Hperm.
  assert (Hdata : In (pixel_value MRGBA (PIL.to_RGBA (mode im) (px im 0 0))) data)
    by (apply (getdata_in (PIL.convert_image im MRGBA) 0 0);
        unfold im_w, im_h in *; cbn [PIL.convert_image width height]; lia).
  destruct (sorted_reverse getKey colors) as [|[n c] rest] eqn:Hranked.
  { apply (count_occ_In PIL.PyVal_eq_dec) in Hdata.
    destruct (count_occ_ranked data [] _ Hperm Hdata). }
  assert (Hhead : In (n, c) (PIL.histogram data))
    by (apply (Permutation_in _ Hperm); now left).
  destruct (ranked_colour_pixel im n c Hhead) as (q & ->).
  apply histogram_in in Hhead as [Hin Hn].
  apply StronglySorted_inv in Hsorted as [_ Hmax].
  destruct (run_convertBlackAndWhite_ground true h image im colors n q Him Hw Hh Hcolors)
    as (l & Hlen & Hrun); [now rewrite Hranked|].
  eexists _, _, _, q. split; [exact Hrun|].
  split; [apply lookup_tail; rewrite <- Hlen; apply list_lookup_middle; reflexivity|].
  split; [reflexivity|]. split; [reflexivity|]. split; [exact Hin|].
  split.
  - intros c. fold count in Hn.
    destruct (Nat.eq_0_gt_0_cases (count c)) as [-> | Hpos]; [lia|].
    destruct (count_occ_ranked data _ c Hperm Hpos) as [Heq | Hrest].
    + apply (f_equal snd) in Heq. cbn [snd] in Heq. rewrite <- Heq. apply le_n.
    + rewrite Forall_forall in Hmax. apply list_elem_of_In, Hmax in Hrest.
      unfold getKey in Hrest. cbn [fst] in Hrest. fold count in Hrest. lia.
  - intros x y Hx Hy. cbn [mode px PIL.convert_image PIL.to_RGBA].
    rewrite paint_all by assumption. unfold recoloured.
    now destruct (close _ q).
Qed.

(** X27: on an image of 2 to 256 colours the foreground mode picks the
    colour ranked second: a colour of the image, other than the one
    ranked first, that no colour but the first occurs more often than.
    It returns an image of the same size in which a pixel is black
    when every band of it (as "RGBA") is within 10 of that colour, and
    white otherwise. *)
Theorem convertBlackAndWhite_foreground_second (h : Heap) (image : ref) (im : Image) :
  h !! image = Some im ->
  (2 <= PIL.distinct_colours (PIL.convert_image im MRGBA) <= 256)%nat ->
  let data := getdata (PIL.convert_image im MRGBA) in
  let count := count_occ PIL.PyVal_eq_dec data in
  exists (out : ref) (h' : Heap) (result : Image) (q1 q2 : Pixel MRGBA),
    convertBlackAndWhite image "foreground" h = inr (out, h') /\
    h' !! out = Some result /\
    width result = width im /\ height result = height im /\
    q1 <> q2 /\ In (pixel_value MRGBA q2) data /\
    (count (pixel_value MRGBA q2) <= count (pixel_value MRGBA q1))%nat /\
    (forall c, c <> pixel_value MRGBA q1 ->
               (count c <= count (pixel_value MRGBA q2))%nat) /\
    forall x y, 0 <= x < im_w im -> 0 <= y < im_h im ->
      pixel_value (mode result) (px result x y)
      = if close (PIL.to_RGBA (mode im) (px im x y)) q2 then black else white.
Proof.
  intros Him [Htwo Hfew] data count.
  destruct (ranked_colours im Hfew) as (colors & Hcolors & Hperm & Hsorted).
  fold data in Hperm.
  assert (Hlen2 : length (sorted_reverse getKey colors)
                  = PIL.distinct_colours (PIL.convert_image im MRGBA)).
  { rewrite (Permutation_length Hperm), length_histogram. reflexivity. }
  destruct (sorted_reverse getKey colors) as [|[n1 c1] [|[n2 c2] rest]] eqn:Hranked;
    [cbn [length] in Hlen2; lia|cbn [length] in Hlen2; lia|]. clear Hlen2.
  assert (H1 : In (n1, c1) (PIL.histogram data))
    by (apply (Permutation_in _ Hperm); now left).
  assert (H2 : In (n2, c2) (PIL.histogram data))
    by (apply (Permutation_in _ Hperm); right; now left).
  destruct (ranked_colour_pixel im n1 c1 H1) as (q1 & ->).
  destruct (ranked_colour_pixel im n2 c2 H2) as (q2 & ->).
  apply histogram_in in H1 as [Hin1 Hn1]. apply histogram_in in H2 as [Hin2 Hn2].
  fold count in Hn1, Hn2.
  assert (Hsize : 1 <= im_w im /\ 1 <= im_h im).
  { apply getdata_values in Hin1 as (x & y & Hx & Hy & _).
    change (im_w (PIL.convert_image im MRGBA)) with (im_w im) in Hx.
    change (im_h (PIL.convert_image im MRGBA)) with (im_h im) in Hy. lia. }
  destruct Hsize as [Hw Hh].
  assert (Hdistinct : pixel_value MRGBA q1 <> pixel_value MRGBA q2).
  { assert (Hnd : List.NoDup (map snd ((n1, pixel_value MRGBA q1)
                                        :: (n2, pixel_value MRGBA q2) :: rest))).
    { apply (Permutation_NoDup (l := map snd (PIL.histogram data))).
      - apply Permutation_map, Permutation_sym, Hperm.
      - unfold PIL.histogram. rewrite map_map. cbn [snd]. rewrite map_id.
        apply List.NoDup_nodup. }
    cbn [map snd] in Hnd. apply List.NoDup_cons_iff in Hnd as [Hnot _].
    intros Heq. apply Hnot. left. now symmetry. }
  apply StronglySorted_inv in Hsorted as [Hsorted Hmax1].
  apply StronglySorted_inv in Hsorted as [_ Hmax2].
  apply Forall_cons in Hmax1 as [Hle _]. unfold getKey in Hle. cbn [fst] in Hle.
  destruct (run_convertBlackAndWhite_ground false h image im colors n2 q2 Him Hw Hh Hcolors)
    as (l & Hlen & Hrun); [now rewrite Hranked|].
  eexists _, _, _, q1, q2. split; [exact Hrun|].
  split; [apply lookup_tail; rewrite <- Hlen; apply list_lookup_middle; reflexivity|].
  split; [reflexivity|]. split; [reflexivity|].
  split; [intros ->; now apply Hdistinct|]. split; [exact Hin2|].
  split; [lia|]. split.
  - intros c Hc.
    destruct (Nat.eq_0_gt_0_cases (count c)) as [-> | Hpos]; [lia|].
    destruct (count_occ_ranked data _ c Hperm Hpos) as [Heq | [Heq | Hrest]].
    + apply (f_equal snd) in Heq. cbn [snd] in Heq. now symmetry in Heq.
    + apply (f_equal snd) in Heq. cbn [snd] in Heq. rewrite <- Heq. apply le_n.
    + rewrite Forall_forall in Hmax2. apply list_elem_of_In, Hmax2 in Hrest.
      unfold getKey in Hrest. cbn [fst] in Hrest. fold count in Hrest. lia.
  - intros x y Hx Hy. cbn [mode px PIL.convert_image PIL.to_RGBA].
    rewrite paint_all by assumption. unfold recoloured.
    now destruct (close _ q2).
Qed.

(** ** Descriptions and directories *)

(** X28: [getImageDesc] describes square images only: for an image
    whose width and height differ it returns [None], and the store is
    as it was. *)
Theorem getImageDesc_not_square (h : Heap) (image : ref) (im : Image) :
  h !! image = Some im -> im_w im <> im_h im ->
  getImageDesc image h = inr (None, h).
Proof.
  intros Him Hdiff. unfold getImageDesc.
  eapply run_bind; [apply run_get_width, Him|].
  eapply run_bind; [apply run_get_height, Him|].
  destruct (Z.eqb_spec (im_w im) 640), (Z.eqb_spec (im_h im) 640); try lia; cbn [andb].
  all: eapply run_bind; [apply run_get_width, Him|].
  all: eapply run_bind; [apply run_get_height, Him|].
  all: destruct (Z.eqb_spec (im_w im) 512), (Z.eqb_spec (im_h im) 512); try lia; reflexivity.
Qed.

Lemma re_split_plain (s : string) :
  (forall c, In c (list_ascii_of_string s) -> is_separator c = false) ->
  re_split s = [s].
Proof.
  induction s as [|c s IH]; intros Hs; [reflexivity|].
  cbn [re_split]. rewrite (Hs c) by now left.
  rewrite IH; [reflexivity|]. intros c' Hc'. apply Hs. now right.
Qed.

Lemma re_split_directory (dir rest : string) (sep : ascii) :
  (forall c, In c (list_ascii_of_string dir) -> is_separator c = false) ->
  is_separator sep = true ->
  re_split (dir ++ String sep rest) = dir :: re_split rest.
Proof.
  induction dir as [|c dir IH]; intros Hdir Hsep.
  - cbn [String.append re_split]. now rewrite Hsep.
  - cbn [String.append re_split]. rewrite (Hdir c) by now left.
    rewrite IH; [reflexivity| |exact Hsep]. intros c' Hc'. apply Hdir. now right.
Qed.

Lemma re_split_piece (s : string) : re_split s <> [].
Proof.
  destruct s as [|c s]; [discriminate|].
  cbn [re_split]. destruct (is_separator c); [discriminate|].
  destruct (re_split s); discriminate.
Qed.

Lemma string_app_assoc (a b c : string) : ((a ++ b) ++ c = a ++ (b ++ c))%string.
Proof. induction a as [|x a IH]; [reflexivity|]. cbn. now rewrite IH. Qed.

Lemma checkfile_from (toks : list string) (start : string) :
  fold_left (fun checkfile x => (checkfile ++ (x ++ String backslash EmptyString))%string)
    toks start
  = (start ++ fold_left
                (fun checkfile x => (checkfile ++ (x ++ String backslash EmptyString))%string)
                toks EmptyString)%string.
Proof.
  revert start. induction toks as [|t toks IH]; intros start.
  - cbn. induction start as [|x a IHa]; [reflexivity|]. cbn. now rewrite <- IHa.
  - cbn [fold_left]. rewrite IH, (IH (EmptyString ++ _)%string).
    cbn [String.append]. now rewrite string_app_assoc.
Qed.

(** X29: for a path without slash or backslash, a bare file name,
    [createDirsIfRequired] builds the empty path, and it is the empty
    path that goes to [os.makedirs]. *)
Theorem createDirsIfRequired_bare_name (filepath : string) :
  (forall c, In c (list_ascii_of_string filepath) -> is_separator c = false) ->
  createDirsIfRequired filepath = EmptyString.
Proof.
  intros Hplain. unfold createDirsIfRequired. now rewrite re_split_plain.
Qed.

(** X30: a leading directory is kept and closed by a backslash,
    whether the path had a slash or a backslash after it, and the rest
    of the path is treated likewise: the path handed to [os.makedirs]
    is the path without its last piece, every separator a backslash. *)
Theorem createDirsIfRequired_directory (dir rest : string) (sep : ascii) :
  (forall c, In c (list_ascii_of_string dir) -> is_separator c = false) ->
  is_separator sep = true ->
  createDirsIfRequired (dir ++ String sep rest)
  = (dir ++ String backslash (createDirsIfRequired rest))%string.
Proof.
  intros Hdir Hsep. unfold createDirsIfRequired. cbv zeta.
  rewrite (re_split_directory dir rest sep Hdir Hsep).
  pose proof (re_split_piece rest) as Hne.
  destruct (re_split rest) as [|t toks]; [contradiction|].
  cbn [removelast fold_left]. rewrite checkfile_from.
  cbn [String.append]. now rewrite string_app_assoc.
Qed.

End Calls.

(** * The theorems at concrete images *)

Lemma removeImagePadding_centre_crop_witness :
  [plain 4 4 red] !! 0%nat = Some (plain 4 4 red)
  /\ 0 <= 2 * 1 <= Z.min (im_w (plain 4 4 red)) (im_h (plain 4 4 red))
  /\ exists (out : ref) (cropped : Image) (h' : Heap),
       removeImagePadding 0%nat 1 [plain 4 4 red] = inr (out, h') /\
       out <> 0%nat /\
       h' !! 0%nat = Some (plain 4 4 red) /\
       h' !! out = Some cropped /\
       im_w cropped = im_w (plain 4 4 red) - 2 * 1 /\
       im_h cropped = im_h (plain 4 4 red) - 2 * 1 /\
       forall x y, 0 <= x < im_w cropped -> 0 <= y < im_h cropped ->
         pixel_value (mode cropped) (px cropped x y)
         = pixel_value (mode (plain 4 4 red)) (px (plain 4 4 red) (x + 1) (y + 1)).
Proof.
  assert (H : 0 <= 2 * 1 <= Z.min (im_w (plain 4 4 red)) (im_h (plain 4 4 red)))
    by (vm_compute; split; discriminate).
  split; [reflexivity|]. split; [exact H|].
  exact (removeImagePadding_centre_crop [plain 4 4 red] 0%nat (plain 4 4 red) 1 eq_refl H).
Defined.

Lemma resizeImage_double_then_half_witness :
  [plain 3 2 red] !! 0%nat = Some (plain 3 2 red)
  /\ (im_w (plain 3 2 red) = 0 <-> im_h (plain 3 2 red) = 0)
  /\ exists (big small : ref) (h1 h2 : Heap) (im2 : Image),
       resizeImage 0%nat 2 [plain 3 2 red] = inr (big, h1) /\
       resizeImage big (1 # 2) h1 = inr (small, h2) /\
       h2 !! small = Some im2 /\
       im_w im2 = im_w (plain 3 2 red) /\ im_h im2 = im_h (plain 3 2 red) /\
       Z.abs (im_w im2 - im_w (plain 3 2 red)) <= 1 /\
       Z.abs (im_h im2 - im_h (plain 3 2 red)) <= 1.
Proof.
  assert (H : im_w (plain 3 2 red) = 0 <-> im_h (plain 3 2 red) = 0)
    by (vm_compute; split; discriminate).
  split; [reflexivity|]. split; [exact H|].
  exact (resizeImage_double_then_half [plain 3 2 red] 0%nat (plain 3 2 red) eq_refl H).
Defined.

Lemma roundCorners_radius_0_witness :
  [plain 2 2 red] !! 0%nat = Some (plain 2 2 red)
  /\ exists (out : ref) (h' : Heap) (result mask : Image),
       roundCorners 0%nat 0 [plain 2 2 red] = inr (out, h') /\
       h' !! out = Some result /\
       PIL.paste_image
         (PIL.filled MRGBA (width (plain 2 2 red)) (height (plain 2 2 red)) clear)
         (plain 2 2 red) (0, 0) (Some mask)
       = Some result /\
       width mask = width (plain 2 2 red) /\ height mask = height (plain 2 2 red) /\
       (forall x y, pixel_value (mode mask) (px mask x y) = PTuple [255; 255; 255; 255]) /\
       mode result = MRGBA /\
       width result = width (plain 2 2 red) /\ height result = height (plain 2 2 red) /\
       (forall x y, 0 <= x < im_w (plain 2 2 red) -> 0 <= y < im_h (plain 2 2 red) ->
          pixel_value (mode result) (px result x y)
          = pixel_value MRGBA
              (PIL.to_RGBA (mode (plain 2 2 red)) (px (plain 2 2 red) x y))).
Proof.
  split; [reflexivity|].
  exact (roundCorners_radius_0 [plain 2 2 red] 0%nat (plain 2 2 red) eq_refl).
Defined.

Lemma addDropShadowComplex_canvas_witness :
  [plain 2 2 red] !! 0%nat = Some (plain 2 2 red)
  /\ 0 <= im_w (plain 2 2 red) + Z.abs 1 + 2 * 1
  /\ 0 <= im_h (plain 2 2 red) + Z.abs (-1) + 2 * 1
  /\ exists (canvas : ref) (h1 : Heap),
       h1 !! canvas
       = Some (shadow_canvas (plain 2 2 red) (Z.to_nat 3) 1 1 (-1)
                 (xff, xff, xff, x00) (x00, x00, x00, x55))
       /\ h1 !! 0%nat = Some (plain 2 2 red)
       /\ addDropShadowComplex 0%nat 3 1 [1; -1] "#ffffff00" "#00000055" [plain 2 2 red]
          = resizeImageAbs canvas (im_w (plain 2 2 red)) (im_h (plain 2 2 red)) h1
       /\ im_w (shadow_canvas (plain 2 2 red) (Z.to_nat 3) 1 1 (-1)
                  (xff, xff, xff, x00) (x00, x00, x00, x55))
          = im_w (plain 2 2 red) + Z.abs 1 + 2 * 1
       /\ im_h (shadow_canvas (plain 2 2 red) (Z.to_nat 3) 1 1 (-1)
                  (xff, xff, xff, x00) (x00, x00, x00, x55))
          = im_h (plain 2 2 red) + Z.abs (-1) + 2 * 1.
Proof.
  assert (Hfw : 0 <= im_w (plain 2 2 red) + Z.abs 1 + 2 * 1)
    by (vm_compute; discriminate).
  assert (Hfh : 0 <= im_h (plain 2 2 red) + Z.abs (-1) + 2 * 1)
    by (vm_compute; discriminate).
  split; [reflexivity|]. split; [exact Hfw|]. split; [exact Hfh|].
  exact (addDropShadowComplex_canvas [plain 2 2 red] 0%nat (plain 2 2 red) 3 1 1 (-1)
           "#ffffff00" "#00000055" (xff, xff, xff, x00) (x00, x00, x00, x55)
           eq_refl Hfw Hfh eq_refl eq_refl).
Defined.

Lemma addDropShadowComplex_size_witness :
  [plain 2 2 red] !! 0%nat = Some (plain 2 2 red)
  /\ 1 <= im_w (plain 2 2 red) /\ 1 <= im_h (plain 2 2 red) /\ 0 <= 1
  /\ exists (out : ref) (h' : Heap) (result : Image),
       addDropShadowComplex 0%nat 3 1 [1; -1] "#ffffff00" "#00000055" [plain 2 2 red]
       = inr (out, h') /\
       out <> 0%nat /\ h' !! 0%nat = Some (plain 2 2 red) /\ h' !! out = Some result /\
       im_w result = im_w (plain 2 2 red) /\ im_h result = im_h (plain 2 2 red).
Proof.
  assert (Hw : 1 <= im_w (plain 2 2 red)) by (vm_compute; discriminate).
  assert (Hh : 1 <= im_h (plain 2 2 red)) by (vm_compute; discriminate).
  assert (Hb : 0 <= 1) by lia.
  split; [reflexivity|]. split; [exact Hw|]. split; [exact Hh|]. split; [exact Hb|].
  exact (addDropShadowComplex_size [plain 2 2 red] 0%nat (plain 2 2 red) 3 1 1 (-1)
           "#ffffff00" "#00000055" (xff, xff, xff, x00) (x00, x00, x00, x55)
           eq_refl Hw Hh Hb eq_refl eq_refl).
Defined.

Lemma convertBlackAndWhite_under_2_colours_witness :
  [plain 2 2 red] !! 0%nat = Some (plain 2 2 red)
  /\ (PIL.distinct_colours (plain 2 2 red) < 2)%nat
  /\ convertBlackAndWhite 0%nat "foreground" [plain 2 2 red] = inl IndexError.
Proof.
  assert (H : (PIL.distinct_colours (plain 2 2 red) < 2)%nat) by (vm_compute; lia).
  split; [reflexivity|]. split; [exact H|].
  exact (proj1 (convertBlackAndWhite_under_2_colours [plain 2 2 red] 0%nat (plain 2 2 red)
                  eq_refl H)).
Defined.

Lemma convertBlackAndWhite_filter_modes_witness :
  [plain 2 2 red] !! 0%nat = Some (plain 2 2 red)
  /\ 1 <= im_w (plain 2 2 red) /\ 1 <= im_h (plain 2 2 red)
  /\ exists (out : ref) (h' : Heap) (result : Image),
       convertBlackAndWhite 0%nat "filter-darker" [plain 2 2 red] = inr (out, h') /\
       h' !! out = Some result /\ mode result = MRGBA /\
       width result = width (plain 2 2 red) /\ height result = height (plain 2 2 red) /\
       forall x y, 0 <= x < im_w (plain 2 2 red) -> 0 <= y < im_h (plain 2 2 red) ->
         pixel_value (mode result) (px result x y)
         = if b2z (PIL.to_L (mode (plain 2 2 red)) (px (plain 2 2 red) x y))
              <? b2z (average_luminance (plain 2 2 red))
           then black else white.
Proof.
  assert (Hw : 1 <= im_w (plain 2 2 red)) by (vm_compute; discriminate).
  assert (Hh : 1 <= im_h (plain 2 2 red)) by (vm_compute; discriminate).
  split; [reflexivity|]. split; [exact Hw|]. split; [exact Hh|].
  pose proof (convertBlackAndWhite_filter_modes [plain 2 2 red] 0%nat (plain 2 2 red)
                eq_refl Hw Hh) as H.
  cbv beta zeta in H. exact (proj1 H).
Defined.

Lemma convertBlackAndWhite_over_256_colours_witness :
  [rainbow] !! 0%nat = Some rainbow
  /\ (256 < PIL.distinct_colours rainbow)%nat
  /\ convertBlackAndWhite 0%nat "background" [rainbow] = inl TypeError
  /\ convertBlackAndWhite 0%nat "foreground" [rainbow] = inl TypeError.
Proof.
  assert (H : (256 < PIL.distinct_colours rainbow)%nat) by (vm_compute; lia).
  split; [reflexivity|]. split; [exact H|].
  exact (proj1 (convertBlackAndWhite_over_256_colours [rainbow] 0%nat rainbow eq_refl) H).
Defined.

(** The scenario of the specification: three white pixels and a black
    one in background mode; the whites stay white, the black one black. *)
Example convertBlackAndWhite_background_scenario :
  match convertBlackAndWhite 0%nat "background" [three_white_one_black] with
  | inr (out, h') => getdata <$> h' !! out
  | inl _ => None
  end = Some [white; white; white; black].
Proof. vm_compute. reflexivity. Qed.

(** A 4 x 4 red image rounded by 50 percent keeps its size, loses its
    corner pixel to transparency and keeps its centre. *)
Example roundCornersPercent_scenario :
  match roundCornersPercent 0%nat 50 [plain 4 4 red] with
  | inr (out, h') =>
      (fun im => (im_w im, im_h im,
                  pixel_value (mode im) (px im 0 0),
                  pixel_value (mode im) (px im 1 1))) <$> h' !! out
  | inl _ => None
  end = Some (4, 4, PTuple [0; 0; 0; 0], PTuple [255; 0; 0; 255]).
Proof. vm_compute. reflexivity. Qed.

(** * Where the specification goes beyond the code *)

(** Against C3: an image 0 pixels wide is an image, and on it
    [addDropShadowComplex] returns nothing: the closing resize to a
    width of 0 raises a ValueError. *)
Lemma addDropShadowComplex_empty_image_raises :
  addDropShadowComplex 0%nat 0 1 [0; 0] "#ffffff00" "#00000055" [plain 0 5 red]
  = inl ValueError.
Proof. vm_compute. reflexivity. Qed.

(** Against C4: an image of one colour has fewer than 2 distinct
    colours, and the background mode returns an image for it. *)
Lemma convertBlackAndWhite_background_one_colour_returns :
  (PIL.distinct_colours (plain 2 2 red) < 2)%nat
  /\ exists (h' : Heap),
       convertBlackAndWhite 0%nat "background" [plain 2 2 red] = inr (4%nat, h').
Proof.
  split; [vm_compute; lia|].
  destruct (convertBlackAndWhite 0%nat "background" [plain 2 2 red]) as [e|[out h']] eqn:E.
  - exfalso. revert E. vm_compute. discriminate.
  - exists h'. f_equal. f_equal.
    apply (f_equal (fun r => match r with inr (o, _) => o | inl _ => 0%nat end)) in E.
    vm_compute in E. now symmetry.
Qed.

(** Against C5: on an image without pixels the two filter modes return
    nothing: reading pixel (0, 0) for the average raises an IndexError. *)
Lemma convertBlackAndWhite_empty_image_raises :
  convertBlackAndWhite 0%nat "filter-darker" [plain 0 0 red] = inl IndexError
  /\ convertBlackAndWhite 0%nat "filter-lighter" [plain 0 0 red] = inl IndexError.
Proof. split; vm_compute; reflexivity. Qed.

(** Against C8: on an image 0 pixels wide and 5 high the first resize,
    to 0 x 10, raises a ValueError. *)
Lemma resizeImage_empty_side_raises :
  resizeImage 0%nat 2 [plain 0 5 red] = inl ValueError.
Proof. vm_compute. reflexivity. Qed.

(** * The further properties at concrete images *)

Lemma resizeImageAbs_exact_size_witness :
  [plain 2 2 red] !! 0%nat = Some (plain 2 2 red)
  /\ 1 <= 3
  /\ 1 <= 1
  /\ exists (out : ref) (h2 : Heap) (result : Image),
       resizeImageAbs 0%nat 3 1 [plain 2 2 red] = inr (out, h2) /\
       out <> 0%nat /\ h2 !! 0%nat = Some (plain 2 2 red) /\ h2 !! out = Some result /\
       im_w result = 3 /\ im_h result = 1 /\ mode result = mode (plain 2 2 red).
Proof.
  assert (H1 : 1 <= 3)
    by (lia).
  assert (H2 : 1 <= 1)
    by (lia).
  split; [reflexivity|].
  split; [exact H1|].
  split; [exact H2|].
  exact (resizeImageAbs_exact_size [plain 2 2 red] 0%nat (plain 2 2 red) 3 1 eq_refl H1 H2).
Defined.

Lemma resizeImageAbs_small_target_raises_witness :
  [plain 2 2 red] !! 0%nat = Some (plain 2 2 red)
  /\ (0 < 1 \/ 2 < 1)
  /\ (im_w (plain 2 2 red) <> 0 \/ im_h (plain 2 2 red) <> 2)
  /\ resizeImageAbs 0%nat 0 2 [plain 2 2 red] = inl ValueError.
Proof.
  assert (H1 : (0 < 1 \/ 2 < 1))
    by (left; lia).
  assert (H2 : (im_w (plain 2 2 red) <> 0 \/ im_h (plain 2 2 red) <> 2))
    by (left; vm_compute; discriminate).
  split; [reflexivity|].
  split; [exact H1|].
  split; [exact H2|].
  exact (resizeImageAbs_small_target_raises [plain 2 2 red] 0%nat (plain 2 2 red) 0 2 eq_refl H1 H2).
Defined.

Lemma resizeImageAbs_same_size_copies_witness :
  [plain 2 2 red] !! 0%nat = Some (plain 2 2 red)
  /\ exists (out : ref) (h2 : Heap),
       resizeImageAbs 0%nat (im_w (plain 2 2 red)) (im_h (plain 2 2 red)) [plain 2 2 red] = inr (out, h2) /\
       out <> 0%nat /\ h2 !! 0%nat = Some (plain 2 2 red) /\ h2 !! out = Some (plain 2 2 red).
Proof.
  split; [reflexivity|].
  exact (resizeImageAbs_same_size_copies [plain 2 2 red] 0%nat (plain 2 2 red) eq_refl).
Defined.

Lemma resizeImageAbs_round_trip_witness :
  [plain 2 3 red] !! 0%nat = Some (plain 2 3 red)
  /\ 1 <= 4
  /\ 1 <= 1
  /\ 1 <= im_w (plain 2 3 red)
  /\ 1 <= im_h (plain 2 3 red)
  /\ exists (there back : ref) (h1 h2 : Heap) (result : Image),
       resizeImageAbs 0%nat 4 1 [plain 2 3 red] = inr (there, h1) /\
       resizeImageAbs there (im_w (plain 2 3 red)) (im_h (plain 2 3 red)) h1 = inr (back, h2) /\
       h2 !! back = Some result /\
       im_w result = im_w (plain 2 3 red) /\ im_h result = im_h (plain 2 3 red) /\ mode result = mode (plain 2 3 red).
Proof.
  assert (H1 : 1 <= 4)
    by (lia).
  assert (H2 : 1 <= 1)
    by (lia).
  assert (H3 : 1 <= im_w (plain 2 3 red))
    by (vm_compute; discriminate).
  assert (H4 : 1 <= im_h (plain 2 3 red))
    by (vm_compute; discriminate).
  split; [reflexivity|].
  split; [exact H1|].
  split; [exact H2|].
  split; [exact H3|].
  split; [exact H4|].
  exact (resizeImageAbs_round_trip [plain 2 3 red] 0%nat (plain 2 3 red) 4 1 eq_refl H1 H2 H3 H4).
Defined.

Lemma resizeImage_factor_1_copies_witness :
  [plain 2 2 red] !! 0%nat = Some (plain 2 2 red)
  /\ exists (out : ref) (h2 : Heap),
       resizeImage 0%nat 1 [plain 2 2 red] = inr (out, h2) /\
       out <> 0%nat /\ h2 !! 0%nat = Some (plain 2 2 red) /\ h2 !! out = Some (plain 2 2 red).
Proof.
  split; [reflexivity|].
  exact (resizeImage_factor_1_copies [plain 2 2 red] 0%nat (plain 2 2 red) eq_refl).
Defined.





Lemma roundCorners_returns_new_RGBA_witness :
  [plain 4 4 red] !! 0%nat = Some (plain 4 4 red)
  /\ 0 <= 1
  /\ exists (out : ref) (h' : Heap) (result : Image),
       roundCorners 0%nat 1 [plain 4 4 red] = inr (out, h') /\
       out <> 0%nat /\ h' !! out = Some result /\
       mode result = MRGBA /\ width result = width (plain 4 4 red) /\ height result = height (plain 4 4 red) /\
       (forall (r : ref) (o : Image), [plain 4 4 red] !! r = Some o -> h' !! r = Some o).
Proof.
  assert (H1 : 0 <= 1)
    by (lia).
  split; [reflexivity|].
  split; [exact H1|].
  exact (roundCorners_returns_new_RGBA [plain 4 4 red] 0%nat (plain 4 4 red) 1 eq_refl H1).
Defined.

Lemma roundCorners_negative_radius_raises_witness :
  (-1) < 0
  /\ roundCorners 0%nat (-1) [plain 4 4 red] = inl ValueError.
Proof.
  assert (H0 : (-1) < 0)
    by (lia).
  split; [exact H0|].
  exact (roundCorners_negative_radius_raises [plain 4 4 red] 0%nat (-1) H0).
Defined.

Lemma roundCorners_keeps_outside_corners_witness :
  [plain 4 4 red] !! 0%nat = Some (plain 4 4 red)
  /\ 0 <= 1
  /\ exists (out : ref) (h' : Heap) (result : Image),
       roundCorners 0%nat 1 [plain 4 4 red] = inr (out, h') /\
       h' !! out = Some result /\
       forall x y, 0 <= x < im_w (plain 4 4 red) -> 0 <= y < im_h (plain 4 4 red) ->
         1 <= x < im_w (plain 4 4 red) - 1 \/ 1 <= y < im_h (plain 4 4 red) - 1 ->
         pixel_value (mode result) (px result x y)
         = pixel_value MRGBA (PIL.to_RGBA (mode (plain 4 4 red)) (px (plain 4 4 red) x y)).
Proof.
  assert (H1 : 0 <= 1)
    by (lia).
  split; [reflexivity|].
  split; [exact H1|].
  exact (roundCorners_keeps_outside_corners [plain 4 4 red] 0%nat (plain 4 4 red) 1 eq_refl H1).
Defined.

Lemma roundCorners_cuts_corners_witness :
  [plain 4 4 red] !! 0%nat = Some (plain 4 4 red)
  /\ 0 <= 1
  /\ 2 * 1 <= im_w (plain 4 4 red)
  /\ 2 * 1 <= im_h (plain 4 4 red)
  /\ exists (out : ref) (h' : Heap) (result : Image),
       roundCorners 0%nat 1 [plain 4 4 red] = inr (out, h') /\
       h' !! out = Some result /\
       forall x y, 0 <= x < im_w (plain 4 4 red) -> 0 <= y < im_h (plain 4 4 red) ->
         x < 1 \/ im_w (plain 4 4 red) - 1 <= x ->
         y < 1 \/ im_h (plain 4 4 red) - 1 <= y ->
         pixel_value (mode result) (px result x y)
         = if ellipse_cover (0, 0, 1 * 2, 1 * 2)
                (circle_coordinate (im_w (plain 4 4 red)) 1 x)
                (circle_coordinate (im_h (plain 4 4 red)) 1 y)
           then pixel_value MRGBA (PIL.to_RGBA (mode (plain 4 4 red)) (px (plain 4 4 red) x y))
           else PTuple [0; 0; 0; 0].
Proof.
  assert (H1 : 0 <= 1)
    by (lia).
  assert (H2 : 2 * 1 <= im_w (plain 4 4 red))
    by (vm_compute; discriminate).
  assert (H3 : 2 * 1 <= im_h (plain 4 4 red))
    by (vm_compute; discriminate).
  split; [reflexivity|].
  split; [exact H1|].
  split; [exact H2|].
  split; [exact H3|].
  exact (roundCorners_cuts_corners [plain 4 4 red] 0%nat (plain 4 4 red) 1 eq_refl H1 H2 H3).
Defined.

Lemma roundCornersPercent_radius_witness :
  [plain 4 4 red] !! 0%nat = Some (plain 4 4 red)
  /\ 0 <= 50 <= 50
  /\ let r := Z.min (im_w (plain 4 4 red)) (im_h (plain 4 4 red)) * 50 / 100 in
       roundCornersPercent 0%nat 50 [plain 4 4 red] = roundCorners 0%nat r [plain 4 4 red] /\
       0 <= r /\ 2 * r <= im_w (plain 4 4 red) /\ 2 * r <= im_h (plain 4 4 red).
Proof.
  assert (H1 : 0 <= 50 <= 50)
    by (lia).
  split; [reflexivity|].
  split; [exact H1|].
  exact (roundCornersPercent_radius [plain 4 4 red] 0%nat (plain 4 4 red) 50 eq_refl H1).
Defined.

Lemma roundCornersPercent_negative_witness :
  [plain 4 4 red] !! 0%nat = Some (plain 4 4 red)
  /\ (-50) < 0
  /\ roundCornersPercent 0%nat (-50) [plain 4 4 red]
       = if Z.min (im_w (plain 4 4 red)) (im_h (plain 4 4 red)) * (-50) <=? -100
         then inl ValueError
         else roundCorners 0%nat 0 [plain 4 4 red].
Proof.
  assert (H1 : (-50) < 0)
    by (lia).
  split; [reflexivity|].
  split; [exact H1|].
  exact (roundCornersPercent_negative [plain 4 4 red] 0%nat (plain 4 4 red) (-50) eq_refl H1).
Defined.

Lemma roundCornersAntiAlias_size_witness :
  [plain 2 2 red] !! 0%nat = Some (plain 2 2 red)
  /\ 1 <= im_w (plain 2 2 red)
  /\ 1 <= im_h (plain 2 2 red)
  /\ 0 <= 1
  /\ exists (out : ref) (h' : Heap) (result : Image),
       roundCornersAntiAlias 0%nat 1 [plain 2 2 red] = inr (out, h') /\
       out <> 0%nat /\ h' !! out = Some result /\
       mode result = MRGBA /\ im_w result = im_w (plain 2 2 red) /\ im_h result = im_h (plain 2 2 red) /\
       (forall (r : ref) (o : Image), [plain 2 2 red] !! r = Some o -> h' !! r = Some o).
Proof.
  assert (H1 : 1 <= im_w (plain 2 2 red))
    by (vm_compute; discriminate).
  assert (H2 : 1 <= im_h (plain 2 2 red))
    by (vm_compute; discriminate).
  assert (H3 : 0 <= 1)
    by (lia).
  split; [reflexivity|].
  split; [exact H1|].
  split; [exact H2|].
  split; [exact H3|].
  exact (roundCornersAntiAlias_size [plain 2 2 red] 0%nat (plain 2 2 red) 1 eq_refl H1 H2 H3).
Defined.

Lemma roundCornersPercentAntiAlias_size_witness :
  [plain 2 2 red] !! 0%nat = Some (plain 2 2 red)
  /\ 1 <= im_w (plain 2 2 red)
  /\ 1 <= im_h (plain 2 2 red)
  /\ 0 <= 50
  /\ exists (out : ref) (h' : Heap) (result : Image),
       roundCornersPercentAntiAlias 0%nat 50 [plain 2 2 red] = inr (out, h') /\
       out <> 0%nat /\ h' !! out = Some result /\
       mode result = MRGBA /\ im_w result = im_w (plain 2 2 red) /\ im_h result = im_h (plain 2 2 red) /\
       (forall (r : ref) (o : Image), [plain 2 2 red] !! r = Some o -> h' !! r = Some o).
Proof.
  assert (H1 : 1 <= im_w (plain 2 2 red))
    by (vm_compute; discriminate).
  assert (H2 : 1 <= im_h (plain 2 2 red))
    by (vm_compute; discriminate).
  assert (H3 : 0 <= 50)
    by (lia).
  split; [reflexivity|].
  split; [exact H1|].
  split; [exact H2|].
  split; [exact H3|].
  exact (roundCornersPercentAntiAlias_size [plain 2 2 red] 0%nat (plain 2 2 red) 50 eq_refl H1 H2 H3).
Defined.

Lemma addDropShadowSimple_size_witness :
  [plain 2 2 red] !! 0%nat = Some (plain 2 2 red)
  /\ 1 <= im_w (plain 2 2 red)
  /\ 1 <= im_h (plain 2 2 red)
  /\ exists (out : ref) (h' : Heap) (result : Image),
       addDropShadowSimple 0%nat [1; (-1)] [plain 2 2 red] = inr (out, h') /\
       out <> 0%nat /\ h' !! 0%nat = Some (plain 2 2 red) /\ h' !! out = Some result /\
       mode result = MRGBA /\ im_w result = im_w (plain 2 2 red) /\ im_h result = im_h (plain 2 2 red).
Proof.
  assert (H1 : 1 <= im_w (plain 2 2 red))
    by (vm_compute; discriminate).
  assert (H2 : 1 <= im_h (plain 2 2 red))
    by (vm_compute; discriminate).
  split; [reflexivity|].
  split; [exact H1|].
  split; [exact H2|].
  exact (addDropShadowSimple_size [plain 2 2 red] 0%nat (plain 2 2 red) 1 (-1) eq_refl H1 H2).
Defined.

Lemma addDropShadowSimple_short_offset_raises_witness :
  [plain 2 2 red] !! 0%nat = Some (plain 2 2 red)
  /\ (length [5] < 2)%nat
  /\ addDropShadowSimple 0%nat [5] [plain 2 2 red]
       = inl (match [5] with [] => ValueError | _ :: _ => IndexError end).
Proof.
  assert (H1 : (length [5] < 2)%nat)
    by (cbn; lia).
  split; [reflexivity|].
  split; [exact H1|].
  exact (addDropShadowSimple_short_offset_raises [plain 2 2 red] 0%nat (plain 2 2 red) [5] eq_refl H1).
Defined.

Lemma addDropShadowComplex_short_offset_raises_witness :
  [plain 2 2 red] !! 0%nat = Some (plain 2 2 red)
  /\ (length [5] < 2)%nat
  /\ addDropShadowComplex 0%nat 3 1 [5] "#ffffff00" "#00000055" [plain 2 2 red]
       = inl IndexError.
Proof.
  assert (H1 : (length [5] < 2)%nat)
    by (cbn; lia).
  split; [reflexivity|].
  split; [exact H1|].
  exact (addDropShadowComplex_short_offset_raises [plain 2 2 red] 0%nat (plain 2 2 red) 3 1 [5] "#ffffff00" "#00000055" eq_refl H1).
Defined.

Lemma addDropShadowComplex_negative_canvas_raises_witness :
  [plain 2 2 red] !! 0%nat = Some (plain 2 2 red)
  /\ (im_w (plain 2 2 red) + Z.abs 0 + 2 * (-10) < 0 \/ im_h (plain 2 2 red) + Z.abs 0 + 2 * (-10) < 0)
  /\ addDropShadowComplex 0%nat 3 (-10) [0; 0] "#ffffff00" "#00000055" [plain 2 2 red]
       = inl ValueError.
Proof.
  assert (H1 : (im_w (plain 2 2 red) + Z.abs 0 + 2 * (-10) < 0 \/ im_h (plain 2 2 red) + Z.abs 0 + 2 * (-10) < 0))
    by (left; reflexivity).
  split; [reflexivity|].
  split; [exact H1|].
  exact (addDropShadowComplex_negative_canvas_raises [plain 2 2 red] 0%nat (plain 2 2 red) 3 (-10) 0 0 "#ffffff00" "#00000055" eq_refl H1).
Defined.

Lemma cmpTup_tolerance_witness :
  (length [1; 2; 3; 4] <= length [5; 6; 7; 8])%nat
  /\ exists c : bool,
       cmpTup (PTuple [1; 2; 3; 4]) (PTuple [5; 6; 7; 8]) = inr c /\
       (c = true <->
        forall i x y, [1; 2; 3; 4] !! i = Some x -> [5; 6; 7; 8] !! i = Some y -> Z.abs (x - y) <= 10).
Proof.
  assert (H0 : (length [1; 2; 3; 4] <= length [5; 6; 7; 8])%nat)
    by (cbn; lia).
  split; [exact H0|].
  exact (cmpTup_tolerance [1; 2; 3; 4] [5; 6; 7; 8] H0).
Defined.

Lemma cmpTup_short_second_raises_witness :
  (length [1; 2] < length [1; 2; 3])%nat
  /\ (forall i x y, [1; 2; 3] !! i = Some x -> [1; 2] !! i = Some y -> Z.abs (x - y) <= 10)
  /\ cmpTup (PTuple [1; 2; 3]) (PTuple [1; 2]) = inl IndexError.
Proof.
  assert (H0 : (length [1; 2] < length [1; 2; 3])%nat)
    by (cbn; lia).
  assert (H1 : (forall i x y, [1; 2; 3] !! i = Some x -> [1; 2] !! i = Some y -> Z.abs (x - y) <= 10))
    by (intros [|[|[|i]]] x y Hx Hy; cbn in Hx, Hy; try discriminate;
        injection Hx as <-; injection Hy as <-; lia).
  split; [exact H0|].
  split; [exact H1|].
  exact (cmpTup_short_second_raises [1; 2; 3] [1; 2] H0 H1).
Defined.

Lemma convertBlackAndWhite_unknown_mode_raises_witness :
  [plain 2 2 red] !! 0%nat = Some (plain 2 2 red)
  /\ 1 <= im_w (plain 2 2 red)
  /\ 1 <= im_h (plain 2 2 red)
  /\ "sepia"%string <> "filter-darker"%string
  /\ "sepia"%string <> "filter-lighter"%string
  /\ "sepia"%string <> "background"%string
  /\ "sepia"%string <> "foreground"%string
  /\ convertBlackAndWhite 0%nat "sepia"%string [plain 2 2 red] = inl UnboundLocalError.
Proof.
  assert (H1 : 1 <= im_w (plain 2 2 red))
    by (vm_compute; discriminate).
  assert (H2 : 1 <= im_h (plain 2 2 red))
    by (vm_compute; discriminate).
  assert (H3 : "sepia"%string <> "filter-darker"%string)
    by (discriminate).
  assert (H4 : "sepia"%string <> "filter-lighter"%string)
    by (discriminate).
  assert (H5 : "sepia"%string <> "background"%string)
    by (discriminate).
  assert (H6 : "sepia"%string <> "foreground"%string)
    by (discriminate).
  split; [reflexivity|].
  split; [exact H1|].
  split; [exact H2|].
  split; [exact H3|].
  split; [exact H4|].
  split; [exact H5|].
  split; [exact H6|].
  exact (convertBlackAndWhite_unknown_mode_raises [plain 2 2 red] 0%nat (plain 2 2 red) "sepia"%string eq_refl H1 H2 H3 H4 H5 H6).
Defined.

Lemma convertBlackAndWhite_single_pixel_white_witness :
  [plain 1 1 red] !! 0%nat = Some (plain 1 1 red)
  /\ im_w (plain 1 1 red) = 1
  /\ im_h (plain 1 1 red) = 1
  /\ exists (out : ref) (h' : Heap) (result : Image),
       convertBlackAndWhite 0%nat (if true then "filter-darker" else "filter-lighter") [plain 1 1 red]
       = inr (out, h') /\
       h' !! out = Some result /\ width result = width (plain 1 1 red) /\ height result = height (plain 1 1 red) /\
       pixel_value (mode result) (px result 0 0) = white.
Proof.
  split; [reflexivity|].
  split; [reflexivity|].
  split; [reflexivity|].
  exact (convertBlackAndWhite_single_pixel_white [plain 1 1 red] 0%nat (plain 1 1 red) true eq_refl eq_refl eq_refl).
Defined.

Lemma convertBlackAndWhite_background_dominant_witness :
  [three_white_one_black] !! 0%nat = Some three_white_one_black
  /\ 1 <= im_w three_white_one_black
  /\ 1 <= im_h three_white_one_black
  /\ (PIL.distinct_colours (PIL.convert_image three_white_one_black MRGBA) <= 256)%nat
  /\ let data := getdata (PIL.convert_image three_white_one_black MRGBA) in
       let count := count_occ PIL.PyVal_eq_dec data in
       exists (out : ref) (h' : Heap) (result : Image) (q : Pixel MRGBA),
         convertBlackAndWhite 0%nat "background" [three_white_one_black] = inr (out, h') /\
         h' !! out = Some result /\
         width result = width three_white_one_black /\ height result = height three_white_one_black /\
         In (pixel_value MRGBA q) data /\
         (forall c, (count c <= count (pixel_value MRGBA q))%nat) /\
         forall x y, 0 <= x < im_w three_white_one_black -> 0 <= y < im_h three_white_one_black ->
           pixel_value (mode result) (px result x y)
           = if close (PIL.to_RGBA (mode three_white_one_black) (px three_white_one_black x y)) q then white else black.
Proof.
  assert (H1 : 1 <= im_w three_white_one_black)
    by (vm_compute; discriminate).
  assert (H2 : 1 <= im_h three_white_one_black)
    by (vm_compute; discriminate).
  assert (H3 : (PIL.distinct_colours (PIL.convert_image three_white_one_black MRGBA) <= 256)%nat)
    by (vm_compute; lia).
  split; [reflexivity|].
  split; [exact H1|].
  split; [exact H2|].
  split; [exact H3|].
  exact (convertBlackAndWhite_background_dominant [three_white_one_black] 0%nat three_white_one_black eq_refl H1 H2 H3).
Defined.

Lemma convertBlackAndWhite_foreground_second_witness :
  [three_white_one_black] !! 0%nat = Some three_white_one_black
  /\ (2 <= PIL.distinct_colours (PIL.convert_image three_white_one_black MRGBA) <= 256)%nat
  /\ let data := getdata (PIL.convert_image three_white_one_black MRGBA) in
       let count := count_occ PIL.PyVal_eq_dec data in
       exists (out : ref) (h' : Heap) (result : Image) (q1 q2 : Pixel MRGBA),
         convertBlackAndWhite 0%nat "foreground" [three_white_one_black] = inr (out, h') /\
         h' !! out = Some result /\
         width result = width three_white_one_black /\ height result = height three_white_one_black /\
         q1 <> q2 /\ In (pixel_value MRGBA q2) data /\
         (count (pixel_value MRGBA q2) <= count (pixel_value MRGBA q1))%nat /\
         (forall c, c <> pixel_value MRGBA q1 ->
                    (count c <= count (pixel_value MRGBA q2))%nat) /\
         forall x y, 0 <= x < im_w three_white_one_black -> 0 <= y < im_h three_white_one_black ->
           pixel_value (mode result) (px result x y)
           = if close (PIL.to_RGBA (mode three_white_one_black) (px three_white_one_black x y)) q2 then black else white.
Proof.
  assert (H1 : (2 <= PIL.distinct_colours (PIL.convert_image three_white_one_black MRGBA) <= 256)%nat)
    by (vm_compute; lia).
  split; [reflexivity|].
  split; [exact H1|].
  exact (convertBlackAndWhite_foreground_second [three_white_one_black] 0%nat three_white_one_black eq_refl H1).
Defined.

Lemma getImageDesc_not_square_witness :
  [plain 4 2 red] !! 0%nat = Some (plain 4 2 red)
  /\ im_w (plain 4 2 red) <> im_h (plain 4 2 red)
  /\ getImageDesc 0%nat [plain 4 2 red] = inr (None, [plain 4 2 red]).
Proof.
  assert (H1 : im_w (plain 4 2 red) <> im_h (plain 4 2 red))
    by (vm_compute; discriminate).
  split; [reflexivity|].
  split; [exact H1|].
  exact (getImageDesc_not_square [plain 4 2 red] 0%nat (plain 4 2 red) eq_refl H1).
Defined.

Lemma createDirsIfRequired_bare_name_witness :
  (forall c, In c (list_ascii_of_string "a.png"%string) -> is_separator c = false)
  /\ createDirsIfRequired "a.png"%string = EmptyString.
Proof.
  assert (H0 : (forall c, In c (list_ascii_of_string "a.png"%string) -> is_separator c = false))
    by (intros c Hc; cbn in Hc;
        repeat (destruct Hc as [<- | Hc]; [reflexivity|]); destruct Hc).
  split; [exact H0|].
  exact (createDirsIfRequired_bare_name "a.png"%string H0).
Defined.

Lemma createDirsIfRequired_directory_witness :
  (forall c, In c (list_ascii_of_string "out"%string) -> is_separator c = false)
  /\ is_separator slash = true
  /\ createDirsIfRequired ("out"%string ++ String slash "a.png"%string)
       = ("out"%string ++ String backslash (createDirsIfRequired "a.png"%string))%string.
Proof.
  assert (H0 : (forall c, In c (list_ascii_of_string "out"%string) -> is_separator c = false))
    by (intros c Hc; cbn in Hc;
        repeat (destruct Hc as [<- | Hc]; [reflexivity|]); destruct Hc).
  split; [exact H0|].
  split; [reflexivity|].
  exact (createDirsIfRequired_directory "out"%string "a.png"%string slash H0 eq_refl).
Defined.

